(** * micperf: parameter sets, kernel categories, statistics and offload runs

    A shallow embedding of the benchmark harness in
    [micp/params.py], [micp/kernel.py], [micp/stats.py], [micp/offload.py]
    and [micp/common.py], followed by the properties proved about it.

    Python values are modelled as follows.
    - [str] (a Python 2 byte string) is [string]; [None] or a string is
      [option string].
    - a [dict] that is only looked up and assigned is a [gmap]; a [dict]
      that the code iterates over is an association list whose order is
      the iteration order (which Python 2 leaves unspecified, so the
      theorems hold for every order).
    - [float] is the kernel's binary64 [float]: the same IEEE 754 format
      and the same round-to-nearest operations as CPython's.
    - a raised exception is the [Raise] case of [result].                 *)

From Stdlib Require Import ZArith Ascii Floats Lia.
From Stdlib Require String.
From stdpp Require Import base option list strings gmap sorting pretty.

Local Open Scope Z_scope.

(* ===================================================================== *)
(** * Exceptions and the error monad                                      *)
(* ===================================================================== *)

(** The three messages [UnknownParamError] is raised with in [params.py]. *)
Inductive param_error : Type :=
| BadQuoting (input : string)
| UnknownKernelParameter (name : string)
| UnknownKernelFlag (flag : ascii)
| MalformedToken (token : string) (position : nat).

(** [micp.common.DEP_REDIST], [DEP_MPI], [DEP_LINPACK]. *)
Inductive dependency : Type := DEP_REDIST | DEP_MPI | DEP_LINPACK.

Inductive exn : Type :=
| MicpParamsHelpError
| UnknownParamError (why : param_error)
| InvalidParamTypeError (validator param value : string)
| MissingDependenciesError (dep : dependency)
| CalledProcessError (returncode : Z) (cmd : string)
| NoExecutionPermission (executable side : string)
| NoExecutableError
| PerfRegressionError
| GetOffloadIndexError
| NameError (msg : string)
| KeyError (key : string)
| ValueError (msg : string)
| RuntimeError (msg : string)
| OSError (msg : string)
| IndexError
| TypeError
| ZeroDivisionError
| NotImplementedError.

Inductive result (A : Type) : Type :=
| Ok (a : A)
| Raise (e : exn).
Arguments Ok {A} a.
Arguments Raise {A} e.

#[global] Instance result_ret : MRet result := fun A a => Ok a.
#[global] Instance result_bind : MBind result := fun A B f m =>
  match m with Ok a => f a | Raise e => Raise e end.
#[global] Instance result_fmap : FMap result := fun A B f m =>
  match m with Ok a => Ok (f a) | Raise e => Raise e end.

Definition is_Ok {A} (r : result A) : Prop :=
  match r with Ok _ => True | Raise _ => False end.

(* ===================================================================== *)
(** * Python built-ins used by the code                                   *)
(* ===================================================================== *)

Module Py.

(** [s.startswith(p)] *)
Definition startswith (s p : string) : bool := String.prefix p s.

(** [s[n:]] for [n >= 0] *)
Fixpoint str_from (n : nat) (s : string) : string :=
  match n, s with
  | O, _ => s
  | S n', String _ s' => str_from n' s'
  | S _, EmptyString => EmptyString
  end.

(** [s[:n]] for [n >= 0] *)
Fixpoint str_upto (n : nat) (s : string) : string :=
  match n, s with
  | S n', String c s' => String c (str_upto n' s')
  | _, _ => EmptyString
  end.

(** [s.find(sub)], with [None] for [-1] *)
Fixpoint find (sub s : string) : option nat :=
  if String.prefix sub s then Some O
  else match s with
       | EmptyString => None
       | String _ s' => S <$> find sub s'
       end.

(** [sub in s] *)
Definition contains (sub s : string) : bool := bool_decide (is_Some (find sub s)).

(** [sep.join(l)] *)
Definition join (sep : string) (l : list string) : string := String.concat sep l.

Definition is_digit (c : ascii) : bool :=
  match Ascii.is_nat c with Some _ => true | None => false end.

Definition is_alpha (c : ascii) : bool :=
  let n := nat_of_ascii c in
  (((65 <=? n) && (n <=? 90)) || ((97 <=? n) && (n <=? 122)))%nat.

Fixpoint all_digits (s : string) : bool :=
  match s with
  | EmptyString => true
  | String c s' => is_digit c && all_digits s'
  end.

(** [s.isdigit()]: at least one character and only digits *)
Definition isdigit (s : string) : bool :=
  match s with EmptyString => false | _ => all_digits s end.

Definition newline : ascii := "010"%char.
Definition dquote : ascii := "034"%char.

(** What a trailing [$] of a [re] pattern accepts: the end of the string,
    or one newline right before it. *)
Definition re_at_end (s : string) : bool :=
  match s with
  | EmptyString => true
  | String c EmptyString => bool_decide (c = newline)
  | _ => false
  end.

(** [re.match('^-?\d+$', s)] *)
Fixpoint re_digits_end (s : string) : bool :=
  match s with
  | EmptyString => false
  | String c s' => is_digit c && (re_at_end s' || re_digits_end s')
  end.

Definition re_signed_int (s : string) : bool :=
  match s with
  | String "-"%char s' => re_digits_end s'
  | _ => re_digits_end s
  end.

(** [re.match('^' + a1|a2|...|an + '$', s)] for literal alternatives: the
    anchors bind tighter than [|], so only the last alternative is held
    to the end of the string and [re.match] holds every alternative to
    its start. *)
Fixpoint re_alternatives (alts : list string) (s : string) : bool :=
  match alts with
  | [] => false
  | [a] => startswith s a && re_at_end (str_from (String.length a) s)
  | a :: rest => startswith s a || re_alternatives rest s
  end.

(** [re.compile('^-[a-zA-Z]$').match] *)
Definition is_short_option (s : string) : bool :=
  match s with
  | String "-"%char (String c rest) => is_alpha c && re_at_end rest
  | _ => false
  end.

(** ** [shlex.split(s)]

    The standard library's POSIX-mode lexer with [whitespace_split] set
    and no comment characters, as [shlex.split] configures it: blank
    characters separate words, single and double quotes group, and a
    backslash escapes the next character (inside double quotes only the
    quote and the backslash itself). *)

Definition is_blank (c : ascii) : bool :=
  bool_decide (c = " "%char) || bool_decide (c = "009"%char) ||
  bool_decide (c = "013"%char) || bool_decide (c = newline).

Definition is_quote (c : ascii) : bool :=
  bool_decide (c = "'"%char) || bool_decide (c = dquote).

Definition is_escape (c : ascii) : bool := bool_decide (c = "\"%char).

Inductive lex_state : Type :=
| LBlank                         (* state ' '  *)
| LWord                          (* state 'a'  *)
| LQuote (q : ascii)             (* state is a quote character *)
| LEscape (back : option ascii). (* state is the escape character;
                                    [back] is the enclosing quote *)

Definition snoc (tok : string) (c : ascii) : string :=
  tok +:+ String c EmptyString.

(** [lex st tok quoted s]: the words read from [s], starting in state
    [st] with the partial word [tok]; [quoted] records that the partial
    word had a quoted part, so that it is kept even when empty. *)
Fixpoint lex (st : lex_state) (tok : string) (quoted : bool) (s : string)
  : result (list string) :=
  match s with
  | EmptyString =>
      match st with
      | LBlank => Ok []
      | LWord => Ok (if bool_decide (tok = "") && negb quoted then [] else [tok])
      | LQuote _ => Raise (ValueError "No closing quotation")
      | LEscape _ => Raise (ValueError "No escaped character")
      end
  | String c s' =>
      match st with
      | LBlank =>
          if is_blank c then lex LBlank "" false s'
          else if is_escape c then lex (LEscape None) "" false s'
          else if is_quote c then lex (LQuote c) "" true s'
          else lex LWord (String c EmptyString) false s'
      | LWord =>
          if is_blank c then
            if bool_decide (tok = "") && negb quoted then lex LBlank "" false s'
            else cons tok <$> lex LBlank "" false s'
          else if is_quote c then lex (LQuote c) tok true s'
          else if is_escape c then lex (LEscape None) tok quoted s'
          else lex LWord (snoc tok c) quoted s'
      | LQuote q =>
          if bool_decide (c = q) then lex LWord tok true s'
          else if is_escape c && bool_decide (q = dquote)
               then lex (LEscape (Some q)) tok true s'
          else lex (LQuote q) (snoc tok c) true s'
      | LEscape back =>
          match back with
          | None => lex LWord (snoc tok c) quoted s'
          | Some q =>
              if bool_decide (c = q) || is_escape c
              then lex (LQuote q) (snoc tok c) true s'
              else lex (LQuote q) (snoc (snoc tok "\"%char) c) true s'
          end
      end
  end.

Definition shlex_split (s : string) : result (list string) :=
  lex LBlank "" false s.

(** [s.split()]: the maximal runs of characters that are not white space *)
Fixpoint split_from (tok : string) (s : string) : list string :=
  match s with
  | EmptyString => if bool_decide (tok = "") then [] else [tok]
  | String c s' =>
      if Ascii.is_space c
      then (if bool_decide (tok = "") then split_from "" s' else tok :: split_from "" s')
      else split_from (tok +:+ String c EmptyString) s'
  end.

Definition split (s : string) : list string := split_from "" s.

(** [os.path.basename(p)] and [os.path.dirname(p)] (posixpath) *)
Fixpoint basename_from (acc : string) (p : string) : string :=
  match p with
  | EmptyString => acc
  | String c p' =>
      if bool_decide (c = "/"%char) then basename_from "" p'
      else basename_from (acc +:+ String c EmptyString) p'
  end.

Definition basename (p : string) : string := basename_from "" p.

Fixpoint rstrip_slash (s : string) : string :=
  match s with
  | EmptyString => EmptyString
  | String c s' =>
      match rstrip_slash s' with
      | EmptyString => if bool_decide (c = "/"%char) then EmptyString else String c EmptyString
      | rest => String c rest
      end
  end.

Definition dirname (p : string) : string :=
  let head := str_upto (String.length p - String.length (basename p)) p in
  match rstrip_slash head with
  | EmptyString => head
  | stripped => stripped
  end.

(** [s.upper()] *)
Definition upper_char (c : ascii) : ascii :=
  let n := nat_of_ascii c in
  if ((97 <=? n) && (n <=? 122))%nat then ascii_of_nat (n - 32) else c.

Fixpoint upper (s : string) : string :=
  match s with
  | EmptyString => EmptyString
  | String c s' => String (upper_char c) (upper s')
  end.

(** [str(v)] for a value that is [None] or a string *)
Definition str_of (v : option string) : string := default "None" v.

(** [fill * n] and [format(s, fill + '^' + str(width))] *)
Fixpoint repeat_char (fill : ascii) (n : nat) : string :=
  match n with
  | O => EmptyString
  | S n' => String fill (repeat_char fill n')
  end.

Definition center (s : string) (width : nat) (fill : ascii) : string :=
  let pad := (width - String.length s)%nat in
  let left := (pad / 2)%nat in
  repeat_char fill left +:+ s +:+ repeat_char fill (pad - left).

(** [l[a:b]] for a list and integer bounds *)
Definition clamp (len i : Z) : Z :=
  if i <? 0 then Z.max (i + len) 0 else Z.min i len.

Definition slice {A} (l : list A) (a b : Z) : list A :=
  let len := Z.of_nat (length l) in
  let lo := clamp len a in
  let hi := clamp len b in
  take (Z.to_nat (hi - lo)) (skipn (Z.to_nat lo) l).

(** ** Dictionaries that are iterated over

    An association list without repeated keys; the list order is the
    order in which [for k in d] visits the keys.  Assigning to a new key
    appends it. *)

Fixpoint dict_get {V} (k : string) (d : list (string * V)) : option V :=
  match d with
  | [] => None
  | (k', v) :: d' => if bool_decide (k' = k) then Some v else dict_get k d'
  end.

Fixpoint dict_set {V} (k : string) (v : V) (d : list (string * V)) : list (string * V) :=
  match d with
  | [] => [(k, v)]
  | (k', v') :: d' =>
      if bool_decide (k' = k) then (k, v) :: d' else (k', v') :: dict_set k v d'
  end.


Definition dict_keys {V} (d : list (string * V)) : list string := d.*1.


(** [s.lower()] *)
Definition lower_char (c : ascii) : ascii :=
  let n := nat_of_ascii c in
  if ((65 <=? n) && (n <=? 90))%nat then ascii_of_nat (n + 32) else c.

Fixpoint lower (s : string) : string :=
  match s with
  | EmptyString => EmptyString
  | String c s' => String (lower_char c) (lower s')
  end.

(** [s[-n:]] for [n > 0] and [s[a:-n]] for [a >= 0], [n > 0] *)
Definition str_last (n : nat) (s : string) : string :=
  str_from (String.length s - n) s.

Definition str_between (a n : nat) (s : string) : string :=
  str_upto (String.length s - n - a) (str_from a s).

(** [s.endswith(suffix)] *)
Definition endswith (s suffix : string) : bool :=
  (String.length suffix <=? String.length s)%nat
  && bool_decide (str_last (String.length suffix) s = suffix).

(** [s.split(sep)] for a separator that is not empty: [acc] is the piece
    being read and [skip] counts the characters of a separator that was
    found and is still to be passed over. *)
Fixpoint split_on_from (sep : string) (skip : nat) (acc : string) (s : string)
  : list string :=
  match s with
  | EmptyString => [acc]
  | String c s' =>
      match skip with
      | S k => split_on_from sep k acc s'
      | O =>
          if String.prefix sep s
          then acc :: split_on_from sep (String.length sep - 1) "" s'
          else split_on_from sep O (acc +:+ String c EmptyString) s'
      end
  end.

Definition split_on (sep : string) (s : string) : list string :=
  split_on_from sep 0 "" s.

(** [int / int] of Python 2 for a positive divisor, and [fill * n] for
    an integer [n] *)
Definition floordiv (a b : Z) : Z := a / b.
Definition times (fill : ascii) (n : Z) : string := repeat_char fill (Z.to_nat n).

End Py.

(* ===================================================================== *)
(** * micp/params.py                                                      *)
(* ===================================================================== *)

(** A Python value that is either [None] or a [str]. *)
Abbreviation pyval := (option string) (only parsing).

Module Params.
Import Py.

(** ** Type validators ([micp.common] and the [ParamTypeValidator] classes) *)

Inductive type_check : Type :=
| unsigned_int
| signed_int
| custom_type (alternatives : list string)
| no_args.

(** [true] when the checking function returns, [false] when it raises
    [ValueError]. *)
Definition type_check_ok (c : type_check) (param : string) : bool :=
  match c with
  | unsigned_int => isdigit param
  | signed_int => re_signed_int param
  | custom_type alts => re_alternatives alts param
  | no_args => bool_decide (param = "")
  end.

(** A validator object: its [name] and its [_validators] dictionary.
    [NoParamTypeValidator] has neither and overrides [validate_param]. *)
Inductive ParamTypeValidator : Type :=
| NoParamTypeValidator
| TypedValidator (name : string) (validators : gmap string type_check).

Definition validate_param (vd : ParamTypeValidator) (param value : string)
  : result string :=
  match vd with
  | NoParamTypeValidator => Ok value
  | TypedValidator name validators =>
      match validators !! param with
      | None => Raise (RuntimeError "_validator dictionary was not populated correctly")
      | Some check =>
          if type_check_ok check value then Ok value
          else Raise (InvalidParamTypeError name param value)
      end
  end.

Definition XGEMM_VALIDATOR : string := "gemm".
Definition STREAM_VALIDATOR : string := "stream".
Definition SHOC_VALIDATOR : string := "shoc".
Definition LINPACK_VALIDATOR : string := "linpack".
Definition HPLINPACK_VALIDATOR : string := "hplinpack".
Definition HPCG_VALIDATOR : string := "hpcg".
Definition NO_VALIDATOR : string := "none".

Definition GEMMParamTypeValidator : ParamTypeValidator :=
  TypedValidator "XGEMM" (list_to_map
    [("i_num_rep", unsigned_int);
     ("n_num_thread", signed_int);
     ("m_mode", custom_type ["NN"; "NT"; "TN"; "TT"; "0"; "1"; "2"; "3"]);
     ("M_size", unsigned_int);
     ("N_size", unsigned_int);
     ("K_size", unsigned_int)]).

Definition LinpackParamTypeValidator : ParamTypeValidator :=
  TypedValidator "linpack" (list_to_map
    [("omp_num_threads", signed_int);
     ("matrix_size", unsigned_int);
     ("num_rep", unsigned_int);
     ("lead_dim", unsigned_int)]).

Definition StreamParamTypeValidator : ParamTypeValidator :=
  TypedValidator "STREAM" (list_to_map [("omp_num_threads", unsigned_int)]).

Definition SHOCParamTypeValidator : ParamTypeValidator :=
  TypedValidator "SHOC" (list_to_map
    [("target", unsigned_int); ("passes", unsigned_int); ("nopinned", no_args)]).

Definition HPLinpackParamTypeValidator : ParamTypeValidator :=
  TypedValidator "hplinpack" (list_to_map
    [("problem_size", unsigned_int);
     ("block_size", unsigned_int);
     ("hpl_numthreads", unsigned_int)]).

Definition HPCGParamTypeValidator : ParamTypeValidator :=
  TypedValidator "hpcg" (list_to_map
    [("problem_size", unsigned_int);
     ("time", unsigned_int);
     ("omp_num_threads", unsigned_int)]).

Definition ParamTypeValidatorFactory (name : string) : result ParamTypeValidator :=
  if bool_decide (name = NO_VALIDATOR) then Ok NoParamTypeValidator
  else if bool_decide (name = XGEMM_VALIDATOR) then Ok GEMMParamTypeValidator
  else if bool_decide (name = SHOC_VALIDATOR) then Ok SHOCParamTypeValidator
  else if bool_decide (name = LINPACK_VALIDATOR) then Ok LinpackParamTypeValidator
  else if bool_decide (name = STREAM_VALIDATOR) then Ok StreamParamTypeValidator
  else if bool_decide (name = HPLINPACK_VALIDATOR) then Ok HPLinpackParamTypeValidator
  else if bool_decide (name = HPCG_VALIDATOR) then Ok HPCGParamTypeValidator
  else Raise (ValueError "unknown validator").

(** ** class Params *)

Record Params : Type := mkParams {
  _paramNames : list string;
  _params : gmap string pyval;
  _defaults : gmap string pyval;
  _paramQuiet : list string
}.

(** The [params] argument of the constructor: a string or a list. *)
Inductive raw_params : Type :=
| RawStr (s : string)
| RawList (l : list string).

(** The positional branch: [for pn, pp in zip(self._paramNames, params)]. *)
Fixpoint parse_positional (vd : ParamTypeValidator)
    (names params : list string) (d : gmap string pyval)
  : result (gmap string pyval) :=
  match names, params with
  | pn :: names', pp :: params' =>
      match validate_param vd pn pp with
      | Ok v => parse_positional vd names' params' (<[pn := Some v]> d)
      | Raise e => Raise e
      end
  | _, _ => Ok d
  end.

(** The [while i < len(params)] loop: [toks] is [params[i:]]. *)
Fixpoint parse_options (vd : ParamTypeValidator) (names : list string)
    (toks : list string) (i : nat) (d : gmap string pyval)
  : result (gmap string pyval) :=
  match toks with
  | [] => Ok d
  | t :: rest =>
      if startswith t "--" then
        let thisName := str_from 2 t in
        if bool_decide (thisName = "help") then Raise MicpParamsHelpError
        else if bool_decide (thisName ∈ names) then
          match rest with
          | v :: rest' =>
              if negb (startswith v "-") then
                match validate_param vd thisName v with
                | Ok val => parse_options vd names rest' (i + 2) (<[thisName := Some val]> d)
                | Raise e => Raise e
                end
              else
                match validate_param vd thisName "" with
                | Ok val => parse_options vd names rest (i + 1) (<[thisName := Some val]> d)
                | Raise e => Raise e
                end
          | [] =>
              match validate_param vd thisName "" with
              | Ok val => Ok (<[thisName := Some val]> d)
              | Raise e => Raise e
              end
          end
        else Raise (UnknownParamError (UnknownKernelParameter thisName))
      else if is_short_option t then
        match t with
        | String _ (String thisFlag _) =>
            if bool_decide (thisFlag = "h"%char) then Raise MicpParamsHelpError
            else
              match filter (fun pn => startswith pn (String thisFlag EmptyString) = true) names with
              | [] => Raise (UnknownParamError (UnknownKernelFlag thisFlag))
              | [thisName] =>
                  match rest with
                  | v :: rest' =>
                      if negb (is_short_option v) then
                        match validate_param vd thisName v with
                        | Ok val => parse_options vd names rest' (i + 2) (<[thisName := Some val]> d)
                        | Raise e => Raise e
                        end
                      else
                        match validate_param vd thisName "" with
                        | Ok val => parse_options vd names rest (i + 1) (<[thisName := Some val]> d)
                        | Raise e => Raise e
                        end
                  | [] =>
                      match validate_param vd thisName "" with
                      | Ok val => Ok (<[thisName := Some val]> d)
                      | Raise e => Raise e
                      end
                  end
              | _ => Raise (NameError "more than one parameter name starts with the same character")
              end
        | _ => Raise IndexError
        end
      else Raise (UnknownParamError (MalformedToken t i))
  end.

(** The closing loop: a parameter still [None] takes its default, if any. *)
Definition fill_defaults (names : list string) (defaults d : gmap string pyval)
  : gmap string pyval :=
  foldl (fun d pp =>
           match d !! pp with
           | Some None => <[pp := default None (defaults !! pp)]> d
           | _ => d
           end) d names.

(** [Params.__init__] *)
Definition init (params : raw_params) (paramNames : list string)
    (defaults : gmap string pyval) (paramQuiet : list string)
    (paramValidatorName : string) : result Params :=
  toks ← match params with
         | RawStr s =>
             match shlex_split s with
             | Ok l => Ok l
             | Raise _ => Raise (UnknownParamError (BadQuoting s))
             end
         | RawList l => Ok l
         end;
  paramValidator ← ParamTypeValidatorFactory paramValidatorName;
  let d0 : gmap string pyval := list_to_map ((fun pn => (pn, None)) <$> paramNames) in
  d1 ← (if negb (existsb (fun pp => startswith pp "--" || is_short_option pp) toks)
        then parse_positional paramValidator paramNames toks d0
        else parse_options paramValidator paramNames toks 0 d0);
  Ok {| _paramNames := paramNames;
        _params := fill_defaults paramNames defaults d1;
        _defaults := defaults;
        _paramQuiet := paramQuiet |}.

(** [self._params[pn]] for a declared name.  The constructor gives every
    declared name a key and [set_named] only assigns declared names, so the
    lookup cannot miss (lemma [init_declared] below); a missing key reads
    as [None] here. *)
Definition item (p : Params) (pn : string) : pyval := mjoin (_params p !! pn).

(** The generator clause shared by [pos_list], [value_str] and [flag_str]:
    [for pn in self._paramNames
       if self._params[pn] != None and pn not in self._paramQuiet],
    with the value each name is bound to. *)
Definition shown (p : Params) : list (string * string) :=
  omap (fun pn =>
          match item p pn with
          | Some v => if bool_decide (pn ∈ _paramQuiet p) then None else Some (pn, v)
          | None => None
          end) (_paramNames p).

(** [Params.__str__]: no test against [_paramQuiet] here. *)
Definition str (p : Params) : string :=
  join " " (omap (fun pn => (fun v => "--" +:+ pn +:+ " " +:+ v) <$> item p pn)
                 (_paramNames p)).

Definition pos_list (p : Params) : list string :=
  (fun nv => if bool_decide (nv.2 = "") then "1" else nv.2) <$> shown p.

Definition pos_str (p : Params) : string := join " " (pos_list p).

Definition value_str (p : Params) : string :=
  join " " ((fun nv => "--" +:+ nv.1 +:+ " " +:+ nv.2) <$> shown p).

(** [pn[0]] raises [IndexError] on an empty name. *)
Definition flag_item (nv : string * string) : result string :=
  match nv.1 with
  | String c _ => Ok ("-" +:+ String c EmptyString +:+ " " +:+ nv.2)
  | EmptyString => Raise IndexError
  end.

Fixpoint flag_items (l : list (string * string)) : result (list string) :=
  match l with
  | [] => Ok []
  | nv :: l' =>
      match flag_item nv with
      | Ok s => cons s <$> flag_items l'
      | Raise e => Raise e
      end
  end.

Definition flag_str (p : Params) : result string :=
  join " " <$> flag_items (shown p).

Definition num_param (p : Params) : nat := length (pos_list p).

Definition value_list (p : Params) : list string := split (value_str p).

Definition flag_list (p : Params) : result (list string) := split <$> flag_str p.

Definition get_named (p : Params) (name : string) : result pyval :=
  match _params p !! name with
  | Some v => Ok v
  | None => Raise (NameError "")
  end.

Definition set_named (p : Params) (name : string) (value : pyval) : result Params :=
  if bool_decide (name ∈ _paramNames p)
  then Ok {| _paramNames := _paramNames p;
             _params := <[name := value]> (_params p);
             _defaults := _defaults p;
             _paramQuiet := _paramQuiet p |}
  else Raise (NameError "").

End Params.

(** ** class ParamsPos *)

Module ParamsPos.
Import Py.

Record ParamsPos : Type := mkParamsPos { _params : list string }.

Definition init (params : Params.raw_params) : ParamsPos :=
  match params with
  | Params.RawStr s => mkParamsPos (split s)
  | Params.RawList l => mkParamsPos l
  end.

Definition pos_list (p : ParamsPos) : list string := _params p.
Definition pos_str (p : ParamsPos) : string := join " " (_params p).
Definition str (p : ParamsPos) : string := pos_str p.
Definition num_param (p : ParamsPos) : nat := length (pos_list p).

End ParamsPos.

(** ** class ParamsDrop

    [ParamsDrop] keeps a private [copy.deepcopy] of the object it is given
    and assigns to that copy.  Objects therefore live in a heap, so that
    "the wrapped object is left alone" is a statement about the heap and
    not a consequence of values being immutable. *)

Module ParamsDrop.
Import Py.

Inductive object : Type :=
| OParams (p : Params.Params)
| OParamsPos (p : ParamsPos.ParamsPos).

Abbreviation ref := positive (only parsing).
Abbreviation heap := (gmap positive object) (only parsing).

Record ParamsDrop : Type := mkParamsDrop {
  _params : ref;
  _numDrop : Z
}.

(** [copy.deepcopy(o)]: a new object with the same contents. *)
Definition deepcopy (h : heap) (o : object) : heap * ref :=
  let r := fresh (dom h) in (<[r := o]> h, r).

(** [ParamsDrop.__init__(self, params, numDrop, paramMax)].  The copy is
    made before [numDrop] is checked. *)
Definition init (h : heap) (params : ref) (numDrop paramMax : Z)
  : heap * result ParamsDrop :=
  match h !! params with
  | None => (h, Raise (RuntimeError "unbound reference"))
  | Some o =>
      let '(h1, c) := deepcopy h o in
      if numDrop <? 1 then (h1, Raise (ValueError "numDrop must be greater than 0"))
      else
        match o with
        | OParamsPos _ => (h1, Ok (mkParamsDrop c numDrop))
        | OParams p =>
            let quiet := slice (Params._paramNames p) paramMax (paramMax + numDrop) in
            (<[c := OParams (Params.mkParams (Params._paramNames p) (Params._params p)
                                             (Params._defaults p) quiet)]> h1,
             Ok (mkParamsDrop c numDrop))
        end
  end.

(** The object [self._params] refers to. *)
Definition target (h : heap) (d : ParamsDrop) : result object :=
  match h !! _params d with
  | Some o => Ok o
  | None => Raise (RuntimeError "unbound reference")
  end.

Definition str (h : heap) (d : ParamsDrop) : result string :=
  o ← target h d;
  match o with
  | OParams p => Ok (Params.str p)
  | OParamsPos p => Ok (ParamsPos.str p)
  end.

Definition pos_list (h : heap) (d : ParamsDrop) : result (list string) :=
  o ← target h d;
  match o with
  | OParams p => Ok (Params.pos_list p)
  | OParamsPos p => Ok (ParamsPos.pos_list p)
  end.

Definition pos_str (h : heap) (d : ParamsDrop) : result string :=
  o ← target h d;
  match o with
  | OParams p => Ok (join " " (split (Params.pos_str p)))
  | OParamsPos p => Ok (join " " (split (ParamsPos.pos_str p)))
  end.

Definition value_str (h : heap) (d : ParamsDrop) : result string :=
  o ← target h d;
  match o with
  | OParams p => Ok (Params.value_str p)
  | OParamsPos _ => Raise NotImplementedError
  end.

Definition value_list (h : heap) (d : ParamsDrop) : result (list string) :=
  split <$> value_str h d.

Definition flag_str (h : heap) (d : ParamsDrop) : result string :=
  o ← target h d;
  match o with
  | OParams p => Params.flag_str p
  | OParamsPos _ => Raise NotImplementedError
  end.

Definition flag_list (h : heap) (d : ParamsDrop) : result (list string) :=
  split <$> flag_str h d.

Definition num_param (h : heap) (d : ParamsDrop) : result nat :=
  length <$> pos_list h d.

Definition get_named (h : heap) (d : ParamsDrop) (name : string) : result pyval :=
  o ← target h d;
  match o with
  | OParams p => Params.get_named p name
  | OParamsPos _ => Raise NotImplementedError
  end.

Definition set_named (h : heap) (d : ParamsDrop) (name : string) (value : pyval)
  : heap * result unit :=
  match target h d with
  | Raise e => (h, Raise e)
  | Ok (OParamsPos _) => (h, Raise NotImplementedError)
  | Ok (OParams p) =>
      match Params.set_named p name value with
      | Ok p' => (<[_params d := OParams p']> h, Ok tt)
      | Raise e => (h, Raise e)
      end
  end.

End ParamsDrop.

(* ===================================================================== *)
(** * micp/stats.py                                                       *)
(* ===================================================================== *)

Module Stats.
Import Py.

(** One entry of a [perf] dictionary: [{'value': .., 'units': .., 'rollup': ..}].
    [value] is the number [float(entry['value'])] that the comparisons
    read; [rollup] is [None] when the key is absent. *)
Record metric : Type := mkMetric {
  value : float;
  units : string;
  rollup : option bool
}.

(** [class Stats]: [perf] is iterated over, so it is an association list. *)
Record Stats : Type := mkStats {
  params : Params.Params;
  desc : string;
  perf : list (string * metric)
}.

(** [entry.get('rollup', True)] *)
Definition rolled (m : metric) : bool := default true (rollup m).

(** [x / y] on floats raises on a zero divisor of either sign. *)
Definition truediv (x y : float) : result float :=
  if (y =? 0)%float then Raise ZeroDivisionError else Ok (x / y)%float.

Definition sign_of (tag : string) : float :=
  if contains "Time" tag then (-1)%float else 1%float.

(** The body of the loop of [__sub__] for one [tag] that passed the
    [rolledUp] test. *)
Definition relative_error (tag : string) (m : metric) (ref : Stats) : result float :=
  match dict_get tag (perf ref) with
  | None => Raise (KeyError tag)
  | Some e => truediv (sign_of tag * (value m - value e))%float (value e)
  end.

Fixpoint sub_from (res : option float) (tags : list (string * metric))
    (ref : Stats) (rolledUp : bool) : result (option float) :=
  match tags with
  | [] => Ok res
  | (tag, m) :: tags' =>
      if negb rolledUp || rolled m then
        match relative_error tag m ref with
        | Raise e => Raise e
        | Ok relError =>
            let res' :=
              match res with
              | None => Some relError
              | Some r => if (relError <? r)%float then Some relError else Some r
              end in
            sub_from res' tags' ref rolledUp
        end
      else sub_from res tags' ref rolledUp
  end.

(** [Stats.__sub__(self, ref, rolledUp=True)]; [self - ref] is
    [sub self ref true].  [Ok None] is the [None] returned when no tag
    passes the test. *)
Definition sub (self ref : Stats) (rolledUp : bool) : result (option float) :=
  sub_from None (perf self) ref rolledUp.

(** ** class StatsCollection *)

Record StatsCollection : Type := mkStatsCollection {
  paramCat : string;                       (* runArgs['paramCat'] *)
  tag : string;
  _store : list (string * list (string * list Stats));
  _xName : list (string * string);
  _extended : bool
}.

Definition split_offload (offloadName : string) : string * option string :=
  match find "__" offloadName with
  | None => (offloadName, None)
  | Some splitPos => (str_upto splitPos offloadName, Some (str_from (splitPos + 2) offloadName))
  end.

Definition with_store (c : StatsCollection)
    (store : list (string * list (string * list Stats))) : StatsCollection :=
  mkStatsCollection (paramCat c) (tag c) store (_xName c) (_extended c).

(** [StatsCollection.append] *)
Definition append (self : StatsCollection) (kernelName offloadName xName : string)
    (stats : list Stats) : result StatsCollection :=
  let offloadName := offloadName +:+ "__" +:+ tag self in
  let store :=
    match dict_get kernelName (_store self) with
    | Some offloads =>
        match dict_get offloadName offloads with
        | Some old => dict_set kernelName (dict_set offloadName (old ++ stats) offloads) (_store self)
        | None => dict_set kernelName (dict_set offloadName stats offloads) (_store self)
        end
    | None => dict_set kernelName [(offloadName, stats)] (_store self)
    end in
  match dict_get kernelName (_xName self) with
  | None =>
      Ok (mkStatsCollection (paramCat self) (tag self) store
            (dict_set kernelName xName (_xName self)) (_extended self))
  | Some x =>
      if bool_decide (x = xName) then Ok (with_store self store)
      else Raise (NameError "xName must be the same for all stats associated with a kernel")
  end.












(** [StatsCollection.get_stat_list] *)
Definition get_stat_list (self : StatsCollection) (kernelName offloadName : string)
  : result (list Stats) :=
  match dict_get kernelName (_store self) with
  | None => Raise (KeyError kernelName)
  | Some offloads =>
      if contains "__" offloadName then
        match dict_get offloadName offloads with
        | Some l => Ok l
        | None => Raise (KeyError offloadName)
        end
      else
        let extensions :=
          merge_sort String.le
            (remove_dups (omap (fun oo => (split_offload oo).2) (dict_keys offloads))) in
        Ok (concat (omap (fun ex => dict_get (offloadName +:+ "__" +:+ ex) offloads)
                         extensions))
  end.

Fixpoint optimal_from (optimalStat : Stats) (statList : list Stats) : result Stats :=
  match statList with
  | [] => Ok optimalStat
  | stat :: rest =>
      match sub stat optimalStat true with
      | Raise e => Raise e
      | Ok (Some dd) => optimal_from (if (0 <? dd)%float then stat else optimalStat) rest
      | Ok None => optimal_from optimalStat rest
      end
  end.

(** [StatsCollection.get_optimal_stat] *)
Definition get_optimal_stat (self : StatsCollection) (kernelName offloadName : string)
  : result (option Stats) :=
  match get_stat_list self kernelName offloadName with
  | Raise e => Raise e
  | Ok [] => Ok None
  | Ok (first :: rest) => Some <$> optimal_from first (first :: rest)
  end.








End Stats.

(* ===================================================================== *)
(** * micp/kernel.py                                                      *)
(* ===================================================================== *)

Module Kernel.
Import Py.

(** [class Kernel]: the attributes and the overridable methods that
    [category_params] and [Offload.run] use.  Methods that read the file
    system or the machine are fields giving their outcome. *)
Record Kernel : Type := mkKernel {
  name : string;
  (** [None] when [__init__] did not set the attribute *)
  _categoryParams : option (gmap string (list string));
  _update_params : list string -> option string -> list string;
  is_mpi_required : bool;
  path_host_exec : string -> result (option string);
  path_dev_exec : string -> result (option string);
  path_aux_data : string -> result (list string);
  param_type : string;
  param_file : Params.Params -> result string;
  param_for_env : list string;
  environment_host : list (string * pyval);
  environment_dev : list (string * pyval);
  get_process_modifiers : list string;
  get_fixed_args : list string;
  get_working_directory : option string;
  requires_root_access : bool;
  is_optimized_for_snc_mode : bool;
  device_param_name : string;
  (** with [internal_scaling()] the parsers return lists: the two
      [_scaling] fields *)
  internal_scaling : bool;
  parse_desc : string -> result string;
  parse_perf : string -> result (list (string * Stats.metric));
  parse_desc_scaling : string -> result (list string);
  parse_perf_scaling : string -> result (list (list (string * Stats.metric)));
  _ordering_key : Stats.Stats -> result (option float)
}.

(** [Kernel._update_params]: the base class returns its argument. *)
Definition base_update_params (current_params : list string) (offload : option string)
  : list string := current_params.

(** [Kernel.category_params(self, category, offload=None)] *)
Definition category_params (self : Kernel) (category : string) (offload : option string)
  : result (list string) :=
  match _categoryParams self with
  | None => Raise NotImplementedError
  | Some cats =>
      match cats !! category with
      | Some params => Ok (_update_params self params offload)
      | None =>
          if bool_decide (category = "optimal") then
            match cats !! "scaling" with
            | Some scaling =>
                match last scaling with
                | Some p => Ok (_update_params self [p] offload)
                | None => Raise IndexError
                end
            | None => Raise (NameError ("Unknonwn parameter category " +:+ category))
            end
          else Raise (NameError ("Unknonwn parameter category " +:+ category))
      end
  end.

End Kernel.

(* ===================================================================== *)
(** * micp/offload.py                                                     *)
(* ===================================================================== *)

Module Offload.
Import Py.

Inductive side : Type := Host | Device.

(** The [args] of a [Popen]: one shell line (device side) or an argument
    vector (host side). *)
Inductive command : Type :=
| Shell (line : string)
| Argv (args : list string).

(** A launched process, with what [communicate()] will report. *)
Record process : Type := mkProcess {
  stdout : string;
  stderr : string;
  returncode : Z
}.

(** An [MPSSConnect] object. *)
Inductive connection : Type :=
| Local
| Remote (host : string).

(** What [run] does to the world, in order.  Printing is left out. *)
Inductive event : Type :=
| Connect (host : string)
| ResolveExec (s : side) (offload : string)
| Stage (files : list string) (dest : string)
| ParamFile (s : side)
| RemoveTree (path : string)
| Launch (s : side) (cmd : command) (env : list (string * pyval))
| Await (s : side)
| Kill (s : side)
| Write (text : string)
| Unlink (path : string).

(** The machine [run] executes on: the outcome of every call that leaves
    the program. *)
Record World : Type := mkWorld {
  is_mpi_available : bool;
  is_selfboot_platform : bool;
  is_in_sub_numa_cluster_mode : bool;
  path_exists : string -> bool;
  os_environ : list (string * pyval);
  (** [MPSSConnect(host)] for a host that is not local *)
  remote_connect : string -> result unit;
  remote_offload_index : string -> result Z;
  copyto : connection -> list string -> string -> result unit;
  Popen : connection -> command -> result process;
  unlink : string -> result unit;
  rmtree : string -> result unit;
  (** [kernelStdOut.write(text)] *)
  write : string -> result unit
}.

(** Computations that log events and may raise. *)
Definition M (A : Type) : Type := (list event * result A)%type.

Definition ret {A} (a : A) : M A := ([], Ok a).
Definition raise {A} (e : exn) : M A := ([], Raise e).
Definition lift {A} (r : result A) : M A := ([], r).
Definition emit (e : event) : M unit := ([e], Ok tt).

Definition bind {A B} (m : M A) (f : A -> M B) : M B :=
  match m with
  | (t, Ok a) => let '(t', r) := f a in (t ++ t', r)
  | (t, Raise e) => (t, Raise e)
  end.

Notation "x <- m ;; k" := (bind m (fun x => k))
  (at level 100, m at next level, right associativity).
Notation "m ;;; k" := (bind m (fun _ => k))
  (at level 100, right associativity).

(** [try: m finally: c]: an exception of [c] replaces that of [m]. *)
Definition finally {A} (m : M A) (c : M unit) : M A :=
  match m, c with
  | (t, r), (t', Ok _) => (t ++ t', r)
  | (t, _), (t', Raise e) => (t ++ t', Raise e)
  end.

Definition LOCAL_HOST_ID : list string := ["local"; "localhost"; "-1"].

(** [micp_connect.MPSSConnect(host)] *)
Definition MPSSConnect (w : World) (host : string) : M connection :=
  emit (Connect host) ;;;
  if bool_decide (host ∈ LOCAL_HOST_ID) then ret Local
  else
    match remote_connect w host with
    | Ok _ => ret (Remote host)
    | Raise e => raise e
    end.

Definition get_offload_index (w : World) (c : connection) : result Z :=
  match c with
  | Local => Ok (-1)
  | Remote host => remote_offload_index w host
  end.

(** [class Offload]: [name], [_runHost], [_runDev]. *)
Record Offload : Type := mkOffload {
  name : string;
  _runDev : bool;
  _runHost : bool
}.

Definition NativeOffload : Offload := mkOffload "native" true false.
Definition COIOffload : Offload := mkOffload "coi" false true.
Definition AutoOffload : Offload := mkOffload "auto" false true.
Definition PragmaOffload : Offload := mkOffload "pragma" false true.
Definition SCIFOffload : Offload := mkOffload "scif" true true.
Definition MYOOffload : Offload := mkOffload "myo" true true.
Definition LocalOffload : Offload := mkOffload "local" false true.

Definition _CARD_EXECUTION_DIR : string := "/tmp/".

(** [Offload._run_workload]; [args[0]] names the executable in the
    message (for a shell line that is its first character). *)
Definition _run_workload (w : World) (s : side) (c : connection) (args : command)
    (env : list (string * pyval)) (device : string) : M process :=
  emit (Launch s args env) ;;;
  match Popen w c args with
  | Ok p => ret p
  | Raise (OSError "Permission denied") =>
      raise (NoExecutionPermission
               match args with
               | Shell line => str_upto 1 line
               | Argv a => default "" (head a)
               end device)
  | Raise e => raise e
  end.

(** [Offload._validate_mpi_requirements] *)
Definition _validate_mpi_requirements (w : World) (kernel : Kernel.Kernel) : result unit :=
  if Kernel.is_mpi_required kernel && negb (is_mpi_available w)
  then Raise (MissingDependenciesError DEP_MPI)
  else Ok tt.

(** The [remote_files] argument of [clean_up]: [devParamFile] is a list,
    except between its two assignments in the [file] branch, where it is
    a string. *)
Inductive files : Type :=
| FileList (l : list string)
| FileName (s : string).

(** [Kernel.clean_up(local_files, remote_files, remote_shell)] *)
Definition clean_up (w : World) (local_files : list string) (remote_files : files)
    (remote_shell : connection) : M unit :=
  foldr (fun f k =>
           emit (Unlink f) ;;;
           match unlink w f with
           | Ok _ => k
           | Raise e => raise e
           end) (ret tt) local_files ;;;
  match remote_files with
  | FileList [] => ret tt
  | FileName EmptyString => ret tt
  | FileName _ => raise TypeError
  | FileList l =>
      emit (Launch Device (Shell (join " " ("rm" :: "-f" :: l))) []) ;;;
      p <- lift (Popen w remote_shell (Shell (join " " ("rm" :: "-f" :: l)))) ;;
      emit (Await Device)
  end.

(** [filesToRemove + devParamFile] *)
Definition files_after (filesToRemove : list string) (devParamFile : files)
  : result files :=
  match devParamFile with
  | FileList l => Ok (FileList (filesToRemove ++ l))
  | FileName _ => Raise TypeError
  end.

(** The part of the loop over [(paramList, devParamList)] that forces the
    device index into one parameter object. *)
Definition force_device_index (devIdx : Z) (devParName : string) (param : Params.Params)
  : result Params.Params :=
  let attempt :=
    match Params.get_named param devParName with
    | Ok paramDevIdx =>
        if bool_decide (paramDevIdx = Some (pretty devIdx)) then Ok param
        else Params.set_named param devParName (Some (pretty devIdx))
    | Raise e => Raise e
    end in
  match attempt with
  | Raise (NameError m) => if bool_decide (devIdx = 0) then Ok param else Raise (NameError m)
  | r => r
  end.

Fixpoint force_all (devIdx : Z) (devParName : string) (l : list Params.Params)
  : result (list Params.Params) :=
  match l with
  | [] => Ok []
  | p :: l' =>
      match force_device_index devIdx devParName p with
      | Ok p' => cons p' <$> force_all devIdx devParName l'
      | Raise e => Raise e
      end
  end.

(** The environment entries that [param_for_env] adds on the device. *)
Fixpoint dev_env (names : list string) (devParam : Params.Params)
    (env : list (string * pyval)) : result (list (string * pyval)) :=
  match names with
  | [] => Ok env
  | pn :: names' =>
      match Params.get_named devParam pn with
      | Raise e => Raise e
      | Ok v =>
          if bool_decide (pn = "omp_num_threads") || bool_decide (pn = "hpl_numthreads")
          then dev_env names' devParam (dict_set (upper pn) v env)
          else dev_env names' devParam (dict_set pn v env)
      end
  end.

(** ... and on the host. *)
Fixpoint host_env (w : World) (names : list string) (hostParam : Params.Params)
    (env : list (string * pyval)) : result (list (string * pyval)) :=
  match names with
  | [] => Ok env
  | pn :: names' =>
      match Params.get_named hostParam pn with
      | Raise e => Raise e
      | Ok v =>
          if bool_decide (pn = "omp_num_threads") || bool_decide (pn = "hpl_numthreads")
          then
            if is_selfboot_platform w then
              if is_in_sub_numa_cluster_mode w
              then host_env w names' hostParam
                     (dict_set "KMP_HW_SUBSET" (Some (str_of v +:+ "c,1t")) env)
              else host_env w names' hostParam (dict_set (upper pn) v env)
            else host_env w names' hostParam
                   (dict_set ("MIC_" +:+ upper pn) v (dict_set "MIC_ENV_PREFIX" (Some "MIC") env))
          else host_env w names' hostParam (dict_set pn v env)
      end
  end.

(** [hostProcEnv.update(confProcEnv)] *)
Definition env_update (env conf : list (string * pyval)) : list (string * pyval) :=
  foldl (fun e kv => dict_set kv.1 kv.2 e) env conf.

(** The state the loop carries: [result], [devParamFile]. *)
Record loop_state : Type := mkLoop {
  collected : list Stats.Stats;
  devParamFile : files
}.

(** The device half of one round: the arguments, the process and the new
    [devParamFile]. *)
Definition launch_device (w : World) (kernel : Kernel.Kernel) (self : Offload)
    (connect : connection) (execPath : string) (devParam : Params.Params)
    (devParamFile : files) : list event * (files * result (string * process)) :=
  let go (fs : files) (devArgs : result string) : list event * (files * result (string * process)) :=
    match devArgs with
    | Raise e => ([], (fs, Raise e))
    | Ok a =>
        let devArgs := "cd " +:+ _CARD_EXECUTION_DIR +:+ " && " +:+ _CARD_EXECUTION_DIR
                       +:+ basename execPath +:+ " " +:+ a in
        match dev_env (Kernel.param_for_env kernel) devParam (Kernel.environment_dev kernel) with
        | Raise e => ([], (fs, Raise e))
        | Ok devProcEnv =>
            let '(t, r) := _run_workload w Device connect (Shell devArgs) devProcEnv
                             "Xeon Phi Coprocessor" in
            (t, (fs, (fun p => (devArgs, p)) <$> r))
        end
    end in
  let ty := Kernel.param_type kernel in
  if bool_decide (ty = "value") then go devParamFile (Ok (Params.value_str devParam))
  else if bool_decide (ty = "flag") then go devParamFile (Params.flag_str devParam)
  else if bool_decide (ty = "pos") then go devParamFile (Ok (Params.pos_str devParam))
  else if bool_decide (ty = "file") then
    match Kernel.param_file kernel devParam with
    | Raise e => ([ParamFile Device], (devParamFile, Raise e))
    | Ok devParamFileOnHost =>
        let f := _CARD_EXECUTION_DIR +:+ basename devParamFileOnHost in
        match copyto w connect [devParamFileOnHost] f with
        | Raise e => ([ParamFile Device; Stage [devParamFileOnHost] f], (FileName f, Raise e))
        | Ok _ =>
            match rmtree w (dirname devParamFileOnHost) with
            | Raise e =>
                ([ParamFile Device; Stage [devParamFileOnHost] f;
                  RemoveTree (dirname devParamFileOnHost)], (FileName f, Raise e))
            | Ok _ =>
                let '(t, r) := go (FileList [f])
                                 (Ok (if bool_decide (Kernel.name kernel = "hplinpack")
                                      then "" else f)) in
                ([ParamFile Device; Stage [devParamFileOnHost] f;
                  RemoveTree (dirname devParamFileOnHost)] ++ t, r)
            end
        end
    end
  else if bool_decide (ty = "getopt") then go devParamFile (Ok (Params.str devParam))
  else ([], (devParamFile, Raise (NameError ("Unknown parameter type " +:+ ty)))).

(** The host half: [hostArgs] as passed to [Popen], the process and
    [hostParamFile]. *)
Definition launch_host (w : World) (kernel : Kernel.Kernel) (self : Offload)
    (localConnect : connection) (execPath : string) (hostParam : Params.Params)
  : list event * (list string * result (list string * process)) :=
  let go (hostParamFile : list string) (hostArgs : result (list string))
    : list event * (list string * result (list string * process)) :=
    match hostArgs with
    | Raise e => ([], (hostParamFile, Raise e))
    | Ok a =>
        let hostArgs := execPath :: a in
        match host_env w (Kernel.param_for_env kernel) hostParam
                (Kernel.environment_host kernel) with
        | Raise e => ([], (hostParamFile, Raise e))
        | Ok confProcEnv =>
            let hostProcEnv := env_update (os_environ w) confProcEnv in
            let hostArgs := Kernel.get_process_modifiers kernel ++ hostArgs
                            ++ Kernel.get_fixed_args kernel in
            let hostArgs := if Kernel.requires_root_access kernel
                            then "sudo" :: hostArgs else hostArgs in
            let '(t, r) := _run_workload w Host localConnect (Argv hostArgs) hostProcEnv
                             "host" in
            (t, (hostParamFile, (fun p => (hostArgs, p)) <$> r))
        end
    end in
  let ty := Kernel.param_type kernel in
  if bool_decide (ty = "value") then go [] (Ok (split (Params.value_str hostParam)))
  else if bool_decide (ty = "flag") then go [] (split <$> Params.flag_str hostParam)
  else if bool_decide (ty = "pos") then go [] (Ok (Params.pos_list hostParam))
  else if bool_decide (ty = "file") then
    match Kernel.param_file kernel hostParam with
    | Raise e => ([ParamFile Host], ([], Raise e))
    | Ok hostParamFile =>
        let '(t, r) := go [hostParamFile]
                         (Ok (if bool_decide (Kernel.name kernel = "hplinpack")
                              then [] else [hostParamFile])) in
        (ParamFile Host :: t, r)
    end
  else if bool_decide (ty = "getopt") then go [] (Ok (split (Params.str hostParam)))
  else ([], ([], Raise (NameError ("Unknown parameter type " +:+ ty)))).

(** The [try:] block that awaits the processes and builds [block]. *)
Definition await (w : World) (kernel : Kernel.Kernel) (self : Offload)
    (dev : option (string * process)) (host : option (list string * process))
    (kernelStdOut : bool) : M string :=
  devBlock <-
    match dev with
    | Some (devArgs, devProc) =>
        emit (Await Device) ;;;
        if bool_decide (returncode devProc ≠ 0)
        then raise (CalledProcessError (returncode devProc) devArgs)
        else ret [stdout devProc; stderr devProc]
    | None => ret []
    end ;;
  hostBlock <-
    match host with
    | Some (hostArgs, hostProc) =>
        emit (Await Host) ;;;
        (if kernelStdOut then
           let rule := center "" 80 "="%char in
           let nl := String newline EmptyString in
           let outSeparator :=
             rule +:+ nl +:+ center (" " +:+ Kernel.name kernel +:+ " ") 80 "="%char
                  +:+ nl +:+ rule in
           emit (Write outSeparator) ;;;
           lift (write w outSeparator) ;;;
           emit (Write (nl +:+ stdout hostProc +:+ nl)) ;;;
           match write w (nl +:+ stdout hostProc +:+ nl) with
           | Raise (OSError _) => ret tt
           | r => lift r
           end
         else ret tt) ;;;
        if bool_decide (returncode hostProc = 127)
        then raise (MissingDependenciesError DEP_REDIST)
        else if bool_decide (returncode hostProc ≠ 0)
        then raise (CalledProcessError (returncode hostProc) (join " " hostArgs))
        else ret [stdout hostProc; stderr hostProc]
    | None => ret []
    end ;;
  ret (join (String newline EmptyString) (devBlock ++ hostBlock)).

(** The [finally:] of that block.  A process that was launched and not
    awaited is killed. *)
Definition release (w : World) (kernel : Kernel.Kernel) (execPath : string)
    (connect : connection) (dev : option (string * process))
    (host : option (list string * process)) (hostParamFile : list string)
    (devParamFile : files) : M unit :=
  (match dev, host with
   | Some (_, devProc), Some _ =>
       if bool_decide (returncode devProc ≠ 0) then emit (Kill Host) else ret tt
   | _, _ => ret tt
   end) ;;;
  clean_up w hostParamFile devParamFile connect.

(** The statistics of one round. *)
Definition collect (kernel : Kernel.Kernel) (hostParam : Params.Params) (block : string)
  : result (list Stats.Stats) :=
  if Kernel.internal_scaling kernel then
    match Kernel.parse_desc_scaling kernel block, Kernel.parse_perf_scaling kernel block with
    | Ok descs, Ok perfs =>
        Ok ((fun dp => Stats.mkStats hostParam dp.1 dp.2) <$> zip descs perfs)
    | Raise e, _ | Ok _, Raise e => Raise e
    end
  else
    match Kernel.parse_desc kernel block, Kernel.parse_perf kernel block with
    | Ok d, Ok p => Ok [Stats.mkStats hostParam d p]
    | Raise e, _ | Ok _, Raise e => Raise e
    end.

(** One round of [for (hostParam, devParam) in zip(paramList, devParamList)]. *)
Definition round (w : World) (kernel : Kernel.Kernel) (self : Offload)
    (connect localConnect : connection) (execPath : string) (kernelStdOut : bool)
    (hostParam devParam : Params.Params) (devParamFile : files)
  : list event * (files * result (list Stats.Stats)) :=
  let '(t1, (fs, dev)) :=
    if _runDev self
    then let '(t, (fs, r)) := launch_device w kernel self connect execPath devParam devParamFile
         in (t, (fs, Some <$> r))
    else ([], (devParamFile, Ok None)) in
  match dev with
  | Raise e => (t1, (fs, Raise e))
  | Ok dev =>
      let '(t2, (hostParamFile, host)) :=
        if _runHost self
        then let '(t, (hf, r)) := launch_host w kernel self localConnect execPath hostParam
             in (t, (hf, Some <$> r))
        else ([], ([], Ok None)) in
      match host with
      | Raise e => (t1 ++ t2, (fs, Raise e))
      | Ok host =>
          let '(t3, block) :=
            finally (await w kernel self dev host kernelStdOut)
                    (release w kernel execPath connect dev host hostParamFile fs) in
          (t1 ++ t2 ++ t3, (fs, block ≫= collect kernel hostParam))
      end
  end.

Fixpoint rounds (w : World) (kernel : Kernel.Kernel) (self : Offload)
    (connect localConnect : connection) (execPath : string) (kernelStdOut : bool)
    (pairs : list (Params.Params * Params.Params)) (st : loop_state)
  : list event * (loop_state * result unit) :=
  match pairs with
  | [] => ([], (st, Ok tt))
  | (hostParam, devParam) :: rest =>
      match round w kernel self connect localConnect execPath kernelStdOut
              hostParam devParam (devParamFile st) with
      | (t, (fs, Raise e)) => (t, (mkLoop (collected st) fs, Raise e))
      | (t, (fs, Ok thisResult)) =>
          let '(t', r) := rounds w kernel self connect localConnect execPath kernelStdOut
                            rest (mkLoop (collected st ++ thisResult) fs) in
          (t ++ t', r)
      end
  end.

(** What [run] ends with: the list it returns, or the exception it
    raises together with the [partialResult] attached to it, if any. *)
Inductive outcome : Type :=
| Returned (result : list Stats.Stats)
| Raised (e : exn) (partialResult : option (list Stats.Stats)).

(** The [try: ... except: ... finally: ...] of [run], for an executable
    that was found. *)
Definition run_found (w : World) (self : Offload) (kernel : Kernel.Kernel)
    (connect localConnect : connection) (execPath : string)
    (paramList devParamList : list Params.Params) (kernelStdOut : bool)
  : list event * outcome :=
  let '(t1, (filesToRemove, staged)) :=
    if _runDev self then
      match Kernel.path_aux_data kernel (name self) with
      | Raise e => ([], ([], Raise e))
      | Ok aux =>
          let filesToCopy := execPath :: aux in
          let filesToRemove :=
            (fun ff => _CARD_EXECUTION_DIR +:+ basename ff)
              <$> filter (fun ff => basename ff ≠ "") filesToCopy in
          ([Stage filesToCopy _CARD_EXECUTION_DIR],
           (filesToRemove, copyto w connect filesToCopy _CARD_EXECUTION_DIR))
      end
    else ([], ([], Ok tt)) in
  let '(t2, (st, r)) :=
    match staged with
    | Raise e => ([], (mkLoop [] (FileList []), Raise e))
    | Ok _ => rounds w kernel self connect localConnect execPath kernelStdOut
                (zip paramList devParamList) (mkLoop [] (FileList []))
    end in
  let '(t3, c) :=
    match files_after filesToRemove (devParamFile st) with
    | Raise e => ([], Raise e)
    | Ok fs => clean_up w [] fs connect
    end in
  match c, r with
  | Raise e, _ => (t1 ++ t2 ++ t3, Raised e None)
  | Ok _, Raise e => (t1 ++ t2 ++ t3, Raised e (Some (collected st)))
  | Ok _, Ok _ =>
      match collected st with
      | first :: _ :: _ =>
          match Kernel._ordering_key kernel first with
          | Raise e => (t1 ++ t2 ++ t3, Raised e None)
          | Ok _ => (t1 ++ t2 ++ t3, Returned (collected st))
          end
      | _ => (t1 ++ t2 ++ t3, Returned (collected st))
      end
  end.

(** [Offload.run(self, kernel, device, paramList, devParamList=None,
    kernelStdOut=None)] *)
Definition run (w : World) (self : Offload) (kernel : Kernel.Kernel) (device : string)
    (paramList : list Params.Params) (devParamList : option (list Params.Params))
    (kernelStdOut : bool) : list event * outcome :=
  match MPSSConnect w device with
  | (t, Raise e) => (t, Raised e None)
  | (t, Ok connect) =>
  match MPSSConnect w "localhost" with
  | (t', Raise e) => (t ++ t', Raised e None)
  | (t', Ok localConnect) =>
  let t := t ++ t' in
  match _validate_mpi_requirements w kernel with
  | Raise e => (t, Raised e None)
  | Ok _ =>
  let s := if _runHost self then Host else Device in
  let t := t ++ [ResolveExec s (name self)] in
  match (if _runHost self then Kernel.path_host_exec kernel (name self)
         else Kernel.path_dev_exec kernel (name self)) with
  | Raise NoExecutableError =>
      if bool_decide (Kernel.name kernel ∈ ["linpack"; "hplinpack"; "hpcg"])
      then (t, Raised (MissingDependenciesError DEP_LINPACK) None)
      else (t, Returned [])
  | Raise e => (t, Raised e None)
  | Ok None => (t, Returned [])
  | Ok (Some execPath) =>
  if negb (path_exists w execPath) then (t, Returned [])
  else
  let devParamList := default paramList devParamList in
  let forced :=
    if bool_decide (name self ≠ "native") && bool_decide (name self ≠ "local") then
      match get_offload_index w connect with
      | Raise e => Raise e
      | Ok devIdx =>
          match force_all devIdx (Kernel.device_param_name kernel) paramList,
                force_all devIdx (Kernel.device_param_name kernel) devParamList with
          | Ok l, Ok l' => Ok (l, l')
          | Raise e, _ | Ok _, Raise e => Raise e
          end
      end
    else Ok (paramList, devParamList) in
  match forced with
  | Raise e => (t, Raised e None)
  | Ok (paramList, devParamList) =>
      let '(t', o) := run_found w self kernel connect localConnect execPath
                        paramList devParamList kernelStdOut in
      (t ++ t', o)
  end
  end
  end
  end
  end.

End Offload.

(* ===================================================================== *)
(** * Sample objects                                                      *)
(* ===================================================================== *)

(** Concrete parameter sets, statistics, kernels and machines at which
    the theorems below are instantiated. *)
Module Sample.
Import Py.

Definition no_params : Params.Params := Params.mkParams [] ∅ ∅ [].

(** A [Stats] with one rolled-up metric. *)
Definition stat (tag : string) (v : float) : Stats.Stats :=
  Stats.mkStats no_params "run" [(tag, Stats.mkMetric v "GFlops" (Some true))].

(** A collection holding one [Stats] for kernel [dgemm] run [local]. *)
Definition collection (paramCat tag : string) (v : float) : Stats.StatsCollection :=
  Stats.mkStatsCollection paramCat tag
    [("dgemm", [("local__" +:+ tag, [stat "Computation.Avg" v])])] [] false.

(** Three named parameters, two of them given. *)
Definition three_params : Params.Params :=
  Params.mkParams ["size"; "threads"; "mode"]
    (list_to_map [("size", Some "64"); ("threads", Some "4"); ("mode", None)]) ∅ [].

(** A schema of three names with one default, and a command line for it. *)
Definition three_names : list string := ["size"; "threads"; "mode"].
Definition three_defaults : gmap string pyval := {[ "threads" := Some "4" ]}.
Definition three_tokens : list string := ["--size"; "64"; "--mode"].

(** What the constructor makes of that command line. *)
Definition three_given : Params.Params :=
  Params.mkParams three_names
    (list_to_map [("size", Some "64"); ("threads", Some "4"); ("mode", Some "")])
    three_defaults [].

(** Two names of the gemm schema, [M_size] with the default the gemm
    kernels give it, and what the constructor makes of [--i_num_rep 3]. *)
Definition gemm_names : list string := ["i_num_rep"; "M_size"].
Definition gemm_defaults : gmap string pyval := {[ "M_size" := Some "-1" ]}.
Definition gemm_given : Params.Params :=
  Params.mkParams gemm_names
    (list_to_map [("i_num_rep", Some "3"); ("M_size", Some "-1")])
    gemm_defaults [].

(** One name, bound to a value of two words. *)
Definition two_words : Params.Params :=
  Params.mkParams ["a"] {[ "a" := Some "x y" ]} ∅ [].


(** A kernel of the base class with a scaling category and no optimal
    one; nothing of it can be run. *)
Definition scaling_kernel : Kernel.Kernel :=
  Kernel.mkKernel "sample"
    (Some (list_to_map [("scaling", ["--n 1"; "--n 2"; "--n 4"]); ("test", [" "])]))
    Kernel.base_update_params
    false
    (fun _ => Raise NoExecutableError) (fun _ => Raise NoExecutableError) (fun _ => Ok [])
    "pos" (fun _ => Raise NotImplementedError) [] [] [] [] [] None false false "device"
    false (fun _ => Ok "") (fun _ => Ok []) (fun _ => Ok []) (fun _ => Ok [])
    (fun _ => Ok None).

(** A positional kernel with a host executable; [mpi] says whether it
    declares MPI required. *)
Definition host_kernel (mpi : bool) : Kernel.Kernel :=
  Kernel.mkKernel "sample" None Kernel.base_update_params
    mpi
    (fun _ => Ok (Some "/opt/bin/sample")) (fun _ => Raise NoExecutableError) (fun _ => Ok [])
    "pos" (fun _ => Raise NotImplementedError) [] [] [] ["numactl"] ["--fixed"] None
    false false "device"
    false (fun _ => Ok "") (fun _ => Ok []) (fun _ => Ok []) (fun _ => Ok [])
    (fun _ => Ok None).

(** A machine without MPI on which every file exists and every process
    ends with the exit code [rc]. *)
Definition machine (rc : Z) : Offload.World :=
  Offload.mkWorld false true false (fun _ => true) []
    (fun _ => Ok tt) (fun _ => Ok 0) (fun _ _ _ => Ok tt)
    (fun _ _ => Ok (Offload.mkProcess "" "" rc))
    (fun _ => Ok tt) (fun _ => Ok tt) (fun _ => Ok tt).

End Sample.

(* ===================================================================== *)
(** * Notions used to state the properties                                *)
(* ===================================================================== *)

(** A finite number that is not zero. *)
Definition finite_nonzero (x : float) : Prop :=
  match Prim2SF x with S754_finite _ _ _ => True | _ => False end.






(** [ext n offload] is [offload] followed by [n] times [' ext']. *)
Fixpoint ext (n : nat) (offload : string) : string :=
  match n with
  | O => offload
  | S n' => ext n' (offload +:+ " ext")
  end.

(** [otherOffload] has the base name of one of my offloads. *)
Definition collides {V} (mine : list (string * V)) (otherOffload : string) : Prop :=
  (Stats.split_offload otherOffload).1
    ∈ (fun offload => (Stats.split_offload offload).1) <$> Py.dict_keys mine.





#[global] Instance collides_dec {V} (mine : list (string * V)) (otherOffload : string)
  : Decision (collides mine otherOffload).
Proof. unfold collides. apply _. Defined.

(** [pos_list] as C4 words it: every parameter that is not quiet, with
    ['1'] for a value that is [None]. *)
Definition pos_list_as_claimed (p : Params.Params) : list string :=
  (fun pn => default "1" (Params.item p pn))
    <$> filter (fun pn => pn ∉ Params._paramQuiet p) (Params._paramNames p).

(** The error [Offload.run] raises for a host exit code that is not zero. *)
Definition host_failure (returncode : Z) (hostArgs : list string) : exn :=
  if bool_decide (returncode = 127) then MissingDependenciesError DEP_REDIST
  else CalledProcessError returncode (Py.join " " hostArgs).

(** A character that [shlex] reads as itself, and a string of such
    characters: no blank, no quote, no backslash. *)
Definition plain_char (c : ascii) : bool :=
  negb (Py.is_blank c) && negb (Py.is_quote c) && negb (Py.is_escape c).

Fixpoint plain (s : string) : bool :=
  match s with
  | EmptyString => true
  | String c s' => plain_char c && plain s'
  end.

(** The tokens that stand for a list of named values: [--name] and the
    value, an empty value giving no token. *)
Definition tokens_of (l : list (string * string)) : list string :=
  concat ((fun nv : string * string =>
             if bool_decide (nv.2 = "") then ["--" +:+ nv.1] else ["--" +:+ nv.1; nv.2])
            <$> l).

(** A named value that the option parser takes as it stands. *)
Definition accepted (vd : Params.ParamTypeValidator) (names : list string)
    (nv : string * string) : Prop :=
  nv.1 ∈ names /\ nv.1 <> "help" /\ Py.startswith nv.2 "-" = false
  /\ Params.validate_param vd nv.1 nv.2 = Ok nv.2.

(** What the closing loop of [Params.__init__] leaves under a name. *)
Definition filled (defaults d : gmap string pyval) (n : string) : option pyval :=
  match d !! n with
  | Some None => Some (default None (defaults !! n))
  | x => x
  end.


(** A string without white space, as [str.split()] understands it. *)
Fixpoint spaceless (s : string) : bool :=
  match s with
  | EmptyString => true
  | String c s' => negb (Ascii.is_space c) && spaceless s'
  end.

(** A word: not empty and without white space. *)
Definition word (s : string) : Prop := s <> "" /\ spaceless s = true.


(* ===================================================================== *)
(** * micp/common.py                                                      *)
(* ===================================================================== *)

Module Common.
Import Py.

(** [star_border(name)] *)
Definition star_border (name : string) : string :=
  let lineWidth := 80 in
  let minStars := 5 in
  let name := if bool_decide (name = "") then name else " " +:+ name +:+ " " in
  let len := Z.of_nat (String.length name) in
  if len <? lineWidth - 2 * minStars then
    let leftStars := floordiv (lineWidth - len) 2 in
    let rightStars := lineWidth - (leftStars + len) in
    times "*" leftStars +:+ name +:+ times "*" rightStars
  else times "*" minStars +:+ name +:+ times "*" minStars.

(** [class Factory]: [_classMap] is only assigned and looked up. *)
Section factory.
Context {C : Type}.

(** What [create] ends with: the class found, or [FactoryLookupError]
    after the list of registered names was printed. *)
Inductive created : Type :=
| Created (resultClass : C)
| FactoryLookupError (nameList : list string).

Definition register (classMap : gmap string C) (theName : string) (theClass : C)
  : gmap string C := <[theName := theClass]> classMap.

(** [sorted(self._classMap.keys())] *)
Definition class_names (classMap : gmap string C) : list string :=
  merge_sort String.le (elements (dom classMap)).

Definition create (classMap : gmap string C) (className : string) : created :=
  match classMap !! className with
  | Some resultClass => Created resultClass
  | None => FactoryLookupError (class_names classMap)
  end.

End factory.
Arguments created : clear implicits.

End Common.

(** [class OffloadFactory(micp_common.Factory)] *)
Module OffloadFactory.
Import Py.

Definition register (classMap : gmap string Offload.Offload) (theName : string)
    (theClass : Offload.Offload) : gmap string Offload.Offload :=
  Common.register classMap (lower theName) theClass.

(** [OffloadFactory.__init__] *)
Definition init : gmap string Offload.Offload :=
  foldl (fun m nc => register m nc.1 nc.2) ∅
    [("native", Offload.NativeOffload);
     ("scif", Offload.SCIFOffload);
     ("coi", Offload.COIOffload);
     ("myo", Offload.MYOOffload);
     ("pragma", Offload.PragmaOffload);
     ("auto", Offload.AutoOffload);
     ("local", Offload.LocalOffload)].

Definition create (classMap : gmap string Offload.Offload) (className : string)
  : Common.created Offload.Offload :=
  let className :=
    if bool_decide (lower className = "linux_native") then "native" else className in
  Common.create classMap (lower className).

End OffloadFactory.

(* ===================================================================== *)
(** * micp/kernel.py: the text of a kernel's output                       *)
(* ===================================================================== *)

Module KernelOutput.
Import Py.

(** [s.strip()] *)
Fixpoint lstrip (s : string) : string :=
  match s with
  | EmptyString => EmptyString
  | String c s' => if Ascii.is_space c then lstrip s' else s
  end.

Fixpoint rstrip (s : string) : string :=
  match s with
  | EmptyString => EmptyString
  | String c s' =>
      match rstrip s' with
      | EmptyString => if Ascii.is_space c then EmptyString else String c EmptyString
      | rest => String c rest
      end
  end.

Definition strip (s : string) : string := lstrip (rstrip s).

(** One value of the dictionary [parse_perf] returns; [value] is the
    text found in the output. *)
Record data : Type := mkData {
  value : string;
  units : string;
  rollup : bool
}.

(** The body of the loop of [Kernel.parse_perf] after [bb] was split. *)
Definition parse_block (bb : list string) : result (string * data) :=
  match bb with
  | tag :: v :: u :: rest =>
      Ok (tag, mkData v u (match rest with
                           | r :: _ => bool_decide (r = "R")
                           | [] => false
                           end))
  | _ => Raise IndexError
  end.

Fixpoint parse_blocks (blocks : list string) (res : list (string * data))
  : result (list (string * data)) :=
  match blocks with
  | [] => Ok res
  | bb :: blocks' =>
      match parse_block (split (strip bb)) with
      | Ok (tag, d) => parse_blocks blocks' (dict_set tag d res)
      | Raise e => Raise e
      end
  end.

(** [Kernel.parse_perf(self, raw)] of the base class *)
Definition parse_perf (internal_scaling : bool) (raw : string)
  : result (list (string * data)) :=
  if internal_scaling then Raise NotImplementedError
  else parse_blocks (tail (split_on "[ PERFORMANCE ]" raw)) [].

(** What [.*\n] matches at the start of [s]: the text up to the first
    newline and that newline; nothing when [s] has no newline. *)
Fixpoint through_newline (s : string) : option string :=
  match s with
  | EmptyString => None
  | String c s' =>
      if bool_decide (c = newline) then Some (String c EmptyString)
      else String c <$> through_newline s'
  end.

(** [Kernel.parse_desc(self, raw)] of the base class: the search for
    [\[ DESCRIPTION \].*\n] succeeds at the first [[ DESCRIPTION ]] if a
    newline follows it somewhere, and nowhere otherwise. *)
Definition parse_desc (raw : string) : string :=
  match find "[ DESCRIPTION ]" raw with
  | None => ""
  | Some n =>
      match through_newline (str_from (n + 15) raw) with
      | None => ""
      | Some line => str_from 16 (strip ("[ DESCRIPTION ]" +:+ line))
      end
  end.

(** [add_rollup(raw, tag)] *)
Definition add_rollup_line (tag line : string) : string :=
  match split_on "[ PERFORMANCE ] " line with
  | [w0; w1] =>
      if bool_decide (w0 = "") && startswith w1 (tag +:+ " ") && negb (endswith line " R")
      then line +:+ " R" else line
  | _ => line
  end.

Definition add_rollup (raw tag : string) : string :=
  join (String newline EmptyString)
       (add_rollup_line tag <$> split_on (String newline EmptyString) raw).

End KernelOutput.

(* ===================================================================== *)
(** * micp/stats.py: the stored collections; micp/run.py                  *)
(* ===================================================================== *)

Module StatsCollectionStore.
Import Py.

(** The test of the comprehension in [__init__]:
    [fileName[-4:] == '.pkl' and fileName[:15] == 'micp_run_stats_'] *)
Definition is_stored (fileName : string) : bool :=
  bool_decide (str_last 4 fileName = ".pkl")
  && bool_decide (str_upto 15 fileName = "micp_run_stats_").

(** [self._storedTags] after [__init__], for the directory listing
    [dirList]: [fileName[15:-4]] of the names that pass, sorted in
    descending order. *)
Definition _storedTags (dirList : list string) : list string :=
  reverse (merge_sort String.le (str_between 15 4 <$> filter (fun f => is_stored f = true) dirList)).

(** The base name of the file [get_by_tag] opens for a stored tag. *)
Definition file_of (tag : string) : string := "micp_run_stats_" +:+ tag +:+ ".pkl".

End StatsCollectionStore.

Module Run.
Import Py.

(** The base name of the file [run] pickles the collection to. *)
Definition stats_file (tag : string) : string :=
  if bool_decide (tag = "") then "micp_run_stats.pkl"
  else "micp_run_stats_" +:+ tag +:+ ".pkl".

(** The kernels [run] keeps after the check for elevated mode: [uid] is
    [os.getuid()], [sudoPath] what [find_executable("sudo")] returned and
    [sudo] the [--sudo] argument. *)
Definition runnable (uid : Z) (sudoPath : option string) (sudo : bool)
    (kernelList : list Kernel.Kernel) : list Kernel.Kernel :=
  if bool_decide (uid ≠ 0) then
    let sudoKernelList := filter (fun k => Kernel.requires_root_access k = true) kernelList in
    match sudoKernelList with
    | [] => kernelList
    | _ =>
        if bool_decide (default "" sudoPath = "") || negb sudo
        then filter (fun k => Kernel.requires_root_access k = false) kernelList
        else kernelList
    end
  else kernelList.

End Run.

(** The tag of [StatsCollection.__init__]. *)
Module StatsCollectionTag.
Import Py.

(** What [\w] matches: a letter, a digit or the underscore. *)
Definition word_char (c : ascii) : bool :=
  is_alpha c || is_digit c || bool_decide (c = "_"%char).

(** What [badChar = re.compile(r'[^\w.-]')] matches. *)
Definition badChar (c : ascii) : bool :=
  negb (word_char c || bool_decide (c = "."%char) || bool_decide (c = "-"%char)).

(** [badChar.sub('-', tag)] *)
Fixpoint sub_badChar (tag : string) : string :=
  match tag with
  | EmptyString => EmptyString
  | String c tag' => String (if badChar c then "-"%char else c) (sub_badChar tag')
  end.

(** [self.tag] at the end of [__init__].  [tag] is the argument ([None]
    by default) and [generated] the tag that is formatted from the run's
    arguments and the description of the machine when none is given
    ([not tag]: [None] or the empty string); [selfboot] is
    [is_selfboot_platform()] and [mcdram] is
    [is_processor_mcdram_available()]. *)
Definition init_tag (selfboot mcdram : bool) (generated : string) (tag : option string)
  : string :=
  let tag := match tag with
             | Some (String _ _ as given) => sub_badChar given
             | _ => sub_badChar generated
             end in
  if selfboot && mcdram then "mcdram_" +:+ tag
  else if selfboot && negb mcdram then "ddr_" +:+ tag
  else tag.

(** Whether the warning about replaced characters is written. *)
Definition warns (tag : option string) : bool :=
  match tag with
  | Some (String _ _ as given) => negb (bool_decide (sub_badChar given = given))
  | _ => false
  end.

End StatsCollectionTag.

(** A string that holds only letters, digits, [_], [.] and [-]. *)
Fixpoint safe (s : string) : bool :=
  match s with
  | EmptyString => true
  | String c s' => negb (StatsCollectionTag.badChar c) && safe s'
  end.

(* ===================================================================== *)
(** * Notions used to state the properties of a kernel's output           *)
(* ===================================================================== *)

(** A string in which the character [x] does not occur. *)
Fixpoint lacks (x : ascii) (s : string) : bool :=
  match s with
  | EmptyString => true
  | String c s' => negb (bool_decide (x = c)) && lacks x s'
  end.

(** A performance line as the kernels print it:
    [[ PERFORMANCE ] tag value units], with [ R] after it when the entry
    is rolled up. *)
Definition performance_line (e : string * KernelOutput.data) : string :=
  "[ PERFORMANCE ] " +:+ e.1 +:+ " " +:+ KernelOutput.value e.2 +:+ " "
    +:+ KernelOutput.units e.2 +:+ (if KernelOutput.rollup e.2 then " R" else "")
    +:+ String Py.newline EmptyString.

(** Output that begins with [pre] and goes on with one line per entry. *)
Definition performance_report (pre : string) (entries : list (string * KernelOutput.data))
  : string :=
  pre +:+ String.concat "" (performance_line <$> entries).

(** The same line without its newline, and output made of whole lines. *)
Definition performance_text (e : string * KernelOutput.data) : string :=
  "[ PERFORMANCE ] " +:+ e.1 +:+ " " +:+ KernelOutput.value e.2 +:+ " "
    +:+ KernelOutput.units e.2 +:+ (if KernelOutput.rollup e.2 then " R" else "").

Definition output_lines (lines : list string) : string :=
  String.concat "" ((fun l => l +:+ String Py.newline EmptyString) <$> lines).

(** The entry with [rollup] set, if its tag is [tag]. *)
Definition rolled_up_as (tag : string) (e : string * KernelOutput.data)
  : string * KernelOutput.data :=
  if bool_decide (e.1 = tag)
  then (e.1, KernelOutput.mkData (KernelOutput.value e.2) (KernelOutput.units e.2) true)
  else e.

(** An entry whose tag, value and units are words without [[]. *)
Definition printable (e : string * KernelOutput.data) : Prop :=
  (word e.1 /\ lacks "[" e.1 = true)
  /\ (word (KernelOutput.value e.2) /\ lacks "[" (KernelOutput.value e.2) = true)
  /\ (word (KernelOutput.units e.2) /\ lacks "[" (KernelOutput.units e.2) = true).

(** The line separator. *)
Definition nl : string := String Py.newline EmptyString.

(* ===================================================================== *)
(** * Notions used to state the properties of [Offload.run]               *)
(* ===================================================================== *)


(** The executable [run] looks for. *)
Definition resolved (self : Offload.Offload) (kernel : Kernel.Kernel)
  : result (option string) :=
  if Offload._runHost self then Kernel.path_host_exec kernel (Offload.name self)
  else Kernel.path_dev_exec kernel (Offload.name self).

(* ===================================================================== *)
(** * Notions used to state the properties of short options               *)
(* ===================================================================== *)

(** The short option of a name: [-] and the first character. *)
Definition flag_of (n : string) : string := "-" +:+ Py.str_upto 1 n.

(** The tokens that stand for a list of named values in the short
    form: the flag and the value, an empty value giving no token. *)
Definition flag_tokens_of (l : list (string * string)) : list string :=
  concat ((fun nv : string * string =>
             if bool_decide (nv.2 = "") then [flag_of nv.1] else [flag_of nv.1; nv.2])
            <$> l).

(** A name that its first character identifies among [names]: a letter
    other than [h] with which no other declared name begins. *)
Definition flagged (names : list string) (n : string) : Prop :=
  exists c n', n = String c n' /\ Py.is_alpha c = true /\ c <> "h"%char
               /\ filter (fun pn => Py.startswith pn (String c EmptyString) = true) names
                  = [n].

(** A named value that the option parser takes as it stands after the
    short option of the name. *)
Definition flag_accepted (vd : Params.ParamTypeValidator) (names : list string)
    (nv : string * string) : Prop :=
  flagged names nv.1 /\ Py.is_short_option nv.2 = false
  /\ Params.validate_param vd nv.1 nv.2 = Ok nv.2.

(* ===================================================================== *)
(** * Properties                                                          *)
(* ===================================================================== *)

(** ** Strings and dictionaries *)

Section strings.
Import Py.

Lemma str_app_cons (c : ascii) (a b : string) : String c a +:+ b = String c (a +:+ b).
Proof. reflexivity. Qed.

Lemma str_app_nil_l (s : string) : "" +:+ s = s.
Proof. reflexivity. Qed.

Lemma str_app_nil_r (s : string) : s +:+ "" = s.
Proof. induction s as [|c s IH]; [reflexivity|]. rewrite str_app_cons, IH. reflexivity. Qed.

Lemma str_app_assoc (a b c : string) : (a +:+ b) +:+ c = a +:+ (b +:+ c).
Proof.
  induction a as [|x a IH]; [reflexivity|]. rewrite !str_app_cons, IH. reflexivity.
Qed.

Lemma str_length_app (a b : string) :
  String.length (a +:+ b) = (String.length a + String.length b)%nat.
Proof.
  induction a as [|x a IH]; [reflexivity|]. rewrite str_app_cons. simpl. rewrite IH.
  reflexivity.
Qed.

Lemma dict_get_None {V} (k : string) (d : list (string * V)) :
  dict_get k d = None <-> k ∉ dict_keys d.
Proof.
  unfold dict_keys. induction d as [|[k' v] d IH]; simpl.
  - split; [intros _; apply not_elem_of_nil|reflexivity].
  - case_bool_decide; subst.
    + split; [discriminate|]. intros H. exfalso. apply H. left.
    + rewrite IH. split.
      * intros Hn Hin. apply elem_of_cons in Hin as [->|?]; auto.
      * intros Hn Hin. apply Hn. right. exact Hin.
Qed.


Lemma dict_set_fresh {V} (k : string) (v : V) (d : list (string * V)) :
  k ∉ dict_keys d -> dict_set k v d = d ++ [(k, v)].
Proof.
  unfold dict_keys. induction d as [|[k' v'] d IH]; simpl; intros Hk; [reflexivity|].
  case_bool_decide; subst.
  - exfalso. apply Hk. left.
  - rewrite IH; [reflexivity|]. intros Hin. apply Hk. right. exact Hin.
Qed.

End strings.

(** ** The order of binary64 numbers *)

Section float_order.
Local Open Scope float_scope.













End float_order.

(** ** [Stats.__sub__] *)

Section stats_sub.
Import Py Stats.
Local Open Scope float_scope.





Lemma sign_of_finite tag : finite_nonzero (sign_of tag).
Proof. unfold sign_of. destruct (contains "Time" tag); exact I. Qed.



End stats_sub.

(** ** [StatsCollection._relative_error_test] *)

Section regression_test.
Import Py Stats.
Local Open Scope float_scope.





End regression_test.

(** ** [StatsCollection.extend] *)

Section extend.
Import Py Stats.

Lemma ext_succ (n : nat) (offload : string) : ext (S n) offload = ext n (offload +:+ " ext").
Proof. reflexivity. Qed.











End extend.

(** ** [Params]: the positional view *)

Section params_views.
Import Py Params.

Lemma shown_filter (p : Params) :
  shown p
  = (fun pn => (pn, default "" (item p pn)))
      <$> filter (fun pn => item p pn <> None /\ pn ∉ _paramQuiet p) (_paramNames p).
Proof.
  unfold shown. generalize (_paramNames p) as names.
  induction names as [|pn names IH]; [reflexivity|].
  rewrite filter_cons. cbn [omap list_omap]. rewrite IH.
  destruct (item p pn) as [v|] eqn:Hv.
  - case_bool_decide as Hq.
    + rewrite decide_False by tauto. reflexivity.
    + rewrite decide_True by (split; [discriminate|exact Hq]).
      rewrite fmap_cons, Hv. reflexivity.
  - rewrite decide_False by tauto. reflexivity.
Qed.


(** C4 (as amended).  [pos_list] gives, in schema order, the values of
    the parameters that are neither [None] nor quiet; a parameter whose
    value is the empty string is given as ['1']; a parameter whose value
    is [None] is left out.  [pos_str] joins that list with blanks. *)
Theorem pos_list_schema_order (p : Params) :
  pos_list p
  = (fun pn => match item p pn with
               | Some v => if bool_decide (v = "") then "1" else v
               | None => "1"
               end)
      <$> filter (fun pn => item p pn <> None /\ pn ∉ _paramQuiet p) (_paramNames p)
  /\ pos_str p = join " " (pos_list p)
  /\ (forall v, v ∈ pos_list p -> v <> "")
  /\ ((forall pn, pn ∈ _paramNames p -> item p pn = None) -> pos_list p = []).
Proof.
  assert (H1 : pos_list p
    = (fun pn => match item p pn with
                 | Some v => if bool_decide (v = "") then "1" else v
                 | None => "1"
                 end)
        <$> filter (fun pn => item p pn <> None /\ pn ∉ _paramQuiet p) (_paramNames p)).
  { unfold pos_list. rewrite shown_filter, <- list_fmap_compose.
    apply list_fmap_ext. intros i pn Hi. simpl.
    apply list_elem_of_lookup_2, list_elem_of_filter in Hi as [[Hv _] _].
    destruct (item p pn); [reflexivity|congruence]. }
  split; [exact H1|]. split; [reflexivity|]. split.
  - intros v Hv. unfold pos_list in Hv. apply list_elem_of_fmap in Hv as ([pn w] & -> & _).
    simpl. case_bool_decide; [discriminate|assumption].
  - rewrite H1. generalize (_paramNames p) as names.
    induction names as [|pn names IH]; intros Hnone; [reflexivity|].
    rewrite filter_cons, decide_False.
    + apply IH. intros pn' Hin. apply Hnone. right. exact Hin.
    + intros [Hv _]. apply Hv, Hnone. left.
Qed.

(** C4 as written fails: a parameter left at [None] is not given as
    ['1'], it is left out. *)
Lemma pos_list_omits_none :
  exists p, init (RawList ["--a"; "x"]) ["a"; "b"] ∅ [] NO_VALIDATOR = Ok p
            /\ item p "b" = None
            /\ ("b" ∉ _paramQuiet p)
            /\ pos_list p = ["x"]
            /\ pos_list_as_claimed p = ["x"; "1"].
Proof.
  eexists. split; [vm_compute; reflexivity|].
  split; [reflexivity|]. split; [apply not_elem_of_nil|]. split; reflexivity.
Qed.

End params_views.

(** ** [Params.__init__]: a long option and the token after it *)

Section long_options.
Import Py Params.

(** The constructor on a token list that holds an option. *)
Lemma init_options (vname : string) (vd : ParamTypeValidator) (toks names : list string)
    (defaults : gmap string pyval) (quiet : list string) :
  ParamTypeValidatorFactory vname = Ok vd ->
  existsb (fun pp => startswith pp "--" || is_short_option pp) toks = true ->
  init (RawList toks) names defaults quiet vname
  = match parse_options vd names toks 0 (list_to_map ((fun pn => (pn, None)) <$> names)) with
    | Ok d1 => Ok (mkParams names (fill_defaults names defaults d1) defaults quiet)
    | Raise e => Raise e
    end.
Proof.
  intros Hvd Hex. unfold init. rewrite Hvd. cbn [mbind result_bind].
  rewrite Hex. reflexivity.
Qed.

Lemma long_option_name (name : string) :
  startswith ("--" +:+ name) "--" = true /\ str_from 2 ("--" +:+ name) = name.
Proof.
  split; [|reflexivity].
  unfold startswith. cbn. destruct name; reflexivity.
Qed.

Lemma long_option_step (vd : ParamTypeValidator) (names : list string)
    (name t : string) (rest : list string) (i : nat) (d : gmap string pyval) :
  name ∈ names -> name <> "help" -> startswith t "-" = true ->
  parse_options vd names (("--" +:+ name) :: t :: rest) i d
  = match validate_param vd name "" with
    | Ok val => parse_options vd names (t :: rest) (i + 1) (<[name := Some val]> d)
    | Raise e => Raise e
    end.
Proof.
  intros Hin Hhelp Hdash. destruct (long_option_name name) as [Hpre Hname].
  cbn [parse_options]. rewrite Hpre, Hname.
  rewrite bool_decide_eq_false_2 by exact Hhelp.
  rewrite bool_decide_eq_true_2 by exact Hin.
  rewrite Hdash. reflexivity.
Qed.

(** C10 (as amended).  In option mode a long option [--name] followed by
    a token that begins with [-] does not take that token: the value
    offered to the type validator is the empty string.  If the validator
    refuses the empty string, construction raises the invalid-type error;
    otherwise the empty string is recorded and the token is read as an
    option of its own, so a token such as [-1], which is neither a long
    nor a short option, raises the malformed-token error.  Either way no
    value beginning with [-] reaches a long option. *)
Theorem long_option_refuses_dash (vd : ParamTypeValidator) (names : list string)
    (name t : string) (rest : list string) (i : nat) (d : gmap string pyval) :
  name ∈ names -> name <> "help" -> startswith t "-" = true ->
  parse_options vd names (("--" +:+ name) :: t :: rest) i d
  = match validate_param vd name "" with
    | Ok val => parse_options vd names (t :: rest) (i + 1) (<[name := Some val]> d)
    | Raise e => Raise e
    end
  /\ (startswith t "--" = false -> is_short_option t = false ->
      parse_options vd names (("--" +:+ name) :: t :: rest) i d
      = match validate_param vd name "" with
        | Ok _ => Raise (UnknownParamError (MalformedToken t (i + 1)))
        | Raise e => Raise e
        end)
  /\ (forall defaults quiet,
        startswith t "--" = false -> is_short_option t = false ->
        init (RawList (("--" +:+ name) :: t :: rest)) names defaults quiet NO_VALIDATOR
        = Raise (UnknownParamError (MalformedToken t 1))).
Proof.
  intros Hin Hhelp Hdash.
  assert (Hbad : forall vd' j d', startswith t "--" = false -> is_short_option t = false ->
            parse_options vd' names (t :: rest) j d'
            = Raise (UnknownParamError (MalformedToken t j))).
  { intros vd' j d' Hlong Hshort. cbn [parse_options]. rewrite Hlong, Hshort. reflexivity. }
  split; [apply long_option_step; assumption|]. split.
  - intros Hlong Hshort. rewrite long_option_step by assumption.
    destruct (validate_param vd name ""); [apply Hbad; assumption|reflexivity].
  - intros defaults quiet Hlong Hshort.
    destruct (long_option_name name) as [Hpre _].
    rewrite (init_options NO_VALIDATOR NoParamTypeValidator) by
      (try reflexivity; cbn [existsb]; rewrite Hpre; reflexivity).
    rewrite long_option_step by assumption. cbn [validate_param].
    rewrite Hbad by assumption. reflexivity.
Qed.

(** The theorem at [--M_size -1]. *)
Lemma long_option_refuses_dash_witness :
  init (RawList ["--M_size"; "-1"]) ["M_size"] ∅ [] NO_VALIDATOR
  = Raise (UnknownParamError (MalformedToken "-1" 1)).
Proof.
  refine (proj2 (proj2 (long_option_refuses_dash NoParamTypeValidator ["M_size"]
            "M_size" "-1" [] 0 ∅ _ _ _)) ∅ [] _ _).
  - apply list_elem_of_singleton. reflexivity.
  - discriminate.
  - reflexivity.
  - reflexivity.
  - reflexivity.
Defined.

(** C10 as written fails under the gemm validator, which refuses the
    empty string: [--M_size -1] raises the invalid-type error and never
    reaches the token [-1]. *)
Lemma gemm_refuses_empty_first :
  init (RawList ["--M_size"; "-1"]) ["M_size"] ∅ [] XGEMM_VALIDATOR
  = Raise (InvalidParamTypeError "XGEMM" "M_size" "")
  /\ init (RawList ["--M_size"; "-1"]) ["M_size"] ∅ [] XGEMM_VALIDATOR
     <> Raise (UnknownParamError (MalformedToken "-1" 1)).
Proof. split; [vm_compute; reflexivity|vm_compute; discriminate]. Qed.

End long_options.

(** ** [ParamsDrop] *)

Section params_drop.
Import Py.




End params_drop.

(** ** [Kernel.category_params] *)

Section category_params.
Import Py Kernel.

(** C5.  For a kernel whose category map has [scaling] and no [optimal],
    [category_params('optimal')] is the last element of the scaling
    list, as a one-element list, passed through [_update_params] (which
    the base class leaves as it is); a category that is not in the map
    and is not [optimal] raises [NameError]. *)
Theorem optimal_falls_back_to_scaling (self : Kernel)
    (cats : gmap string (list string)) (scaling : list string) (p : string)
    (offload : option string) :
  _categoryParams self = Some cats ->
  cats !! "optimal" = None ->
  cats !! "scaling" = Some scaling ->
  last scaling = Some p ->
  category_params self "optimal" offload = Ok (_update_params self [p] offload)
  /\ (_update_params self = base_update_params ->
      category_params self "optimal" offload = Ok [p])
  /\ (forall category, category <> "optimal" -> cats !! category = None ->
      category_params self category offload
      = Raise (NameError ("Unknonwn parameter category " +:+ category))).
Proof.
  intros Hcats Hopt Hsc Hlast.
  assert (H1 : category_params self "optimal" offload = Ok (_update_params self [p] offload)).
  { unfold category_params. rewrite Hcats, Hopt, Hsc, Hlast. reflexivity. }
  split; [exact H1|]. split.
  - intros Hbase. rewrite H1, Hbase. reflexivity.
  - intros category Hne Hnone. unfold category_params. rewrite Hcats, Hnone.
    rewrite bool_decide_eq_false_2 by exact Hne. reflexivity.
Qed.

(** The theorem at a kernel with three scaling entries. *)
Lemma optimal_falls_back_to_scaling_witness :
  category_params Sample.scaling_kernel "optimal" None = Ok ["--n 4"].
Proof.
  refine (proj1 (proj2 (optimal_falls_back_to_scaling Sample.scaling_kernel
            (list_to_map [("scaling", ["--n 1"; "--n 2"; "--n 4"]); ("test", [" "])])
            ["--n 1"; "--n 2"; "--n 4"] "--n 4" None _ _ _ _)) _);
    reflexivity.
Defined.

End category_params.

(** ** [Offload.run] *)

Section offload_run.
Import Py Offload.

Lemma localhost_is_local : "localhost" ∈ LOCAL_HOST_ID.
Proof. unfold LOCAL_HOST_ID. apply elem_of_cons. right. apply elem_of_cons. left. reflexivity. Qed.



(** After the host process was awaited, its exit code decides. *)
Lemma await_classifies (w : World) (kernel : Kernel.Kernel) (self : Offload)
    (dev : option (string * process)) (hostArgs : list string) (hostProc : process) :
  match dev with Some (_, devProc) => returncode devProc = 0 | None => True end ->
  returncode hostProc <> 0 ->
  (await w kernel self dev (Some (hostArgs, hostProc)) false).2
  = Raise (host_failure (returncode hostProc) hostArgs).
Proof.
  intros Hdev Hrc. unfold await, host_failure.
  destruct dev as [[devArgs devProc]|].
  - cbn. rewrite bool_decide_eq_false_2 by (intros H; apply H; exact Hdev). cbn.
    case_bool_decide; [reflexivity|]. rewrite bool_decide_eq_true_2 by exact Hrc. reflexivity.
  - cbn. case_bool_decide; [reflexivity|].
    rewrite bool_decide_eq_true_2 by exact Hrc. reflexivity.
Qed.

(** C9.  Once the host process has been awaited (the device process, if
    any, having ended with exit code 0), an exit code of 127 raises the
    missing-dependency error for the redistributable libraries, and any
    other exit code that is not zero raises [CalledProcessError] with
    that code and the whole command line, joined with blanks.  For a
    positional kernel run on the host alone this is what [run] itself
    raises, with the empty partial result attached, after launching and
    awaiting that one process. *)
Theorem host_exit_code_classified (w : World) (kernel : Kernel.Kernel) (device : string)
    (hostParam : Params.Params) (rest : list Params.Params) (execPath : string)
    (hostProc : process) :
  let argv := Kernel.get_process_modifiers kernel
              ++ (execPath :: Params.pos_list hostParam)
              ++ Kernel.get_fixed_args kernel in
  let hostArgs := if Kernel.requires_root_access kernel then "sudo" :: argv else argv in
  (device ∈ LOCAL_HOST_ID \/ remote_connect w device = Ok tt) ->
  (Kernel.is_mpi_required kernel = false \/ is_mpi_available w = true) ->
  Kernel.path_host_exec kernel "local" = Ok (Some execPath) ->
  path_exists w execPath = true ->
  Kernel.param_type kernel = "pos" ->
  Kernel.param_for_env kernel = [] ->
  Popen w Local (Argv hostArgs) = Ok hostProc ->
  returncode hostProc <> 0 ->
  run w LocalOffload kernel device (hostParam :: rest) None false
  = ([Connect device; Connect "localhost"; ResolveExec Host "local";
      Launch Host (Argv hostArgs)
        (env_update (os_environ w) (Kernel.environment_host kernel));
      Await Host],
     Raised (host_failure (returncode hostProc) hostArgs) (Some []))
  /\ (returncode hostProc = 127 ->
      host_failure (returncode hostProc) hostArgs = MissingDependenciesError DEP_REDIST)
  /\ (returncode hostProc <> 127 ->
      host_failure (returncode hostProc) hostArgs
      = CalledProcessError (returncode hostProc) (join " " hostArgs))
  /\ (forall self dev args proc,
        match dev with Some (_, devProc) => returncode devProc = 0 | None => True end ->
        returncode proc <> 0 ->
        (await w kernel self dev (Some (args, proc)) false).2
        = Raise (host_failure (returncode proc) args)).
Proof.
  intros argv hostArgs Hconn Hmpi Hexec Hexists Hty Henv Hpopen Hrc.
  split; [|split; [|split]].
  - assert (Hcon : exists c, MPSSConnect w device = ([Connect device], Ok c)).
    { unfold MPSSConnect. cbn. destruct Hconn as [Hl|Hr].
      - rewrite bool_decide_eq_true_2 by exact Hl. eauto.
      - case_bool_decide; [eauto|]. rewrite Hr. eauto. }
    destruct Hcon as [c Hc].
    assert (Hloc : MPSSConnect w "localhost" = ([Connect "localhost"], Ok Local)).
    { unfold MPSSConnect. cbn.
      rewrite bool_decide_eq_true_2 by exact localhost_is_local. reflexivity. }
    assert (Hval : _validate_mpi_requirements w kernel = Ok tt).
    { unfold _validate_mpi_requirements. destruct Hmpi as [-> | ->]; [reflexivity|].
      rewrite andb_false_r. reflexivity. }
    assert (Hround : round w kernel LocalOffload c Local execPath false hostParam hostParam
                       (FileList [])
              = ([Launch Host (Argv hostArgs)
                    (env_update (os_environ w) (Kernel.environment_host kernel));
                  Await Host],
                 (FileList [], Raise (host_failure (returncode hostProc) hostArgs)))).
    { unfold round, launch_host. cbn [_runDev _runHost LocalOffload].
      rewrite Hty, Henv. cbn [bool_decide decide_rel host_env].
      rewrite (bool_decide_eq_false_2 ("pos" = "value")) by discriminate.
      rewrite (bool_decide_eq_false_2 ("pos" = "flag")) by discriminate.
      rewrite (bool_decide_eq_true_2 ("pos" = "pos")) by reflexivity.
      unfold _run_workload. fold argv. fold hostArgs. rewrite Hpopen.
      pose proof (await_classifies w kernel LocalOffload None hostArgs hostProc I Hrc) as Ha.
      unfold await in *. cbn in Ha |- *.
      destruct (bool_decide (returncode hostProc = 127)) eqn:E127.
      - unfold host_failure. rewrite E127. reflexivity.
      - unfold host_failure. rewrite E127.
        rewrite bool_decide_eq_true_2 by exact Hrc. reflexivity. }
    unfold run. rewrite Hc, Hloc, Hval.
    cbn [_runHost _runDev name LocalOffload]. rewrite Hexec, Hexists.
    cbn [negb default].
    rewrite (bool_decide_eq_false_2 ("local" <> "local")) by (intros H; apply H; reflexivity).
    rewrite andb_false_r.
    unfold run_found. cbn [_runDev LocalOffload zip zip_with rounds devParamFile collected].
    rewrite Hround. reflexivity.
  - intros H127. unfold host_failure. rewrite bool_decide_eq_true_2 by exact H127. reflexivity.
  - intros H127. unfold host_failure. rewrite bool_decide_eq_false_2 by exact H127. reflexivity.
  - intros self dev args proc. apply await_classifies.
Qed.

(** The theorem at exit codes 127 and 2. *)
Lemma host_exit_code_classified_witness :
  (run (Sample.machine 127) LocalOffload (Sample.host_kernel false) "localhost"
     [Sample.three_params] None false).2
  = Raised (MissingDependenciesError DEP_REDIST) (Some [])
  /\ (run (Sample.machine 2) LocalOffload (Sample.host_kernel false) "localhost"
        [Sample.three_params] None false).2
     = Raised (CalledProcessError 2 "numactl /opt/bin/sample 64 4 --fixed") (Some []).
Proof.
  split.
  - rewrite (proj1 (host_exit_code_classified (Sample.machine 127) (Sample.host_kernel false)
               "localhost" Sample.three_params [] "/opt/bin/sample"
               (mkProcess "" "" 127) (or_introl localhost_is_local) (or_introl eq_refl)
               eq_refl eq_refl eq_refl eq_refl eq_refl ltac:(discriminate))).
    reflexivity.
  - rewrite (proj1 (host_exit_code_classified (Sample.machine 2) (Sample.host_kernel false)
               "localhost" Sample.three_params [] "/opt/bin/sample"
               (mkProcess "" "" 2) (or_introl localhost_is_local) (or_introl eq_refl)
               eq_refl eq_refl eq_refl eq_refl eq_refl ltac:(discriminate))).
    reflexivity.
Defined.

End offload_run.

(** ** The value grammar read back *)

Section lexer.
Import Py.

Lemma plain_app (a b : string) : plain (a +:+ b) = plain a && plain b.
Proof.
  induction a as [|c a IH]; [reflexivity|].
  rewrite str_app_cons. simpl. rewrite IH, andb_assoc. reflexivity.
Qed.

Lemma snoc_app (tok : string) (c : ascii) (s : string) :
  snoc tok c +:+ s = tok +:+ String c s.
Proof. unfold snoc. rewrite str_app_assoc. reflexivity. Qed.

(** Inside a word, plain characters are appended to it. *)
Lemma lex_word (w : string) :
  forall (tok rest : string) (quoted : bool),
    plain w = true ->
    lex LWord tok quoted (w +:+ rest) = lex LWord (tok +:+ w) quoted rest.
Proof.
  induction w as [|c w IH]; intros tok rest quoted Hw.
  - rewrite str_app_nil_l, str_app_nil_r. reflexivity.
  - simpl in Hw. apply andb_prop in Hw as [Hc Hw].
    unfold plain_char in Hc. apply andb_prop in Hc as [Hc He]. apply andb_prop in Hc as [Hb Hq].
    apply negb_true_iff in Hb, Hq, He.
    rewrite str_app_cons. cbn [lex]. rewrite Hb, Hq, He.
    rewrite IH by exact Hw. rewrite snoc_app. reflexivity.
Qed.

Lemma lex_start (w rest : string) :
  plain w = true -> w <> "" ->
  lex LBlank "" false (w +:+ rest) = lex LWord w false rest.
Proof.
  destruct w as [|c w]; [congruence|]. intros Hw _.
  simpl in Hw. apply andb_prop in Hw as [Hc Hw].
  unfold plain_char in Hc. apply andb_prop in Hc as [Hc He]. apply andb_prop in Hc as [Hb Hq].
  apply negb_true_iff in Hb, Hq, He.
  rewrite str_app_cons. cbn [lex]. rewrite Hb, Hq, He.
  rewrite lex_word by exact Hw. reflexivity.
Qed.

(** A plain word followed by a blank is one word, or none if it is empty. *)
Lemma lex_word_blank (w rest : string) :
  plain w = true ->
  lex LBlank "" false (w +:+ " " +:+ rest)
  = (if bool_decide (w = "") then lex LBlank "" false rest
     else cons w <$> lex LBlank "" false rest).
Proof.
  intros Hw. case_bool_decide as He.
  - subst. reflexivity.
  - rewrite lex_start by assumption.
    change (" " +:+ rest) with (String " "%char rest). cbn [lex].
    change (is_blank " ") with true. cbn iota.
    rewrite bool_decide_eq_false_2 by exact He. reflexivity.
Qed.

Lemma lex_word_end (w : string) :
  plain w = true ->
  lex LBlank "" false w = Ok (if bool_decide (w = "") then [] else [w]).
Proof.
  intros Hw. case_bool_decide as He.
  - subst. reflexivity.
  - rewrite <- (str_app_nil_r w) at 1. rewrite lex_start by assumption.
    cbn [lex]. rewrite bool_decide_eq_false_2 by exact He. reflexivity.
Qed.

Lemma plain_long_option (n : string) : plain n = true -> plain ("--" +:+ n) = true.
Proof. intros H. rewrite plain_app, H. reflexivity. Qed.

Lemma long_option_nonempty (n : string) : "--" +:+ n <> "".
Proof. discriminate. Qed.

Lemma item_app (n v r : string) :
  ("--" +:+ n +:+ " " +:+ v) +:+ r = ("--" +:+ n) +:+ " " +:+ (v +:+ r).
Proof. rewrite !str_app_assoc. reflexivity. Qed.

(** The lexer reads a serialized list of named plain values back as the
    tokens of that list. *)
Lemma lex_value_items (l : list (string * string)) :
  Forall (fun nv => plain nv.1 = true /\ plain nv.2 = true) l ->
  shlex_split (join " " ((fun nv => "--" +:+ nv.1 +:+ " " +:+ nv.2) <$> l))
  = Ok (tokens_of l).
Proof.
  unfold shlex_split, join, tokens_of.
  induction l as [|[n v] l IH]; intros Hl; [reflexivity|].
  apply Forall_cons in Hl as [[Hn Hv] Hl]. simpl in Hn, Hv.
  specialize (IH Hl). rewrite fmap_cons. cbn [fst snd].
  destruct l as [|nv' l'].
  - cbn [fmap list_fmap String.concat concat fst snd]. rewrite app_nil_r.
    rewrite <- (str_app_assoc "--" n).
    rewrite lex_word_blank by (apply plain_long_option; exact Hn).
    rewrite bool_decide_eq_false_2 by apply long_option_nonempty.
    rewrite lex_word_end by exact Hv.
    destruct (bool_decide (v = "")); reflexivity.
  - set (tail := (fun nv : string * string => "--" +:+ nv.1 +:+ " " +:+ nv.2) <$> nv' :: l') in *.
    assert (Htail : String.concat " " (("--" +:+ n +:+ " " +:+ v) :: tail)
                    = ("--" +:+ n +:+ " " +:+ v) +:+ " " +:+ String.concat " " tail).
    { unfold tail. rewrite fmap_cons. reflexivity. }
    rewrite Htail, item_app.
    rewrite lex_word_blank by (apply plain_long_option; exact Hn).
    rewrite bool_decide_eq_false_2 by apply long_option_nonempty.
    rewrite lex_word_blank by exact Hv.
    rewrite IH. rewrite (fmap_cons _ (n, v)). cbn [concat fst snd].
    destruct (bool_decide (v = "")); reflexivity.
Qed.

End lexer.

Section round_trip.
Import Py Params.

Lemma long_option_end (vd : ParamTypeValidator) (names : list string)
    (name : string) (i : nat) (d : gmap string pyval) :
  name ∈ names -> name <> "help" ->
  parse_options vd names ["--" +:+ name] i d
  = match validate_param vd name "" with
    | Ok val => Ok (<[name := Some val]> d)
    | Raise e => Raise e
    end.
Proof.
  intros Hin Hhelp. destruct (long_option_name name) as [Hpre Hname].
  cbn [parse_options]. rewrite Hpre, Hname.
  rewrite bool_decide_eq_false_2 by exact Hhelp.
  rewrite bool_decide_eq_true_2 by exact Hin. reflexivity.
Qed.

Lemma long_option_value (vd : ParamTypeValidator) (names : list string)
    (name v : string) (rest : list string) (i : nat) (d : gmap string pyval) :
  name ∈ names -> name <> "help" -> startswith v "-" = false ->
  parse_options vd names (("--" +:+ name) :: v :: rest) i d
  = match validate_param vd name v with
    | Ok val => parse_options vd names rest (i + 2) (<[name := Some val]> d)
    | Raise e => Raise e
    end.
Proof.
  intros Hin Hhelp Hv. destruct (long_option_name name) as [Hpre Hname].
  cbn [parse_options]. rewrite Hpre, Hname.
  rewrite bool_decide_eq_false_2 by exact Hhelp.
  rewrite bool_decide_eq_true_2 by exact Hin.
  rewrite Hv. reflexivity.
Qed.

Lemma tokens_of_cons (n v : string) (l : list (string * string)) :
  tokens_of ((n, v) :: l)
  = (if bool_decide (v = "") then ["--" +:+ n] else ["--" +:+ n; v]) ++ tokens_of l.
Proof. reflexivity. Qed.

Lemma tokens_of_head (l : list (string * string)) :
  tokens_of l = [] \/ exists n rest, tokens_of l = ("--" +:+ n) :: rest.
Proof.
  destruct l as [|[n v] l]; [left; reflexivity|right].
  rewrite tokens_of_cons. destruct (bool_decide (v = "")); simpl; eauto.
Qed.

(** The option parser on the tokens of a list of named values assigns
    them in order. *)
Lemma parse_tokens (vd : ParamTypeValidator) (names : list string)
    (l : list (string * string)) :
  Forall (accepted vd names) l ->
  forall (i : nat) (d : gmap string pyval),
    parse_options vd names (tokens_of l) i d
    = Ok (foldl (fun d nv => <[nv.1 := Some nv.2]> d) d l).
Proof.
  induction l as [|[n v] l IH]; intros Hl i d; [reflexivity|].
  apply Forall_cons in Hl as [(Hin & Hhelp & Hdash & Hval) Hl]. simpl in *.
  rewrite tokens_of_cons. case_bool_decide as Hv.
  - subst v. destruct (tokens_of_head l) as [Hnil|(n' & rest & Hcons)].
    + specialize (IH Hl (i + 1)%nat (<[n := Some ""]> d)).
      rewrite Hnil in IH |- *. cbn [app].
      rewrite long_option_end, Hval by assumption. exact IH.
    + specialize (IH Hl (i + 1)%nat (<[n := Some ""]> d)).
      rewrite Hcons in IH |- *. cbn [app].
      rewrite long_option_step, Hval; [exact IH|assumption..|reflexivity].
  - cbn [app]. rewrite long_option_value, Hval by assumption. apply IH. exact Hl.
Qed.

Lemma foldl_assign_other (l : list (string * string)) :
  forall (d : gmap string pyval) (n : string),
    n ∉ l.*1 -> foldl (fun d nv => <[nv.1 := Some nv.2]> d) d l !! n = d !! n.
Proof.
  induction l as [|[n0 v0] l IH]; intros d n Hn; [reflexivity|].
  rewrite fmap_cons, not_elem_of_cons in Hn. destruct Hn as [Hne Hn].
  simpl in *. rewrite IH by exact Hn. apply lookup_insert_ne.
  intros Heq. apply Hne. symmetry. exact Heq.
Qed.

Lemma foldl_assign_same (l : list (string * string)) :
  forall (d : gmap string pyval) (n v : string),
    (forall v', (n, v') ∈ l -> v' = v) -> (n, v) ∈ l ->
    foldl (fun d nv => <[nv.1 := Some nv.2]> d) d l !! n = Some (Some v).
Proof.
  induction l as [|[n0 v0] l IH]; intros d n v Hfun Hin; [inversion Hin|].
  simpl. destruct (decide (n ∈ l.*1)) as [Hl|Hl].
  - apply list_elem_of_fmap in Hl as ([n' v'] & Heq & Hl). simpl in Heq. subst n'.
    assert (v' = v) as -> by (apply Hfun; right; exact Hl).
    apply IH; [|exact Hl]. intros v'' H. apply Hfun. right. exact H.
  - rewrite foldl_assign_other by exact Hl.
    apply elem_of_cons in Hin as [Heq|Hin].
    + injection Heq as -> ->. apply lookup_insert_eq.
    + exfalso. apply Hl. apply list_elem_of_fmap. exists (n, v). auto.
Qed.

Lemma fill_defaults_lookup (names : list string) (defaults : gmap string pyval) :
  forall (d : gmap string pyval) (n : string),
    fill_defaults names defaults d !! n
    = if bool_decide (n ∈ names) then filled defaults d n else d !! n.
Proof.
  unfold fill_defaults.
  induction names as [|pp names IH]; intros d n.
  - rewrite bool_decide_eq_false_2 by apply not_elem_of_nil. reflexivity.
  - cbn [foldl]. rewrite IH.
    destruct (decide (n = pp)) as [->|Hne].
    + unfold filled. rewrite (bool_decide_eq_true_2 (pp ∈ pp :: names)) by left.
      destruct (d !! pp) as [[v|]|] eqn:Hd.
      * rewrite Hd. destruct (bool_decide (pp ∈ names)); reflexivity.
      * rewrite lookup_insert_eq.
        destruct (default None (defaults !! pp));
          destruct (bool_decide (pp ∈ names)); reflexivity.
      * rewrite Hd. destruct (bool_decide (pp ∈ names)); reflexivity.
    + match goal with
      | |- context [filled defaults ?x n] => set (d' := x)
      end.
      assert (Hsame : d' !! n = d !! n).
      { subst d'. destruct (d !! pp) as [[?|]|]; try reflexivity.
        apply lookup_insert_ne. congruence. }
      unfold filled. rewrite Hsame.
      destruct (decide (n ∈ names)) as [Hin|Hnin].
      * rewrite !bool_decide_eq_true_2 by (try right; exact Hin). reflexivity.
      * rewrite (bool_decide_eq_false_2 (n ∈ names)) by exact Hnin.
        rewrite bool_decide_eq_false_2; [reflexivity|].
        intros Hc. apply elem_of_cons in Hc as [?|?]; contradiction.
Qed.

Lemma blank_params_lookup (names : list string) (n : string) :
  (list_to_map ((fun pn => (pn, None)) <$> names) : gmap string pyval) !! n
  = if bool_decide (n ∈ names) then Some None else None.
Proof.
  induction names as [|pn names IH].
  - rewrite bool_decide_eq_false_2 by apply not_elem_of_nil. reflexivity.
  - rewrite fmap_cons. cbn [list_to_map foldr fst snd].
    destruct (decide (n = pn)) as [->|Hne].
    + rewrite lookup_insert_eq, bool_decide_eq_true_2 by left. reflexivity.
    + rewrite lookup_insert_ne by congruence. rewrite IH.
      destruct (decide (n ∈ names)) as [Hin|Hnin].
      * rewrite !bool_decide_eq_true_2 by (try right; exact Hin). reflexivity.
      * rewrite (bool_decide_eq_false_2 (n ∈ names)) by exact Hnin.
        rewrite bool_decide_eq_false_2; [reflexivity|].
        intros Hc. apply elem_of_cons in Hc as [?|?]; contradiction.
Qed.

(** Parsing only assigns: a key the dictionary has, it still has afterwards. *)
Lemma parse_positional_keeps (vd : ParamTypeValidator) (names : list string) :
  forall (toks : list string) (d d1 : gmap string pyval),
    parse_positional vd names toks d = Ok d1 ->
    forall n, is_Some (d !! n) -> is_Some (d1 !! n).
Proof.
  induction names as [|pn names IH]; intros toks d d1 Hp n Hn.
  - injection Hp as <-. exact Hn.
  - destruct toks as [|pp toks]; [injection Hp as <-; exact Hn|].
    cbn [parse_positional] in Hp.
    destruct (validate_param vd pn pp) as [v|e]; [|discriminate].
    apply (IH _ _ _ Hp). apply lookup_insert_is_Some'. right. exact Hn.
Qed.

Lemma parse_options_keeps (vd : ParamTypeValidator) (names : list string) (k : nat) :
  forall (toks : list string) (i : nat) (d d1 : gmap string pyval),
    (length toks <= k)%nat ->
    parse_options vd names toks i d = Ok d1 ->
    forall n, is_Some (d !! n) -> is_Some (d1 !! n).
Proof.
  induction k as [|k IH]; intros toks i d d1 Hlen Hp n Hn.
  - destruct toks; [|simpl in Hlen; lia]. injection Hp as <-. exact Hn.
  - destruct toks as [|t rest]; [injection Hp as <-; exact Hn|].
    cbn [parse_options] in Hp. simpl in Hlen.
    repeat (case_match; try discriminate); simplify_eq; simpl in Hlen;
      try (apply lookup_insert_is_Some'; right; exact Hn);
      (eapply IH; [|eassumption|apply lookup_insert_is_Some'; right; exact Hn];
       simpl; lia).
Qed.

(** Every declared name has a key after construction, and a value that is
    still [None] has no default to take. *)
Lemma init_declared (raw : raw_params) (names : list string)
    (defaults : gmap string pyval) (quiet : list string) (vname : string) (p : Params) :
  init raw names defaults quiet vname = Ok p ->
  _paramNames p = names /\ _defaults p = defaults /\ _paramQuiet p = quiet
  /\ forall n, n ∈ names ->
       exists x, _params p !! n = Some x
                 /\ (x = None -> default None (defaults !! n) = None).
Proof.
  unfold init. intros Hinit.
  destruct (match raw with
            | RawStr s => match shlex_split s with
                          | Ok l => Ok l
                          | Raise _ => Raise (UnknownParamError (BadQuoting s))
                          end
            | RawList l => Ok l
            end) as [toks|e]; [|discriminate].
  cbn [mbind result_bind] in Hinit.
  destruct (ParamTypeValidatorFactory vname) as [vd|e]; [|discriminate].
  cbn [mbind result_bind] in Hinit.
  set (d0 := list_to_map ((fun pn => (pn, None)) <$> names) : gmap string pyval) in Hinit.
  destruct (if negb (existsb (fun pp => startswith pp "--" || is_short_option pp) toks)
            then parse_positional vd names toks d0
            else parse_options vd names toks 0 d0) as [d1|e] eqn:Hparse; [|discriminate].
  cbn [mbind result_bind] in Hinit. injection Hinit as <-. cbn.
  repeat split. intros n Hn.
  assert (Hkey : is_Some (d1 !! n)).
  { assert (H0 : is_Some (d0 !! n)).
    { subst d0. rewrite blank_params_lookup, bool_decide_eq_true_2 by exact Hn. eauto. }
    destruct (negb _) in Hparse.
    - exact (parse_positional_keeps _ _ _ _ _ Hparse n H0).
    - exact (parse_options_keeps _ _ _ _ _ _ _ (le_n _) Hparse n H0). }
  rewrite fill_defaults_lookup, bool_decide_eq_true_2 by exact Hn. unfold filled.
  destruct Hkey as [[v|] Hv]; rewrite Hv.
  - exists (Some v). split; [reflexivity|discriminate].
  - exists (default None (defaults !! n)). split; [reflexivity|]. intros H. exact H.
Qed.

Lemma init_lexed (s : string) (toks names : list string)
    (defaults : gmap string pyval) (quiet : list string) (vname : string) :
  shlex_split s = Ok toks ->
  init (RawStr s) names defaults quiet vname = init (RawList toks) names defaults quiet vname.
Proof. intros Hs. unfold init. rewrite Hs. reflexivity. Qed.

Lemma init_no_tokens (vname : string) (vd : ParamTypeValidator) (names : list string)
    (defaults : gmap string pyval) (quiet : list string) :
  ParamTypeValidatorFactory vname = Ok vd ->
  init (RawList []) names defaults quiet vname
  = Ok (mkParams names
          (fill_defaults names defaults (list_to_map ((fun pn => (pn, None)) <$> names)))
          defaults quiet).
Proof.
  intros Hvd. unfold init. rewrite Hvd. cbn [mbind result_bind existsb negb].
  destruct names; reflexivity.
Qed.

Lemma shown_elem (p : Params) (n v : string) :
  (n, v) ∈ shown p
  <-> n ∈ _paramNames p /\ (n ∉ _paramQuiet p) /\ item p n = Some v.
Proof.
  rewrite shown_filter, list_elem_of_fmap. split.
  - intros (pn & Heq & Hin). apply list_elem_of_filter in Hin as [[Hv Hq] Hin].
    injection Heq as -> ->. split; [exact Hin|]. split; [exact Hq|].
    destruct (item p pn); [reflexivity|contradiction].
  - intros (Hin & Hq & Hv). exists n. rewrite Hv. split; [reflexivity|].
    apply list_elem_of_filter. rewrite Hv. split; [split; [discriminate|exact Hq]|exact Hin].
Qed.

End round_trip.

(** C7 (as amended).  Let [p1] be constructed under a schema that does not
    declare [help] and whose names hold no blank, quote or backslash, and
    let every value that [value_str] writes (the value, not [None], of a
    name that is not quiet, given or taken from the defaults) hold no
    blank, quote or backslash, not begin with [-], and pass the schema's
    type validator.  Then constructing a second object from
    [value_str p1] under the same schema succeeds, every declared name
    that is not quiet has the value it has in [p1], and every quiet name
    has its default. *)
Theorem value_str_round_trip (raw : Params.raw_params) (names : list string)
    (defaults : gmap string pyval) (quiet : list string) (vname : string)
    (vd : Params.ParamTypeValidator) (p1 : Params.Params) :
  Params.ParamTypeValidatorFactory vname = Ok vd ->
  Params.init raw names defaults quiet vname = Ok p1 ->
  "help" ∉ names ->
  Forall (fun n => plain n = true) names ->
  (forall n v, n ∈ names -> n ∉ quiet -> Params.get_named p1 n = Ok (Some v) ->
     plain v = true /\ Py.startswith v "-" = false
     /\ Params.validate_param vd n v = Ok v) ->
  exists p2,
    Params.init (Params.RawStr (Params.value_str p1)) names defaults quiet vname = Ok p2
    /\ forall n, n ∈ names ->
         Params.get_named p2 n
         = if bool_decide (n ∈ quiet) then Ok (default None (defaults !! n))
           else Params.get_named p1 n.
Proof.
  intros Hvd Hinit Hhelp Hnames Hvals.
  destruct (init_declared _ _ _ _ _ _ Hinit) as (Hn1 & _ & Hq1 & Hkeys).
  assert (Hl : forall n v, (n, v) ∈ Params.shown p1
                           <-> n ∈ names /\ (n ∉ quiet) /\ Params.item p1 n = Some v).
  { intros n v. rewrite shown_elem, Hn1, Hq1. reflexivity. }
  assert (Hitem : forall n v, n ∈ names -> Params.item p1 n = Some v ->
                              Params.get_named p1 n = Ok (Some v)).
  { intros n v Hn Hv. unfold Params.get_named, Params.item in *.
    destruct (Hkeys n Hn) as (x & Hx & _). rewrite Hx in Hv |- *.
    simpl in Hv. rewrite Hv. reflexivity. }
  set (l := Params.shown p1) in *.
  assert (Hplain : Forall (fun nv => plain nv.1 = true /\ plain nv.2 = true) l).
  { apply Forall_forall. intros [n v] Hin. apply Hl in Hin as (Hn & Hq & Hv). simpl.
    split; [exact (proj1 (Forall_forall _ _) Hnames n Hn)|].
    apply (Hvals n v Hn Hq). apply Hitem; assumption. }
  assert (Hacc : Forall (accepted vd names) l).
  { apply Forall_forall. intros [n v] Hin. apply Hl in Hin as (Hn & Hq & Hv).
    destruct (Hvals n v Hn Hq (Hitem n v Hn Hv)) as (_ & Hdash & Hval).
    repeat split; simpl; try assumption. intros ->. contradiction. }
  set (d0 := list_to_map ((fun pn => (pn, None)) <$> names) : gmap string pyval).
  exists (Params.mkParams names
            (Params.fill_defaults names defaults
               (foldl (fun d nv => <[nv.1 := Some nv.2]> d) d0 l))
            defaults quiet).
  split.
  - unfold Params.value_str. fold l.
    rewrite (init_lexed _ _ _ _ _ _ (lex_value_items l Hplain)).
    destruct (tokens_of_head l) as [Hnil|(n & rest & Hcons)].
    + assert (l = []) as ->.
      { destruct l as [|[n v] l']; [reflexivity|].
        rewrite tokens_of_cons in Hnil. destruct (bool_decide (v = "")); discriminate. }
      rewrite (init_no_tokens _ _ _ _ _ Hvd). reflexivity.
    + rewrite (init_options _ _ _ _ _ _ Hvd).
      * rewrite (parse_tokens _ _ _ Hacc). reflexivity.
      * rewrite Hcons. cbn [existsb].
        rewrite (proj1 (long_option_name n)). reflexivity.
  - intros n Hn. unfold Params.get_named. cbn [Params._params].
    rewrite fill_defaults_lookup, bool_decide_eq_true_2 by exact Hn. unfold filled.
    destruct (Hkeys n Hn) as (x & Hx & Hdef).
    assert (Hix : Params.item p1 n = x) by (unfold Params.item; rewrite Hx; reflexivity).
    case_bool_decide as Hq.
    + rewrite foldl_assign_other.
      * unfold d0. rewrite blank_params_lookup, bool_decide_eq_true_2 by exact Hn.
        reflexivity.
      * intros Hin. apply list_elem_of_fmap in Hin as ([n' v] & Heq & Hin).
        simpl in Heq. subst n'. apply Hl in Hin. tauto.
    + rewrite Hx. destruct x as [v|].
      * rewrite (foldl_assign_same l d0 n v); [reflexivity| |].
        -- intros v' Hin. apply Hl in Hin as (_ & _ & Hv'). congruence.
        -- apply Hl. auto.
      * rewrite foldl_assign_other.
        -- unfold d0. rewrite blank_params_lookup, bool_decide_eq_true_2 by exact Hn.
           rewrite (Hdef eq_refl). reflexivity.
        -- intros Hin. apply list_elem_of_fmap in Hin as ([n' v] & Heq & Hin).
           simpl in Heq. subst n'. apply Hl in Hin as (_ & _ & Hv). congruence.
Qed.

(** The theorem at [--size 64 --mode] under a schema of three names, one
    of them with a default: the text written is
    [--size 64 --threads 4 --mode ] and reading it back gives the three
    values again. *)
Lemma value_str_round_trip_witness :
  Params.init (Params.RawList Sample.three_tokens) Sample.three_names
    Sample.three_defaults [] Params.NO_VALIDATOR = Ok Sample.three_given
  /\ Params.value_str Sample.three_given = "--size 64 --threads 4 --mode "
  /\ exists p2,
       Params.init (Params.RawStr (Params.value_str Sample.three_given))
         Sample.three_names Sample.three_defaults [] Params.NO_VALIDATOR = Ok p2
       /\ forall n, n ∈ Sample.three_names ->
            Params.get_named p2 n
            = if bool_decide (n ∈ ([] : list string))
              then Ok (default None (Sample.three_defaults !! n))
              else Params.get_named Sample.three_given n.
Proof.
  split; [vm_compute; reflexivity|]. split; [vm_compute; reflexivity|].
  apply (value_str_round_trip (Params.RawList Sample.three_tokens) Sample.three_names
           Sample.three_defaults [] Params.NO_VALIDATOR Params.NoParamTypeValidator
           Sample.three_given).
  - reflexivity.
  - vm_compute. reflexivity.
  - intros H. repeat (apply elem_of_cons in H as [H|H]; [discriminate H|]).
    inversion H.
  - repeat constructor.
  - intros n v Hn _ Hget.
    repeat (apply elem_of_cons in Hn as [->|Hn]);
      [vm_compute in Hget; injection Hget as <-; repeat split..|inversion Hn].
Defined.

(** C7 as written fails on the gemm schema, whose default for [M_size] is
    [-1]: constructed from [--i_num_rep 3], the object writes
    [--i_num_rep 3 --M_size -1], and reading that back offers the empty
    string as the value of [M_size], which the gemm validator refuses. *)
Lemma value_str_negative_default_not_read_back :
  Params.init (Params.RawList ["--i_num_rep"; "3"]) Sample.gemm_names
    Sample.gemm_defaults [] Params.XGEMM_VALIDATOR = Ok Sample.gemm_given
  /\ Params.value_str Sample.gemm_given = "--i_num_rep 3 --M_size -1"
  /\ Params.init (Params.RawStr (Params.value_str Sample.gemm_given)) Sample.gemm_names
       Sample.gemm_defaults [] Params.XGEMM_VALIDATOR
     = Raise (InvalidParamTypeError "XGEMM" "M_size" "").
Proof. repeat split; vm_compute; reflexivity. Qed.

(** Nor is a value of two words read back: [--a] with the value [x y] is
    written as [--a x y], where [y] is a token of its own; and without a
    validator the default [-1] is read back as the empty string followed
    by a malformed token. *)
Lemma value_str_two_words_not_read_back :
  Params.init (Params.RawList ["--a"; "x y"]) ["a"] ∅ [] Params.NO_VALIDATOR
  = Ok Sample.two_words
  /\ Params.init (Params.RawStr (Params.value_str Sample.two_words)) ["a"] ∅ []
       Params.NO_VALIDATOR
     = Raise (UnknownParamError (MalformedToken "y" 2))
  /\ Params.init (Params.RawStr (Params.value_str Sample.gemm_given)) Sample.gemm_names
       Sample.gemm_defaults [] Params.NO_VALIDATOR
     = Raise (UnknownParamError (MalformedToken "-1" 3)).
Proof. repeat split; vm_compute; reflexivity. Qed.

(** ** More of [Params]: declared names, positions, repeated options *)

Section params_more.
Import Py Params.

Lemma parse_positional_declares (vd : ParamTypeValidator) (names : list string) :
  forall (toks : list string) (d d1 : gmap string pyval),
    parse_positional vd names toks d = Ok d1 ->
    forall n, is_Some (d1 !! n) -> is_Some (d !! n) \/ n ∈ names.
Proof.
  induction names as [|pn names IH]; intros toks d d1 Hp n Hn.
  - injection Hp as <-. left. exact Hn.
  - destruct toks as [|pp toks]; [injection Hp as <-; left; exact Hn|].
    cbn [parse_positional] in Hp.
    destruct (validate_param vd pn pp) as [v|e]; [|discriminate].
    destruct (IH _ _ _ Hp n Hn) as [Hd|Hin]; [|right; right; exact Hin].
    apply lookup_insert_is_Some in Hd as [->|[_ Hd]]; [right; left|left; exact Hd].
Qed.

Lemma short_flag_declared (names : list string) (c : ascii) (thisName : string)
    (others : list string) :
  filter (fun pn => startswith pn (String c EmptyString) = true) names = thisName :: others ->
  thisName ∈ names.
Proof.
  intros Hf.
  assert (Hin : thisName ∈ filter (fun pn => startswith pn (String c EmptyString) = true) names)
    by (rewrite Hf; left).
  apply list_elem_of_filter in Hin. tauto.
Qed.

Lemma parse_options_declares (vd : ParamTypeValidator) (names : list string) (k : nat) :
  forall (toks : list string) (i : nat) (d d1 : gmap string pyval),
    (length toks <= k)%nat ->
    parse_options vd names toks i d = Ok d1 ->
    forall n, is_Some (d1 !! n) -> is_Some (d !! n) \/ n ∈ names.
Proof.
  induction k as [|k IH]; intros toks i d d1 Hlen Hp n Hn.
  - destruct toks; [|simpl in Hlen; lia]. injection Hp as <-. left. exact Hn.
  - destruct toks as [|t rest]; [injection Hp as <-; left; exact Hn|].
    cbn [parse_options] in Hp. simpl in Hlen.
    assert (Hstep : forall thisName val toks' j,
               thisName ∈ names -> (length toks' <= k)%nat ->
               parse_options vd names toks' j (<[thisName := Some val]> d) = Ok d1 ->
               is_Some (d !! n) \/ n ∈ names).
    { intros thisName val toks' j Hin Hl Hp'.
      destruct (IH _ _ _ _ Hl Hp' n Hn) as [Hd|Hd]; [|right; exact Hd].
      apply lookup_insert_is_Some in Hd as [->|[_ Hd]]; [right; exact Hin|left; exact Hd]. }
    assert (Hlast : forall thisName (val : string),
               thisName ∈ names -> <[thisName := Some val]> d = d1 ->
               is_Some (d !! n) \/ n ∈ names).
    { intros thisName val Hin <-.
      apply lookup_insert_is_Some in Hn as [->|[_ Hd]]; [right; exact Hin|left; exact Hd]. }
    repeat (case_match; try discriminate); simplify_eq;
      try match goal with
          | H : bool_decide (_ ∈ names) = true |- _ => apply bool_decide_eq_true_1 in H
          | H : filter _ names = _ :: _ |- _ => apply short_flag_declared in H
          end;
      first [ eapply Hlast; [eassumption|reflexivity]
            | eapply Hstep; [eassumption| |eassumption]; simpl in *; lia ].
Qed.

Lemma init_only_declared (raw : raw_params) (names : list string)
    (defaults : gmap string pyval) (quiet : list string) (vname : string) (p : Params) :
  init raw names defaults quiet vname = Ok p ->
  forall n, is_Some (_params p !! n) -> n ∈ names.
Proof.
  unfold init. intros Hinit n Hn.
  destruct (match raw with
            | RawStr s => match shlex_split s with
                          | Ok l => Ok l
                          | Raise _ => Raise (UnknownParamError (BadQuoting s))
                          end
            | RawList l => Ok l
            end) as [toks|e]; [|discriminate].
  cbn [mbind result_bind] in Hinit.
  destruct (ParamTypeValidatorFactory vname) as [vd|e]; [|discriminate].
  cbn [mbind result_bind] in Hinit.
  set (d0 := list_to_map ((fun pn => (pn, None)) <$> names) : gmap string pyval) in Hinit.
  destruct (if negb (existsb (fun pp => startswith pp "--" || is_short_option pp) toks)
            then parse_positional vd names toks d0
            else parse_options vd names toks 0 d0) as [d1|e] eqn:Hparse; [|discriminate].
  cbn [mbind result_bind] in Hinit. injection Hinit as <-. cbn in Hn.
  destruct (decide (n ∈ names)) as [Hin|Hnin]; [exact Hin|exfalso].
  rewrite fill_defaults_lookup, bool_decide_eq_false_2 in Hn by exact Hnin.
  assert (H0 : d0 !! n = None).
  { subst d0. rewrite blank_params_lookup, bool_decide_eq_false_2 by exact Hnin. reflexivity. }
  assert (H1 : is_Some (d0 !! n) \/ n ∈ names).
  { destruct (negb _) in Hparse.
    - exact (parse_positional_declares _ _ _ _ _ Hparse n Hn).
    - exact (parse_options_declares _ _ _ _ _ _ _ (le_n _) Hparse n Hn). }
  destruct H1 as [H1|H1]; [rewrite H0 in H1; destruct H1; discriminate|contradiction].
Qed.

(** X1.  After a construction that succeeded, [get_named] answers for
    exactly the declared names: it returns for each of them, and raises
    [NameError] for every other name. *)
Theorem get_named_exactly_declared (raw : raw_params) (names : list string)
    (defaults : gmap string pyval) (quiet : list string) (vname : string) (p : Params)
    (n : string) :
  init raw names defaults quiet vname = Ok p ->
  if bool_decide (n ∈ names) then exists v, get_named p n = Ok v
  else get_named p n = Raise (NameError "").
Proof.
  intros Hinit. unfold get_named. case_bool_decide as Hn.
  - destruct (init_declared _ _ _ _ _ _ Hinit) as (_ & _ & _ & Hkeys).
    destruct (Hkeys n Hn) as (x & -> & _). eauto.
  - destruct (_params p !! n) eqn:Hp; [|reflexivity].
    exfalso. apply Hn. apply (init_only_declared _ _ _ _ _ _ Hinit). rewrite Hp. eauto.
Qed.

Lemma get_named_exactly_declared_witness :
  (exists v, get_named Sample.three_given "mode" = Ok v)
  /\ get_named Sample.three_given "device" = Raise (NameError "").
Proof.
  split.
  - apply (get_named_exactly_declared (RawList Sample.three_tokens) Sample.three_names
             Sample.three_defaults [] NO_VALIDATOR Sample.three_given "mode").
    vm_compute. reflexivity.
  - apply (get_named_exactly_declared (RawList Sample.three_tokens) Sample.three_names
             Sample.three_defaults [] NO_VALIDATOR Sample.three_given "device").
    vm_compute. reflexivity.
Defined.

Lemma parse_positional_lookup (vd : ParamTypeValidator) (names : list string) :
  NoDup names ->
  forall (toks : list string) (d : gmap string pyval),
    (forall i n t, names !! i = Some n -> toks !! i = Some t ->
                   validate_param vd n t = Ok t) ->
    exists d1, parse_positional vd names toks d = Ok d1
      /\ (forall i n, names !! i = Some n ->
            d1 !! n = match toks !! i with Some t => Some (Some t) | None => d !! n end)
      /\ (forall n, n ∉ names -> d1 !! n = d !! n).
Proof.
  induction names as [|pn names IH]; intros Hnd toks d Hval.
  - exists d. split; [reflexivity|]. split; [intros i n Hi; discriminate|reflexivity].
  - apply NoDup_cons in Hnd as [Hpn Hnd].
    destruct toks as [|pp toks].
    + exists d. split; [reflexivity|]. split; [|reflexivity].
      intros i n _. rewrite lookup_nil. reflexivity.
    + cbn [parse_positional]. rewrite (Hval 0%nat pn pp eq_refl eq_refl).
      destruct (IH Hnd toks (<[pn := Some pp]> d)) as (d1 & Hp & Hin & Hout).
      { intros i n t Hn Ht. exact (Hval (S i) n t Hn Ht). }
      exists d1. split; [exact Hp|]. split.
      * intros [|i] n Hn.
        -- injection Hn as <-. rewrite (Hout pn Hpn). apply lookup_insert_eq.
        -- simpl in Hn |- *. rewrite (Hin i n Hn).
           destruct (toks !! i); [reflexivity|].
           apply lookup_insert_ne. intros ->. apply Hpn.
           apply list_elem_of_lookup. eauto.
      * intros n Hn. apply not_elem_of_cons in Hn as [Hne Hn].
        rewrite (Hout n Hn). apply lookup_insert_ne. congruence.
Qed.

(** X2.  Tokens none of which is a long or a short option are taken by
    position: the i-th declared name gets the i-th token; tokens beyond
    the last name are ignored, and a name beyond the last token gets its
    default, or [None] when it has none.  (The names are distinct and the
    validator accepts each token for its name.) *)
Theorem positional_by_position (vname : string) (vd : ParamTypeValidator)
    (names toks : list string) (defaults : gmap string pyval) (quiet : list string) :
  ParamTypeValidatorFactory vname = Ok vd ->
  NoDup names ->
  Forall (fun t => startswith t "--" = false /\ is_short_option t = false) toks ->
  (forall i n t, names !! i = Some n -> toks !! i = Some t ->
                 validate_param vd n t = Ok t) ->
  exists p,
    init (RawList toks) names defaults quiet vname = Ok p
    /\ forall i n, names !! i = Some n ->
         get_named p n = Ok (match toks !! i with
                             | Some t => Some t
                             | None => default None (defaults !! n)
                             end).
Proof.
  intros Hvd Hnd Htoks Hval.
  set (d0 := list_to_map ((fun pn => (pn, None)) <$> names) : gmap string pyval).
  destruct (parse_positional_lookup vd names Hnd toks d0 Hval) as (d1 & Hp & Hin & _).
  exists (mkParams names (fill_defaults names defaults d1) defaults quiet). split.
  - unfold init. rewrite Hvd. cbn [mbind result_bind].
    assert (Hex : existsb (fun pp => startswith pp "--" || is_short_option pp) toks = false).
    { clear -Htoks. induction Htoks as [|t toks [H1 H2] _ IH]; [reflexivity|].
      cbn [existsb]. rewrite H1, H2, IH. reflexivity. }
    rewrite Hex. cbn [negb]. fold d0. rewrite Hp. reflexivity.
  - intros i n Hn. unfold get_named. cbn [_params].
    assert (Hnin : n ∈ names) by (apply list_elem_of_lookup; eauto).
    rewrite fill_defaults_lookup, bool_decide_eq_true_2 by exact Hnin.
    unfold filled. rewrite (Hin i n Hn).
    destruct (toks !! i); [reflexivity|].
    unfold d0. rewrite blank_params_lookup, bool_decide_eq_true_2 by exact Hnin.
    reflexivity.
Qed.

Lemma positional_by_position_witness :
  exists p,
    init (RawList ["64"; "8"; "NN"; "extra"]) ["size"; "threads"; "mode"]
      Sample.three_defaults [] NO_VALIDATOR = Ok p
    /\ forall i n, ["size"; "threads"; "mode"] !! i = Some n ->
         get_named p n = Ok (match ["64"; "8"; "NN"; "extra"] !! i with
                             | Some t => Some t
                             | None => default None (Sample.three_defaults !! n)
                             end).
Proof.
  apply (positional_by_position NO_VALIDATOR NoParamTypeValidator).
  - reflexivity.
  - apply (bool_decide_unpack _). vm_compute. exact I.
  - repeat constructor.
  - intros i n t _ _. reflexivity.
Defined.

(** X3.  [set_named] on a declared name stores the value: [get_named]
    returns it afterwards, every other name reads as before, and the
    declared names, the defaults and the quiet names are unchanged.  On a
    name that is not declared [set_named] raises [NameError]. *)
Theorem set_named_then_get_named (p : Params) (name : string) (value : pyval) :
  if bool_decide (name ∈ _paramNames p)
  then exists p', set_named p name value = Ok p'
         /\ get_named p' name = Ok value
         /\ (forall n, n <> name -> get_named p' n = get_named p n)
         /\ _paramNames p' = _paramNames p
         /\ _defaults p' = _defaults p
         /\ _paramQuiet p' = _paramQuiet p
  else set_named p name value = Raise (NameError "").
Proof.
  unfold set_named. case_bool_decide as Hn; [|reflexivity].
  eexists. split; [reflexivity|]. unfold get_named. cbn.
  rewrite lookup_insert_eq. split; [reflexivity|]. split; [|auto].
  intros n Hne. rewrite lookup_insert_ne by congruence. reflexivity.
Qed.

Lemma long_option_dash (n : string) : startswith ("--" +:+ n) "-" = true.
Proof. reflexivity. Qed.

Lemma option_mode_long (n : string) (rest : list string) :
  existsb (fun pp => startswith pp "--" || is_short_option pp) (("--" +:+ n) :: rest) = true.
Proof. cbn [existsb]. rewrite (proj1 (long_option_name n)). reflexivity. Qed.

(** X4.  Options are not checked for repetition: when a long option is
    given more than once, every occurrence being acceptable on its own,
    construction succeeds and the name has the value of its last
    occurrence. *)
Theorem repeated_option_last_wins (vname : string) (vd : ParamTypeValidator)
    (names : list string) (defaults : gmap string pyval) (quiet : list string)
    (l1 l2 : list (string * string)) (n v : string) :
  ParamTypeValidatorFactory vname = Ok vd ->
  Forall (accepted vd names) (l1 ++ (n, v) :: l2) ->
  n ∉ l2.*1 ->
  exists p,
    init (RawList (tokens_of (l1 ++ (n, v) :: l2))) names defaults quiet vname = Ok p
    /\ get_named p n = Ok (Some v).
Proof.
  intros Hvd Hacc Hlast.
  set (l := l1 ++ (n, v) :: l2) in *.
  set (d0 := list_to_map ((fun pn => (pn, None)) <$> names) : gmap string pyval).
  exists (mkParams names
            (fill_defaults names defaults (foldl (fun d nv => <[nv.1 := Some nv.2]> d) d0 l))
            defaults quiet).
  assert (Hn : n ∈ names).
  { apply Forall_app in Hacc as [_ Hacc]. apply Forall_cons in Hacc as [(Hn & _) _].
    exact Hn. }
  split.
  - destruct (tokens_of_head l) as [Hnil|(n' & rest & Hcons)].
    + exfalso. subst l. destruct l1 as [|[n1 v1] l1].
      * simpl in Hnil. rewrite tokens_of_cons in Hnil.
        destruct (bool_decide (v = "")); discriminate.
      * simpl in Hnil. rewrite tokens_of_cons in Hnil.
        destruct (bool_decide (v1 = "")); discriminate.
    + rewrite (init_options _ _ _ _ _ _ Hvd).
      * rewrite (parse_tokens _ _ _ Hacc). reflexivity.
      * rewrite Hcons. apply option_mode_long.
  - unfold get_named. cbn [_params].
    rewrite fill_defaults_lookup, bool_decide_eq_true_2 by exact Hn. unfold filled.
    subst l. rewrite foldl_app. cbn [foldl fst snd].
    rewrite foldl_assign_other by exact Hlast.
    rewrite lookup_insert_eq. reflexivity.
Qed.

Lemma repeated_option_last_wins_witness :
  exists p,
    init (RawList ["--size"; "64"; "--size"; "128"]) ["size"] ∅ [] NO_VALIDATOR = Ok p
    /\ get_named p "size" = Ok (Some "128").
Proof.
  apply (repeated_option_last_wins NO_VALIDATOR NoParamTypeValidator ["size"] ∅ []
           [("size", "64")] [] "size" "128").
  - reflexivity.
  - repeat constructor; simpl; try discriminate; apply list_elem_of_singleton; reflexivity.
  - apply not_elem_of_nil.
Defined.

Lemma parse_tokens_then (vd : ParamTypeValidator) (names : list string)
    (t : string) (rest : list string) (l : list (string * string)) :
  Forall (accepted vd names) l ->
  startswith t "-" = true ->
  forall (i : nat) (d : gmap string pyval),
    exists j, parse_options vd names (tokens_of l ++ t :: rest) i d
              = parse_options vd names (t :: rest) j
                  (foldl (fun d nv => <[nv.1 := Some nv.2]> d) d l).
Proof.
  intros Hl Ht. induction l as [|[n v] l IH]; intros i d; [exists i; reflexivity|].
  apply Forall_cons in Hl as [(Hin & Hhelp & Hdash & Hval) Hl].
  simpl in Hin, Hhelp, Hdash, Hval.
  rewrite tokens_of_cons. case_bool_decide as Hv.
  - subst v. cbn [app].
    assert (Hnext : exists t' rest', tokens_of l ++ t :: rest = t' :: rest'
                                     /\ startswith t' "-" = true).
    { destruct (tokens_of_head l) as [->|(n' & r & ->)]; [eauto|].
      exists ("--" +:+ n'), (r ++ t :: rest). split; [reflexivity|apply long_option_dash]. }
    destruct Hnext as (t' & rest' & Heq & Ht').
    destruct (IH Hl (i + 1)%nat (<[n := Some ""]> d)) as [j Hj].
    exists j. rewrite Heq in Hj |- *.
    rewrite long_option_step, Hval by assumption. exact Hj.
  - cbn [app]. rewrite long_option_value, Hval by assumption. apply (IH Hl).
Qed.

(** X5.  A request for help wins over what precedes it: after any number
    of acceptable long options, the token [--help] or [-h] makes the
    constructor raise [MicpParamsHelpError], whatever follows. *)
Theorem help_after_options (vname : string) (vd : ParamTypeValidator)
    (names : list string) (defaults : gmap string pyval) (quiet : list string)
    (l : list (string * string)) (t : string) (rest : list string) :
  ParamTypeValidatorFactory vname = Ok vd ->
  Forall (accepted vd names) l ->
  t = "--help" \/ t = "-h" ->
  init (RawList (tokens_of l ++ t :: rest)) names defaults quiet vname
  = Raise MicpParamsHelpError.
Proof.
  intros Hvd Hacc Ht.
  assert (Hdash : startswith t "-" = true) by (destruct Ht as [-> | ->]; reflexivity).
  rewrite (init_options _ _ _ _ _ _ Hvd).
  - destruct (parse_tokens_then vd names t rest l Hacc Hdash 0%nat
                (list_to_map ((fun pn => (pn, None)) <$> names))) as [j ->].
    destruct Ht as [-> | ->]; reflexivity.
  - rewrite existsb_app. apply orb_true_iff. right.
    destruct Ht as [-> | ->]; reflexivity.
Qed.

Lemma help_after_options_witness :
  init (RawList ["--size"; "64"; "-h"; "--bogus"]) ["size"] ∅ [] NO_VALIDATOR
  = Raise MicpParamsHelpError.
Proof.
  apply (help_after_options NO_VALIDATOR NoParamTypeValidator ["size"] ∅ []
           [("size", "64")] "-h" ["--bogus"]).
  - reflexivity.
  - repeat constructor; simpl; try discriminate; apply list_elem_of_singleton; reflexivity.
  - right. reflexivity.
Defined.

Lemma short_flag_not_long (c : ascii) :
  is_alpha c = true ->
  startswith (String "-"%char (String c EmptyString)) "--" = false.
Proof.
  destruct c as [[] [] [] [] [] [] [] []]; intros H; try reflexivity; discriminate H.
Qed.

(** X6.  A short option [-c] stands for the declared name that begins
    with [c].  With exactly one such name the token after it is its value,
    even when that token begins with [-] (only another short option is
    not taken as a value); with no such name construction raises the
    unknown-flag error, and with more than one it raises [NameError]. *)
Theorem short_flag_resolution (vname : string) (vd : ParamTypeValidator)
    (names : list string) (defaults : gmap string pyval) (quiet : list string)
    (c : ascii) (v : string) :
  ParamTypeValidatorFactory vname = Ok vd ->
  is_alpha c = true ->
  c <> "h"%char ->
  is_short_option v = false ->
  let toks := [String "-"%char (String c EmptyString); v] in
  match filter (fun pn => startswith pn (String c EmptyString) = true) names with
  | [] => init (RawList toks) names defaults quiet vname
          = Raise (UnknownParamError (UnknownKernelFlag c))
  | [name] =>
      validate_param vd name v = Ok v ->
      exists p, init (RawList toks) names defaults quiet vname = Ok p
                /\ get_named p name = Ok (Some v)
  | _ => init (RawList toks) names defaults quiet vname
         = Raise (NameError "more than one parameter name starts with the same character")
  end.
Proof.
  intros Hvd Halpha Hh Hv toks.
  assert (Hinit : init (RawList toks) names defaults quiet vname
                  = match parse_options vd names toks 0
                            (list_to_map ((fun pn => (pn, None)) <$> names)) with
                    | Ok d1 => Ok (mkParams names (fill_defaults names defaults d1)
                                     defaults quiet)
                    | Raise e => Raise e
                    end).
  { apply (init_options _ _ _ _ _ _ Hvd). subst toks. cbn [existsb is_short_option].
    rewrite Halpha. cbn. rewrite orb_true_r. reflexivity. }
  rewrite Hinit. subst toks. cbn [parse_options].
  rewrite (short_flag_not_long c Halpha). cbn [is_short_option re_at_end].
  rewrite Halpha. cbn [andb]. rewrite bool_decide_eq_false_2 by exact Hh.
  destruct (filter (fun pn => startswith pn (String c EmptyString) = true) names)
    as [|name [|name' others]] eqn:Hf.
  - reflexivity.
  - intros Hval. rewrite Hv. cbn [negb]. rewrite Hval.
    eexists. split; [reflexivity|].
    unfold get_named. cbn [_params].
    rewrite fill_defaults_lookup,
      bool_decide_eq_true_2 by exact (short_flag_declared _ _ _ _ Hf).
    unfold filled. rewrite lookup_insert_eq. reflexivity.
  - reflexivity.
Qed.

Lemma short_flag_resolution_witness :
  exists p, init (RawList ["-M"; "-1"]) ["i_num_rep"; "M_size"] ∅ [] NO_VALIDATOR = Ok p
            /\ get_named p "M_size" = Ok (Some "-1").
Proof.
  apply (short_flag_resolution NO_VALIDATOR NoParamTypeValidator ["i_num_rep"; "M_size"]
           ∅ [] "M"%char "-1"); try reflexivity.
  discriminate.
Defined.

End params_more.

(** ** Splitting on white space; [ParamsPos] and [value_list] *)

Section words.
Import Py.

Lemma split_from_space (s1 : string) (c : ascii) (s2 : string) :
  Ascii.is_space c = true ->
  forall tok, split_from tok (s1 +:+ String c s2) = split_from tok s1 ++ split_from "" s2.
Proof.
  intros Hc. induction s1 as [|x s1 IH]; intros tok.
  - rewrite str_app_nil_l. cbn [split_from]. rewrite Hc.
    destruct (bool_decide (tok = "")); reflexivity.
  - rewrite str_app_cons. cbn [split_from]. destruct (Ascii.is_space x).
    + rewrite (IH ""). destruct (bool_decide (tok = "")); reflexivity.
    + apply IH.
Qed.

Lemma split_from_spaceless (s : string) :
  spaceless s = true ->
  forall tok, split_from tok s = if bool_decide (tok +:+ s = "") then [] else [tok +:+ s].
Proof.
  induction s as [|x s IH]; intros Hs tok.
  - rewrite str_app_nil_r. reflexivity.
  - simpl in Hs. apply andb_true_iff in Hs as [Hx Hs]. apply negb_true_iff in Hx.
    cbn [split_from]. rewrite Hx, (IH Hs), str_app_assoc. reflexivity.
Qed.

Lemma split_word (w : string) : word w -> split w = [w].
Proof.
  intros [Hne Hs]. unfold split. rewrite (split_from_spaceless w Hs), str_app_nil_l.
  rewrite bool_decide_eq_false_2 by exact Hne. reflexivity.
Qed.

Lemma split_join (l : list string) : split (join " " l) = concat (split <$> l).
Proof.
  unfold join. induction l as [|a [|b l] IH]; [reflexivity| |].
  - simpl. rewrite app_nil_r. reflexivity.
  - change (String.concat " " (a :: b :: l))
      with (a +:+ String " "%char (String.concat " " (b :: l))).
    unfold split in *. rewrite split_from_space by reflexivity.
    rewrite IH. reflexivity.
Qed.

Lemma split_words (ws : list string) : Forall word ws -> split (join " " ws) = ws.
Proof.
  intros Hws. rewrite split_join. induction Hws as [|w ws Hw _ IH]; [reflexivity|].
  rewrite fmap_cons. cbn [concat]. rewrite (split_word w Hw), IH. reflexivity.
Qed.

Lemma spaceless_snoc (tok : string) (c : ascii) :
  spaceless tok = true -> Ascii.is_space c = false ->
  spaceless (tok +:+ String c EmptyString) = true.
Proof.
  intros Ht Hc. induction tok as [|x tok IH]; simpl in *.
  - rewrite Hc. reflexivity.
  - apply andb_true_iff in Ht as [Hx Ht]. rewrite Hx, (IH Ht). reflexivity.
Qed.

Lemma split_from_words (s : string) :
  forall tok, spaceless tok = true -> Forall word (split_from tok s).
Proof.
  induction s as [|x s IH]; intros tok Ht; cbn [split_from].
  - case_bool_decide; [constructor|]. constructor; [split; assumption|constructor].
  - destruct (Ascii.is_space x) eqn:Hx.
    + case_bool_decide; [apply IH; reflexivity|].
      constructor; [split; assumption|apply IH; reflexivity].
    + apply IH. apply spaceless_snoc; assumption.
Qed.

(** X7.  [ParamsPos] keeps the words of a command line: a string is cut
    at white space, and writing the object with [pos_str] and reading
    that back gives the same object.  The same holds for an object made
    from a list whose elements are words (not empty, no white space). *)
Theorem ParamsPos_read_back (params : Params.raw_params) :
  match params with
  | Params.RawStr _ => True
  | Params.RawList l => Forall word l
  end ->
  ParamsPos.init (Params.RawStr (ParamsPos.pos_str (ParamsPos.init params)))
  = ParamsPos.init params.
Proof.
  intros Hp. unfold ParamsPos.pos_str.
  destruct params as [s|l]; cbn [ParamsPos.init ParamsPos._params]; f_equal.
  - apply split_words. apply split_from_words. reflexivity.
  - apply split_words. exact Hp.
Qed.

Lemma ParamsPos_read_back_witness :
  ParamsPos.init (Params.RawStr (ParamsPos.pos_str
                                   (ParamsPos.init (Params.RawStr "  4096   8 NN "))))
  = ParamsPos.init (Params.RawStr "  4096   8 NN ").
Proof. apply (ParamsPos_read_back (Params.RawStr "  4096   8 NN ")). exact I. Defined.

Lemma split_value_items (l : list (string * string)) :
  Forall (fun nv => spaceless nv.1 = true /\ spaceless nv.2 = true) l ->
  split (join " " ((fun nv => "--" +:+ nv.1 +:+ " " +:+ nv.2) <$> l)) = tokens_of l.
Proof.
  intros Hl. rewrite split_join. unfold tokens_of.
  induction Hl as [|[n v] l [Hn Hv] _ IH]; [reflexivity|].
  rewrite !fmap_cons. cbn [concat fst snd]. rewrite IH. f_equal.
  simpl in Hn, Hv. rewrite <- str_app_assoc.
  change (("--" +:+ n) +:+ " " +:+ v) with (("--" +:+ n) +:+ String " "%char v).
  unfold split. rewrite split_from_space by reflexivity.
  rewrite (split_from_spaceless ("--" +:+ n)) by exact Hn.
  rewrite (split_from_spaceless v Hv). rewrite !str_app_nil_l.
  rewrite (bool_decide_eq_false_2 ("--" +:+ n = "")) by discriminate.
  destruct (bool_decide (v = "")); reflexivity.
Qed.

(** X8.  The argument vector a host process gets for a long-form kernel
    ([value_list]) is what a POSIX shell makes of the line a device
    process gets ([value_str]): when the names and the values written
    hold no white space, quote or backslash, [shlex.split] of
    [value_str()] is [value_list()]. *)
Theorem value_list_is_lexed_value_str (p : Params.Params) :
  Forall (fun nv => (plain nv.1 = true /\ plain nv.2 = true)
                    /\ (spaceless nv.1 = true /\ spaceless nv.2 = true))
         (Params.shown p) ->
  shlex_split (Params.value_str p) = Ok (Params.value_list p).
Proof.
  intros Hl. apply Forall_and in Hl as [Hplain Hspace].
  unfold Params.value_list, Params.value_str.
  rewrite (lex_value_items _ Hplain), (split_value_items _ Hspace). reflexivity.
Qed.

Lemma value_list_is_lexed_value_str_witness :
  shlex_split (Params.value_str Sample.three_given)
  = Ok (Params.value_list Sample.three_given).
Proof.
  apply value_list_is_lexed_value_str. vm_compute. repeat constructor.
Defined.

End words.

(** ** More of [stats.py]: offload names, [append], [get_optimal_stat] *)

Section stats_more.
Import Py Stats.

Lemma str_upto_from (n : nat) (s : string) : s = str_upto n s +:+ str_from n s.
Proof.
  revert s. induction n as [|n IH]; intros [|c s]; try reflexivity.
  cbn [str_upto str_from]. rewrite str_app_cons, <- IH. reflexivity.
Qed.

Lemma str_upto_app (a b : string) : str_upto (String.length a) (a +:+ b) = a.
Proof.
  induction a as [|c a IH]; [destruct b; reflexivity|].
  rewrite str_app_cons. cbn [String.length str_upto]. rewrite IH. reflexivity.
Qed.

Lemma str_from_app (a b : string) (k : nat) :
  str_from (String.length a + k) (a +:+ b) = str_from k b.
Proof.
  induction a as [|c a IH]; [reflexivity|].
  rewrite str_app_cons. cbn [String.length Nat.add str_from]. exact IH.
Qed.

Lemma str_from_0 (s : string) : str_from 0 s = s.
Proof. destruct s; reflexivity. Qed.

Lemma prefix_nil (s : string) : String.prefix "" s = true.
Proof. destruct s; reflexivity. Qed.

Lemma prefix_cons (x y : ascii) (a s : string) :
  String.prefix (String x a) (String y s) = bool_decide (x = y) && String.prefix a s.
Proof.
  cbn [String.prefix]. destruct (Ascii.ascii_dec x y) as [->|Hne].
  - rewrite bool_decide_eq_true_2 by reflexivity. reflexivity.
  - rewrite bool_decide_eq_false_2 by exact Hne. reflexivity.
Qed.

Lemma prefix_split (sub s : string) :
  String.prefix sub s = true -> s = sub +:+ str_from (String.length sub) s.
Proof.
  revert s. induction sub as [|x sub IH]; intros s H.
  - rewrite str_app_nil_l, str_from_0. reflexivity.
  - destruct s as [|y s]; [discriminate H|].
    rewrite prefix_cons in H. apply andb_true_iff in H as [Hxy H].
    apply bool_decide_eq_true_1 in Hxy. subst y.
    rewrite str_app_cons. cbn [String.length str_from]. f_equal. apply IH. exact H.
Qed.

Lemma prefix_app (sub b : string) : String.prefix sub (sub +:+ b) = true.
Proof.
  induction sub as [|x sub IH]; [apply prefix_nil|].
  rewrite str_app_cons, prefix_cons, IH, bool_decide_eq_true_2 by reflexivity.
  reflexivity.
Qed.

Lemma find_split (sub s : string) (n : nat) :
  find sub s = Some n ->
  s = str_upto n s +:+ sub +:+ str_from (n + String.length sub) s.
Proof.
  revert n. induction s as [|c s IH]; intros n; cbn [find].
  - destruct (String.prefix sub "") eqn:Hp; [|discriminate].
    intros [= <-]. apply prefix_split in Hp. exact Hp.
  - destruct (String.prefix sub (String c s)) eqn:Hp.
    + intros [= <-]. apply prefix_split in Hp. exact Hp.
    + destruct (find sub s) as [m|] eqn:Hf; [|discriminate].
      intros [= <-]. cbn [str_upto Nat.add str_from]. rewrite str_app_cons.
      f_equal. apply IH. reflexivity.
Qed.

Lemma find_prefix (sub s : string) : String.prefix sub s = true -> find sub s = Some 0%nat.
Proof. intros H. destruct s; cbn [find]; rewrite H; reflexivity. Qed.

(** The first [__] of [off__tag] is the one written between the two,
    when [off] has none and does not end with [_]. *)
Lemma find_joined (off tag : string) :
  find "__" (off +:+ "_") = None ->
  find "__" (off +:+ "__" +:+ tag) = Some (String.length off).
Proof.
  induction off as [|c off IH]; intros Hnone.
  - rewrite str_app_nil_l. apply find_prefix, prefix_app.
  - rewrite str_app_cons in Hnone |- *. cbn [find] in Hnone |- *.
    destruct (String.prefix "__" (String c (off +:+ "_"))) eqn:Hp; [discriminate|].
    destruct (find "__" (off +:+ "_")) eqn:Hf; [discriminate|].
    assert (Hp' : String.prefix "__" (String c (off +:+ "__" +:+ tag))
                  = String.prefix "__" (String c (off +:+ "_"))).
    { rewrite !prefix_cons. f_equal.
      destruct off as [|y off]; [reflexivity|].
      rewrite !str_app_cons, !prefix_cons, !prefix_nil. reflexivity. }
    rewrite Hp', Hp, (IH eq_refl). reflexivity.
Qed.

Lemma split_offload_rejoin (off tag : string) :
  (forall offloadName,
     offloadName = match split_offload offloadName with
                   | (o, None) => o
                   | (o, Some t) => o +:+ "__" +:+ t
                   end)
  /\ (contains "__" (off +:+ "_") = false ->
      split_offload (off +:+ "__" +:+ tag) = (off, Some tag)).
Proof.
  split.
  - intros offloadName. unfold split_offload.
    destruct (find "__" offloadName) as [n|] eqn:Hf; [|reflexivity].
    apply find_split in Hf. exact Hf.
  - intros Hc. unfold contains in Hc. apply bool_decide_eq_false_1 in Hc.
    assert (Hnone : find "__" (off +:+ "_") = None).
    { destruct (find "__" (off +:+ "_")); [exfalso; apply Hc; eauto|reflexivity]. }
    unfold split_offload. rewrite (find_joined off tag Hnone).
    rewrite str_upto_app. rewrite <- str_app_assoc.
    replace (String.length off + 2)%nat
      with (String.length (off +:+ "__") + 0)%nat
      by (rewrite str_length_app; simpl; lia).
    rewrite str_from_app, str_from_0. reflexivity.
Qed.

(** X9.  [split_offload] cuts a stored offload key at its first [__]:
    joining the two parts with [__] gives the key back (a key without
    [__] has no tag and is its own first part); and the key
    [off + '__' + tag], as [append] builds it, is split into [off] and
    [tag] again, provided [off] has no [__] of its own and does not end
    with an underscore. *)
Theorem split_offload_inverse (offloadName off tag : string) :
  offloadName = match split_offload offloadName with
                | (o, None) => o
                | (o, Some t) => o +:+ "__" +:+ t
                end
  /\ (contains "__" (off +:+ "_") = false ->
      split_offload (off +:+ "__" +:+ tag) = (off, Some tag)).
Proof.
  destruct (split_offload_rejoin off tag) as [H1 H2]. split; [apply H1|exact H2].
Qed.

Lemma split_offload_inverse_witness :
  split_offload "linux_native__knl_run" = ("linux_native", Some "knl_run").
Proof.
  apply (proj2 (split_offload_inverse "" "linux_native" "knl_run")). reflexivity.
Defined.

Lemma dict_get_set_eq {V} (k : string) (v : V) (d : list (string * V)) :
  dict_get k (dict_set k v d) = Some v.
Proof.
  induction d as [|[k' v'] d IH]; simpl.
  - rewrite bool_decide_eq_true_2 by reflexivity. reflexivity.
  - case_bool_decide as Hk; simpl.
    + rewrite bool_decide_eq_true_2 by reflexivity. reflexivity.
    + rewrite bool_decide_eq_false_2 by exact Hk. exact IH.
Qed.

Lemma dict_get_set_ne {V} (k k' : string) (v : V) (d : list (string * V)) :
  k' <> k -> dict_get k' (dict_set k v d) = dict_get k' d.
Proof.
  intros Hne. induction d as [|[k0 v0] d IH]; simpl.
  - rewrite bool_decide_eq_false_2 by congruence. reflexivity.
  - case_bool_decide as Hk; simpl.
    + subst k0. rewrite !bool_decide_eq_false_2 by congruence. reflexivity.
    + case_bool_decide; [reflexivity|exact IH].
Qed.

Lemma contains_joined (a sub b : string) : contains sub (a +:+ sub +:+ b) = true.
Proof.
  unfold contains. apply bool_decide_eq_true_2.
  induction a as [|c a IH].
  - rewrite str_app_nil_l, (find_prefix _ _ (prefix_app sub b)). eauto.
  - rewrite str_app_cons. cbn [find].
    destruct (String.prefix sub (String c (a +:+ sub +:+ b))); [eauto|].
    destruct IH as [n ->]. eauto.
Qed.

(** The store that [append] leaves. *)
Lemma append_store (self self' : StatsCollection) (kernelName offloadName xName : string)
    (stats : list Stats) :
  append self kernelName offloadName xName stats = Ok self' ->
  tag self' = tag self
  /\ _store self'
     = let key := offloadName +:+ "__" +:+ tag self in
       match dict_get kernelName (_store self) with
       | Some offloads =>
           dict_set kernelName
             (dict_set key (default [] (dict_get key offloads) ++ stats) offloads)
             (_store self)
       | None => dict_set kernelName [(key, stats)] (_store self)
       end.
Proof.
  unfold append. intros H.
  destruct (dict_get kernelName (_xName self)) as [x|].
  - case_bool_decide; [|discriminate]. injection H as <-. cbn. split; [reflexivity|].
    destruct (dict_get kernelName (_store self)) as [offloads|]; [|reflexivity].
    destruct (dict_get _ offloads); reflexivity.
  - injection H as <-. cbn. split; [reflexivity|].
    destruct (dict_get kernelName (_store self)) as [offloads|]; [|reflexivity].
    destruct (dict_get _ offloads); reflexivity.
Qed.

(** X10.  [append] followed by [get_stat_list] under the full key
    [offload__tag]: the list read is the list that was stored under the
    key before (none, if the key or the kernel is new) followed by the
    statistics appended, and every other list that could be read by its
    full key still reads the same. *)
Theorem append_then_get_stat_list (self self' : StatsCollection)
    (kernelName offloadName xName : string) (stats : list Stats) :
  append self kernelName offloadName xName stats = Ok self' ->
  let key := offloadName +:+ "__" +:+ tag self in
  get_stat_list self' kernelName key
  = Ok (match get_stat_list self kernelName key with
        | Ok old => old ++ stats
        | Raise _ => stats
        end)
  /\ forall kernel' key' l,
       contains "__" key' = true ->
       (kernel', key') <> (kernelName, key) ->
       get_stat_list self kernel' key' = Ok l ->
       get_stat_list self' kernel' key' = Ok l.
Proof.
  intros Happ key. destruct (append_store _ _ _ _ _ _ Happ) as [_ Hstore].
  fold key in Hstore. cbn zeta in Hstore.
  assert (Hkey : contains "__" key = true) by apply contains_joined.
  split.
  - unfold get_stat_list. rewrite Hstore, Hkey.
    destruct (dict_get kernelName (_store self)) as [offloads|] eqn:Hk.
    + rewrite dict_get_set_eq, dict_get_set_eq.
      destruct (dict_get key offloads); reflexivity.
    + rewrite dict_get_set_eq. cbn [dict_get].
      rewrite bool_decide_eq_true_2 by reflexivity. reflexivity.
  - intros kernel' key' l Hc Hne. unfold get_stat_list. rewrite Hstore, Hc.
    destruct (decide (kernel' = kernelName)) as [->|Hk'].
    + assert (Hkey' : key' <> key) by congruence.
      destruct (dict_get kernelName (_store self)) as [offloads|] eqn:Hk; [|discriminate].
      rewrite dict_get_set_eq, dict_get_set_ne by exact Hkey'. auto.
    + destruct (dict_get kernelName (_store self)) as [offloads|] eqn:Hk;
        rewrite dict_get_set_ne by exact Hk'; auto.
Qed.

Lemma append_then_get_stat_list_witness :
  exists c,
    append (Sample.collection "optimal" "run" 1%float) "dgemm" "local" "K_size"
      [Sample.stat "Computation.Avg" 2%float] = Ok c
    /\ get_stat_list c "dgemm" "local__run"
       = Ok [Sample.stat "Computation.Avg" 1%float; Sample.stat "Computation.Avg" 2%float].
Proof.
  pose proof (append_then_get_stat_list (Sample.collection "optimal" "run" 1%float) _
                "dgemm" "local" "K_size" [Sample.stat "Computation.Avg" 2%float] eq_refl)
    as [H _].
  eexists. split; [reflexivity|exact H].
Defined.

Lemma optimal_from_member (statList : list Stats) :
  forall optimalStat s,
    optimal_from optimalStat statList = Ok s -> s = optimalStat \/ s ∈ statList.
Proof.
  induction statList as [|stat rest IH]; intros optimalStat s H; cbn [optimal_from] in H.
  - injection H as <-. left. reflexivity.
  - destruct (sub stat optimalStat true) as [[dd|]|e]; [| |discriminate].
    + apply IH in H as [->|H]; [|right; right; exact H].
      destruct (0 <? dd)%float; [right; left|left]; reflexivity.
    + apply IH in H as [->|H]; [left; reflexivity|right; right; exact H].
Qed.

(** X11.  [get_optimal_stat] picks from the list it reads: the statistic
    it returns is an element of [get_stat_list] for the same kernel and
    offload, it returns [None] exactly when that list is empty, and an
    error of [get_stat_list] is passed on. *)
Theorem get_optimal_stat_is_member (self : StatsCollection) (kernelName offloadName : string) :
  match get_optimal_stat self kernelName offloadName with
  | Ok (Some s) => exists l, get_stat_list self kernelName offloadName = Ok l /\ s ∈ l
  | Ok None => get_stat_list self kernelName offloadName = Ok []
  | Raise e => get_stat_list self kernelName offloadName = Raise e
               \/ exists l, get_stat_list self kernelName offloadName = Ok l /\ l <> []
  end.
Proof.
  unfold get_optimal_stat.
  destruct (get_stat_list self kernelName offloadName) as [[|first rest]|e].
  - reflexivity.
  - destruct (optimal_from first (first :: rest)) as [s|e] eqn:Ho; cbn.
    + exists (first :: rest). split; [reflexivity|].
      apply optimal_from_member in Ho as [->|Ho]; [left|exact Ho].
    + right. exists (first :: rest). split; [reflexivity|discriminate].
  - left. reflexivity.
Qed.

Lemma dict_get_NoDup {V} (k : string) (v : V) (d : list (string * V)) :
  NoDup (dict_keys d) -> (k, v) ∈ d -> dict_get k d = Some v.
Proof.
  unfold dict_keys. induction d as [|[k' v'] d IH]; intros Hnd Hin; [inversion Hin|].
  rewrite fmap_cons in Hnd. apply NoDup_cons in Hnd as [Hk' Hnd]. simpl.
  apply elem_of_cons in Hin as [Heq|Hin].
  - injection Heq as -> ->. rewrite bool_decide_eq_true_2 by reflexivity. reflexivity.
  - case_bool_decide as Hk; [|apply IH; assumption].
    subst k'. exfalso. apply Hk'. apply list_elem_of_fmap. exists (k, v). auto.
Qed.

Lemma sub_from_zero (ref : Stats) (tag : string) (m : metric) :
  rolled m = true -> (value m =? 0)%float = true ->
  forall (tags : list (string * metric)) (res : option float),
    (forall t m', (t, m') ∈ tags -> dict_get t (perf ref) = Some m') ->
    (tag, m) ∈ tags ->
    sub_from res tags ref true = Raise ZeroDivisionError.
Proof.
  intros Hr Hz. induction tags as [|[t m'] tags IH]; intros res Hsub Hin; [inversion Hin|].
  cbn [sub_from negb orb].
  assert (Htail : forall t0 m0, (t0, m0) ∈ tags -> dict_get t0 (perf ref) = Some m0)
    by (intros t0 m0 H0; apply Hsub; right; exact H0).
  destruct (rolled m') eqn:Hr'.
  - unfold relative_error. rewrite (Hsub t m') by left. unfold truediv.
    destruct (value m' =? 0)%float eqn:Hz'; [reflexivity|].
    apply IH; [exact Htail|].
    apply elem_of_cons in Hin as [Heq|Hin]; [|exact Hin].
    injection Heq as -> ->. rewrite Hz in Hz'. discriminate.
  - apply IH; [exact Htail|].
    apply elem_of_cons in Hin as [Heq|Hin]; [|exact Hin].
    injection Heq as -> ->. rewrite Hr in Hr'. discriminate.
Qed.

(** X12.  [get_optimal_stat] begins by comparing the first statistic of
    the list with itself, and the comparison divides by the reference
    value.  So when the first statistic has a rolled-up metric whose
    value is zero, [get_optimal_stat] raises [ZeroDivisionError], even
    for a list of one element. *)
Theorem get_optimal_stat_zero_value (self : StatsCollection)
    (kernelName offloadName : string) (first : Stats) (rest : list Stats)
    (tag : string) (m : metric) :
  get_stat_list self kernelName offloadName = Ok (first :: rest) ->
  NoDup (dict_keys (perf first)) ->
  (tag, m) ∈ perf first ->
  rolled m = true ->
  (value m =? 0)%float = true ->
  get_optimal_stat self kernelName offloadName = Raise ZeroDivisionError.
Proof.
  intros Hl Hnd Hin Hr Hz. unfold get_optimal_stat. rewrite Hl.
  cbn [optimal_from]. unfold sub.
  rewrite (sub_from_zero first tag m Hr Hz (perf first) None); [reflexivity| |exact Hin].
  intros t m' H. apply dict_get_NoDup; assumption.
Qed.

Lemma get_optimal_stat_zero_value_witness :
  get_optimal_stat (Sample.collection "optimal" "run" 0%float) "dgemm" "local__run"
  = Raise ZeroDivisionError.
Proof.
  apply (get_optimal_stat_zero_value _ _ _ (Sample.stat "Computation.Avg" 0%float) []
           "Computation.Avg" (mkMetric 0%float "GFlops" (Some true))).
  - reflexivity.
  - apply (bool_decide_unpack _). vm_compute. exact I.
  - left.
  - reflexivity.
  - reflexivity.
Defined.

End stats_more.

(** ** [micp/common.py]: borders, type checks, factories *)

Section common.
Import Py.

Lemma repeat_char_length (c : ascii) (n : nat) : String.length (repeat_char c n) = n.
Proof. induction n as [|n IH]; [reflexivity|]. simpl. rewrite IH. reflexivity. Qed.

(** X13.  [star_border] writes the name, with a blank on either side
    unless it is empty, between two runs of stars.  Each run has at least
    five stars; when the name with its blanks is shorter than 70
    characters the line is exactly 80 characters wide (the left run being
    the shorter one if the two differ), and otherwise both runs have
    exactly five stars and the line is wider than 80. *)
Theorem star_border_width (name : string) :
  let shown := if bool_decide (name = "") then name else " " +:+ name +:+ " " in
  exists l r : nat,
    Common.star_border name = repeat_char "*" l +:+ shown +:+ repeat_char "*" r
    /\ (5 <= l)%nat /\ (l <= r)%nat
    /\ if (String.length shown <? 70)%nat
       then String.length (Common.star_border name) = 80%nat /\ (r <= l + 1)%nat
       else l = 5%nat /\ r = 5%nat.
Proof.
  intros shown. unfold Common.star_border. fold shown.
  set (len := Z.of_nat (String.length shown)).
  destruct (String.length shown <? 70)%nat eqn:Hlt.
  - apply Nat.ltb_lt in Hlt.
    assert (Hz : (len <? 80 - 2 * 5) = true) by (apply Z.ltb_lt; lia).
    rewrite Hz. unfold times, floordiv.
    set (l := (80 - len) / 2).
    assert (Hl : 2 * l <= 80 - len < 2 * l + 2).
    { subst l. pose proof (Z.div_mod (80 - len) 2 ltac:(lia)).
      pose proof (Z.mod_pos_bound (80 - len) 2 ltac:(lia)). lia. }
    exists (Z.to_nat l), (Z.to_nat (80 - (l + len))).
    split; [reflexivity|]. split; [lia|]. split; [lia|]. split; [|lia].
    rewrite !str_length_app, !repeat_char_length. lia.
  - apply Nat.ltb_ge in Hlt.
    assert (Hz : (len <? 80 - 2 * 5) = false) by (apply Z.ltb_ge; lia).
    rewrite Hz. exists 5%nat, 5%nat. repeat split; lia.
Qed.

Lemma re_digits_end_digits (s : string) :
  s <> "" -> all_digits s = true -> re_digits_end s = true.
Proof.
  induction s as [|c s IH]; intros Hne Hd; [contradiction|].
  simpl in Hd. apply andb_true_iff in Hd as [Hc Hd].
  cbn [re_digits_end]. rewrite Hc. destruct s as [|c' s]; [reflexivity|].
  rewrite IH by (discriminate || exact Hd). apply orb_true_r.
Qed.

Lemma re_digits_end_newline (s : string) :
  s <> "" -> all_digits s = true ->
  re_digits_end (s +:+ String newline EmptyString) = true.
Proof.
  induction s as [|c s IH]; intros Hne Hd; [contradiction|].
  simpl in Hd. apply andb_true_iff in Hd as [Hc Hd].
  rewrite str_app_cons. cbn [re_digits_end]. rewrite Hc.
  destruct s as [|c' s]; [reflexivity|].
  rewrite IH by (discriminate || exact Hd). apply orb_true_r.
Qed.

Lemma all_digits_newline (s : string) :
  all_digits (s +:+ String newline EmptyString) = false.
Proof.
  induction s as [|c s IH]; [reflexivity|].
  rewrite str_app_cons. cbn [all_digits]. rewrite IH. apply andb_false_r.
Qed.

Lemma isdigit_first (s : string) :
  isdigit s = true -> s <> "" /\ all_digits s = true /\ re_signed_int s = re_digits_end s.
Proof.
  destruct s as [|c s]; [discriminate|]. intros H. split; [discriminate|].
  split; [exact H|]. simpl in H. apply andb_true_iff in H as [Hc _].
  unfold re_signed_int.
  destruct c as [[] [] [] [] [] [] [] []]; try reflexivity; discriminate Hc.
Qed.

(** X14.  The integer checks of the type validators.  A value that
    [unsigned_int] accepts (digits only, at least one) is accepted by
    [signed_int] too; with a minus sign in front it is accepted by
    [signed_int] and refused by [unsigned_int]; and followed by one
    newline it is still accepted by [signed_int], whose pattern ends in
    [$], while [unsigned_int] refuses it. *)
Theorem integer_checks (s : string) :
  Params.type_check_ok Params.unsigned_int s = true ->
  Params.type_check_ok Params.signed_int s = true
  /\ Params.type_check_ok Params.signed_int ("-" +:+ s) = true
  /\ Params.type_check_ok Params.unsigned_int ("-" +:+ s) = false
  /\ Params.type_check_ok Params.signed_int (s +:+ String newline EmptyString) = true
  /\ Params.type_check_ok Params.unsigned_int (s +:+ String newline EmptyString) = false.
Proof.
  cbn [Params.type_check_ok]. intros H.
  destruct (isdigit_first s H) as (Hne & Hd & Hsigned).
  split; [rewrite Hsigned; apply re_digits_end_digits; assumption|].
  split; [apply re_digits_end_digits; assumption|].
  split; [reflexivity|].
  split.
  - destruct s as [|c s]; [contradiction|].
    assert (Hc : is_digit c = true) by (simpl in Hd; apply andb_true_iff in Hd; tauto).
    pose proof (re_digits_end_newline (String c s) Hne Hd) as Hn.
    rewrite str_app_cons in Hn |- *. unfold re_signed_int.
    destruct c as [[] [] [] [] [] [] [] []]; try exact Hn; discriminate Hc.
  - destruct s as [|c s]; [contradiction|]. rewrite str_app_cons.
    unfold isdigit. rewrite <- str_app_cons. apply all_digits_newline.
Qed.

Lemma integer_checks_witness :
  Params.type_check_ok Params.signed_int "-228" = true
  /\ Params.type_check_ok Params.unsigned_int "-228" = false.
Proof.
  pose proof (integer_checks "228" eq_refl) as (_ & H1 & H2 & _).
  split; [exact H1|exact H2].
Defined.

(** X15.  [custom_type] builds its pattern as [^] + the alternatives +
    [$], where the anchors bind tighter than [|]: only the first
    alternative is tied to the start (which [re.match] does for all of
    them anyway) and only the last to the end.  So a value that merely
    begins with an alternative other than the last is accepted, whatever
    follows it. *)
Theorem custom_type_accepts_prefix (before : list string) (a next : string)
    (after : list string) (suffix : string) :
  Params.type_check_ok (Params.custom_type (before ++ a :: next :: after)) (a +:+ suffix)
  = true.
Proof.
  cbn [Params.type_check_ok].
  induction before as [|x before IH].
  - cbn [app re_alternatives]. unfold startswith. rewrite prefix_app. reflexivity.
  - change ((x :: before) ++ a :: next :: after)
      with (x :: (before ++ a :: next :: after)).
    destruct (before ++ a :: next :: after) as [|y l] eqn:Hl.
    + destruct before; discriminate Hl.
    + cbn [re_alternatives]. cbn [re_alternatives] in IH.
      destruct l as [|z l].
      * destruct before as [|? [|? ?]]; discriminate Hl.
      * rewrite IH. apply orb_true_r.
Qed.

Lemma lower_char_idempotent (c : ascii) : lower_char (lower_char c) = lower_char c.
Proof. destruct c as [[] [] [] [] [] [] [] []]; reflexivity. Qed.

Lemma lower_idempotent (s : string) : lower (lower s) = lower s.
Proof.
  induction s as [|c s IH]; [reflexivity|].
  cbn [lower]. rewrite lower_char_idempotent, IH. reflexivity.
Qed.

(** X16.  The offload factory folds names to lower case when a class
    is registered and when one is created: whatever the class map held,
    a class registered under a name is what [create] returns for that
    name, in any mix of cases -- unless the name reads [linux_native] in
    lower case, which [create] turns into [native]. *)
Theorem offload_factory_register_create (classMap : gmap string Offload.Offload)
    (theName className : string) (theClass : Offload.Offload) :
  lower className = lower theName ->
  lower theName <> "linux_native" ->
  OffloadFactory.create (OffloadFactory.register classMap theName theClass) className
  = Common.Created theClass.
Proof.
  intros Hsame Hne. unfold OffloadFactory.create, OffloadFactory.register.
  rewrite Hsame, bool_decide_eq_false_2 by exact Hne.
  unfold Common.create, Common.register. rewrite Hsame, lookup_insert_eq. reflexivity.
Qed.

Lemma offload_factory_register_create_witness :
  OffloadFactory.create (OffloadFactory.register OffloadFactory.init "Local"
                           Offload.LocalOffload) "LOCAL"
  = Common.Created Offload.LocalOffload.
Proof.
  apply offload_factory_register_create; [reflexivity|discriminate].
Defined.

(** X17.  The offload methods that can be created: [create] on the
    factory as [__init__] leaves it returns a class exactly for the names
    that read [native], [scif], [coi], [myo], [pragma], [auto], [local]
    or [linux_native] in lower case; for every other name it ends in
    [FactoryLookupError]. *)
Theorem offload_factory_names (className : string) :
  (exists c, OffloadFactory.create OffloadFactory.init className = Common.Created c)
  <-> lower className ∈ ["native"; "scif"; "coi"; "myo"; "pragma"; "auto"; "local";
                          "linux_native"].
Proof.
  assert (Hdom : forall k, is_Some (OffloadFactory.init !! k)
                           <-> k ∈ ["native"; "scif"; "coi"; "myo"; "pragma"; "auto"; "local"]).
  { intros k. rewrite <- elem_of_dom.
    assert (Hd : dom OffloadFactory.init
                 = list_to_set ["native"; "scif"; "coi"; "myo"; "pragma"; "auto"; "local"])
      by (vm_compute; reflexivity).
    rewrite Hd, elem_of_list_to_set. reflexivity. }
  unfold OffloadFactory.create, Common.create. case_bool_decide as Hl.
  - rewrite Hl. split; [intros _|intros _; eexists; reflexivity].
    do 7 (apply elem_of_cons; right). apply list_elem_of_singleton. reflexivity.
  - destruct (OffloadFactory.init !! lower className) as [c|] eqn:Hk.
    + split; [intros _|intros _; eauto].
      assert (Hin : lower className ∈ ["native"; "scif"; "coi"; "myo"; "pragma"; "auto";
                                        "local"]) by (apply Hdom; eauto).
      change ["native"; "scif"; "coi"; "myo"; "pragma"; "auto"; "local"; "linux_native"]
        with (["native"; "scif"; "coi"; "myo"; "pragma"; "auto"; "local"]
                ++ ["linux_native"]).
      apply elem_of_app. left. exact Hin.
    + split; [intros [c Hc]; discriminate Hc|].
      intros Hin. exfalso.
      change ["native"; "scif"; "coi"; "myo"; "pragma"; "auto"; "local"; "linux_native"]
        with (["native"; "scif"; "coi"; "myo"; "pragma"; "auto"; "local"]
                ++ ["linux_native"]) in Hin.
      apply elem_of_app in Hin as [Hin|Hin].
      * apply Hdom in Hin. rewrite Hk in Hin. destruct Hin; discriminate.
      * apply list_elem_of_singleton in Hin. contradiction.
Qed.

End common.

(** ** The stored collections and [run] *)

Section store.
Import Py.

Lemma str_last_app (n : nat) (a b : string) :
  (n <= String.length b)%nat -> str_last n (a +:+ b) = str_last n b.
Proof.
  intros Hn. unfold str_last. rewrite str_length_app.
  replace (String.length a + String.length b - n)%nat
    with (String.length a + (String.length b - n))%nat by lia.
  apply str_from_app.
Qed.

Lemma str_upto_length (n : nat) (s p : string) :
  str_upto n s = p -> String.length p = n -> s = p +:+ str_from n s.
Proof. intros <- _. apply str_upto_from. Qed.

Lemma stored_file_name (fileName : string) :
  StatsCollectionStore.is_stored fileName = true ->
  fileName = StatsCollectionStore.file_of (str_between 15 4 fileName).
Proof.
  unfold StatsCollectionStore.is_stored, StatsCollectionStore.file_of.
  intros H. apply andb_true_iff in H as [Hsuf Hpre].
  apply bool_decide_eq_true_1 in Hsuf, Hpre.
  pose proof (str_upto_length 15 fileName _ Hpre eq_refl) as Hf.
  set (r := str_from 15 fileName) in *.
  assert (Hlen : String.length fileName = (15 + String.length r)%nat)
    by (rewrite Hf at 1; rewrite str_length_app; reflexivity).
  assert (Hr : (4 <= String.length r)%nat /\ str_last 4 r = ".pkl").
  { rewrite Hf in Hsuf.
    destruct r as [|c1 [|c2 [|c3 [|c4 r']]]]; try discriminate Hsuf.
    split; [simpl; lia|].
    rewrite str_last_app in Hsuf by (simpl; lia). exact Hsuf. }
  destruct Hr as [Hr4 Hrs].
  unfold str_between. fold r. rewrite Hlen.
  replace (15 + String.length r - 4 - 15)%nat with (String.length r - 4)%nat by lia.
  rewrite Hf at 1. f_equal.
  rewrite (str_upto_from (String.length r - 4) r) at 1. f_equal. exact Hrs.
Qed.

Lemma file_of_stored (tag : string) :
  StatsCollectionStore.is_stored (StatsCollectionStore.file_of tag) = true
  /\ str_between 15 4 (StatsCollectionStore.file_of tag) = tag.
Proof.
  unfold StatsCollectionStore.is_stored, StatsCollectionStore.file_of. split.
  - apply andb_true_iff. split; apply bool_decide_eq_true_2.
    + rewrite str_last_app by (rewrite str_length_app; simpl; lia).
      rewrite str_last_app by (simpl; lia). reflexivity.
    + change 15%nat with (String.length "micp_run_stats_"). apply str_upto_app.
  - unfold str_between. rewrite !str_length_app.
    change (String.length "micp_run_stats_") with 15%nat.
    change (String.length ".pkl") with 4%nat.
    replace (15 + (String.length tag + 4) - 4 - 15)%nat with (String.length tag) by lia.
    change 15%nat with (String.length "micp_run_stats_" + 0)%nat at 1.
    rewrite str_from_app, str_from_0. apply str_upto_app.
Qed.

(** X18.  The tags the store lists are the tags of the files it can
    open: [tag] is among [_storedTags] for a directory listing exactly
    when the listing has the file [micp_run_stats_<tag>.pkl], the name
    [get_by_tag] opens and [run] writes for a tag that is not empty.  The
    tags are listed in descending order, and the file [run] writes when
    the tag is empty, [micp_run_stats.pkl], is never listed. *)
Theorem stored_tags_are_files (dirList : list string) (tag : string) :
  (tag ∈ StatsCollectionStore._storedTags dirList
   <-> StatsCollectionStore.file_of tag ∈ dirList)
  /\ Sorted (flip String.le) (StatsCollectionStore._storedTags dirList)
  /\ (tag <> "" -> Run.stats_file tag = StatsCollectionStore.file_of tag)
  /\ StatsCollectionStore.is_stored (Run.stats_file "") = false.
Proof.
  split; [|split; [|split]].
  - unfold StatsCollectionStore._storedTags.
    rewrite elem_of_reverse, merge_sort_Permutation, list_elem_of_fmap. split.
    + intros (f & -> & Hin). apply list_elem_of_filter in Hin as [Hs Hin].
      rewrite <- (stored_file_name f Hs). exact Hin.
    + intros Hin. exists (StatsCollectionStore.file_of tag).
      destruct (file_of_stored tag) as [Hs Ht]. split; [symmetry; exact Ht|].
      apply list_elem_of_filter. split; [exact Hs|exact Hin].
  - apply Sorted_reverse, Sorted_merge_sort. apply _.
  - intros Hne. unfold Run.stats_file. rewrite bool_decide_eq_false_2 by exact Hne.
    reflexivity.
  - reflexivity.
Qed.

Lemma filter_none_all {A} (P : A -> bool) (l : list A) :
  filter (fun k => P k = true) l = [] -> filter (fun k => P k = false) l = l.
Proof.
  induction l as [|x l IH]; [reflexivity|]. rewrite !filter_cons.
  destruct (P x) eqn:Hx.
  - rewrite decide_True by reflexivity. discriminate.
  - rewrite decide_False by discriminate. rewrite decide_True by reflexivity.
    intros H. rewrite (IH H). reflexivity.
Qed.

(** X19.  Which kernels [run] keeps.  When the process is not root, and
    [sudo] was not found or [--sudo] was not given, the kernels that
    require root access are removed and the others are kept in their
    order; in every other case the list is kept as it is. *)
Theorem runnable_without_root (uid : Z) (sudoPath : option string) (sudo : bool)
    (kernelList : list Kernel.Kernel) :
  Run.runnable uid sudoPath sudo kernelList
  = if bool_decide (uid <> 0) && (bool_decide (default "" sudoPath = "") || negb sudo)
    then filter (fun k => Kernel.requires_root_access k = false) kernelList
    else kernelList.
Proof.
  unfold Run.runnable. case_bool_decide as Huid; [|reflexivity]. cbn [andb].
  destruct (filter (fun k => Kernel.requires_root_access k = true) kernelList) eqn:Hf;
    [|reflexivity].
  rewrite (filter_none_all _ _ Hf). destruct (_ || _); reflexivity.
Qed.

End store.

(** ** The text of a kernel's output: [parse_perf] and [add_rollup] *)

Section kernel_output.
Import Py KernelOutput.

Lemma split_on_from_lacks (x : ascii) (sep' : string) (a : string) :
  lacks x a = true ->
  forall acc s,
    split_on_from (String x sep') 0 acc (a +:+ s)
    = split_on_from (String x sep') 0 (acc +:+ a) s.
Proof.
  induction a as [|c a IH]; intros Ha acc s.
  - rewrite str_app_nil_l, str_app_nil_r. reflexivity.
  - simpl in Ha. apply andb_true_iff in Ha as [Hc Ha]. apply negb_true_iff in Hc.
    rewrite str_app_cons. cbn [split_on_from]. rewrite prefix_cons, Hc. cbn [andb].
    rewrite (IH Ha). rewrite str_app_assoc. reflexivity.
Qed.

Lemma split_on_from_skip (sep a : string) :
  forall acc s, split_on_from sep (String.length a) acc (a +:+ s) = split_on_from sep 0 acc s.
Proof.
  induction a as [|c a IH]; intros acc s; [reflexivity|].
  rewrite str_app_cons. cbn [String.length split_on_from]. apply IH.
Qed.

Lemma split_on_from_sep (x : ascii) (sep' : string) (acc s : string) :
  split_on_from (String x sep') 0 acc (String x sep' +:+ s)
  = acc :: split_on_from (String x sep') 0 "" s.
Proof.
  rewrite str_app_cons. cbn [split_on_from].
  rewrite prefix_cons, prefix_app, bool_decide_eq_true_2 by reflexivity.
  cbn [andb String.length Nat.sub]. rewrite Nat.sub_0_r. f_equal.
  apply split_on_from_skip.
Qed.

Lemma split_from_rstrip (s : string) :
  forall tok, split_from tok (rstrip s) = split_from tok s.
Proof.
  induction s as [|c s IH]; intros tok; [reflexivity|].
  cbn [rstrip]. destruct (rstrip s) as [|c' r] eqn:Hr.
  - destruct (Ascii.is_space c) eqn:Hc; cbn [split_from]; rewrite Hc.
    + rewrite <- (IH ""). cbn [split_from].
      destruct (bool_decide (tok = "")); reflexivity.
    + rewrite <- IH. reflexivity.
  - cbn [split_from]. rewrite <- !IH. reflexivity.
Qed.

Lemma split_lstrip (s : string) : split (lstrip s) = split s.
Proof.
  unfold split. induction s as [|c s IH]; [reflexivity|].
  cbn [lstrip]. destruct (Ascii.is_space c) eqn:Hc; [|reflexivity].
  rewrite IH. cbn [split_from]. rewrite Hc. reflexivity.
Qed.

Lemma split_strip (s : string) : split (strip s) = split s.
Proof. unfold strip. rewrite split_lstrip. apply split_from_rstrip. Qed.

(** What follows the marker on a performance line. *)
Lemma performance_line_body (e : string * data) :
  performance_line e
  = "[ PERFORMANCE ]"
    +:+ (" " +:+ e.1 +:+ " " +:+ value e.2 +:+ " " +:+ units e.2
         +:+ (if rollup e.2 then " R" else "") +:+ String newline EmptyString).
Proof. reflexivity. Qed.

Lemma lacks_app (x : ascii) (a b : string) : lacks x (a +:+ b) = lacks x a && lacks x b.
Proof.
  induction a as [|c a IH]; [reflexivity|].
  rewrite str_app_cons. simpl. rewrite IH, andb_assoc. reflexivity.
Qed.

Lemma split_body (e : string * data) :
  printable e ->
  split (strip (" " +:+ e.1 +:+ " " +:+ value e.2 +:+ " " +:+ units e.2
                +:+ (if rollup e.2 then " R" else "") +:+ String newline EmptyString))
  = [e.1; value e.2; units e.2] ++ (if rollup e.2 then ["R"] else []).
Proof.
  intros ((Ht & _) & (Hv & _) & (Hu & _)). rewrite split_strip.
  change (" " +:+ e.1 +:+ " " +:+ value e.2 +:+ " " +:+ units e.2
          +:+ (if rollup e.2 then " R" else "") +:+ String newline EmptyString)
    with ("" +:+ String " "%char
            (e.1 +:+ String " "%char
               (value e.2 +:+ String " "%char
                  (units e.2 +:+ (if rollup e.2 then " R" else "")
                   +:+ String newline EmptyString)))).
  unfold split. rewrite !split_from_space by reflexivity.
  fold (split e.1). fold (split (value e.2)).
  rewrite (split_word _ Ht), (split_word _ Hv). cbn [split_from app].
  rewrite bool_decide_eq_true_2 by reflexivity. do 2 f_equal.
  destruct (rollup e.2).
  - change (units e.2 +:+ " R" +:+ String newline EmptyString)
      with (units e.2 +:+ String " "%char ("R" +:+ String newline EmptyString)).
    rewrite split_from_space by reflexivity. fold (split (units e.2)).
    rewrite (split_word _ Hu). reflexivity.
  - rewrite str_app_nil_l. rewrite split_from_space by reflexivity.
    fold (split (units e.2)). rewrite (split_word _ Hu). reflexivity.
Qed.

Lemma body_lacks_bracket (e : string * data) :
  printable e ->
  lacks "[" (" " +:+ e.1 +:+ " " +:+ value e.2 +:+ " " +:+ units e.2
             +:+ (if rollup e.2 then " R" else "") +:+ String newline EmptyString) = true.
Proof.
  intros ((_ & Ht) & (_ & Hv) & (_ & Hu)).
  rewrite !lacks_app, Ht, Hv, Hu. destruct (rollup e.2); reflexivity.
Qed.

Lemma split_report (entries : list (string * data)) :
  Forall printable entries ->
  forall acc,
    split_on_from "[ PERFORMANCE ]" 0 acc (String.concat "" (performance_line <$> entries))
    = acc :: ((fun e : string * data =>
                 " " +:+ e.1 +:+ " " +:+ value e.2 +:+ " " +:+ units e.2
                 +:+ (if rollup e.2 then " R" else "") +:+ String newline EmptyString)
              <$> entries).
Proof.
  induction 1 as [|e entries He _ IH]; intros acc; [reflexivity|].
  rewrite !fmap_cons.
  assert (Hc : forall (a : string) l, String.concat "" (a :: l) = a +:+ String.concat "" l).
  { intros a [|b l]; [simpl; rewrite str_app_nil_r; reflexivity|reflexivity]. }
  rewrite Hc, performance_line_body, str_app_assoc.
  rewrite split_on_from_sep. f_equal.
  rewrite (split_on_from_lacks _ _ _ (body_lacks_bracket e He)), str_app_nil_l.
  apply IH.
Qed.

Lemma parse_bodies (entries : list (string * data)) :
  Forall printable entries ->
  forall res,
    NoDup (dict_keys res ++ entries.*1) ->
    parse_blocks ((fun e : string * data =>
                     " " +:+ e.1 +:+ " " +:+ value e.2 +:+ " " +:+ units e.2
                     +:+ (if rollup e.2 then " R" else "") +:+ String newline EmptyString)
                  <$> entries) res
    = Ok (res ++ entries).
Proof.
  induction 1 as [|e entries He _ IH]; intros res Hnd.
  - rewrite app_nil_r. reflexivity.
  - rewrite fmap_cons. cbn [parse_blocks]. rewrite (split_body e He).
    assert (Hblock : parse_block ([e.1; value e.2; units e.2]
                                  ++ (if rollup e.2 then ["R"] else []))
                     = Ok (e.1, e.2)).
    { destruct e as [t [v u r]]. destruct r; reflexivity. }
    rewrite Hblock. rewrite fmap_cons in Hnd.
    assert (Hfresh : e.1 ∉ dict_keys res).
    { apply NoDup_app in Hnd as (_ & Hdis & _). intros Hin. apply (Hdis _ Hin). left. }
    rewrite (dict_set_fresh _ _ _ Hfresh), IH.
    + rewrite <- app_assoc. destruct e. reflexivity.
    + unfold dict_keys in *. rewrite fmap_app. cbn [fmap list_fmap fst].
      rewrite <- app_assoc. exact Hnd.
Qed.

(** X20.  [parse_perf] reads back what the kernels print.  For output
    that consists of any text without [[] followed by one line
    [[ PERFORMANCE ] tag value units], or [... units R], per entry, the
    tags being distinct and tag, value and units being words without
    [[], the dictionary returned has exactly these entries, [rollup]
    being true for the lines that end in [R]; with [internal_scaling()]
    the method raises [NotImplementedError]. *)
Theorem parse_perf_reads_report (pre : string) (entries : list (string * data)) :
  lacks "[" pre = true ->
  Forall printable entries ->
  NoDup entries.*1 ->
  parse_perf false (performance_report pre entries) = Ok entries
  /\ parse_perf true (performance_report pre entries) = Raise NotImplementedError.
Proof.
  intros Hpre Hp Hnd. split; [|reflexivity].
  unfold parse_perf, performance_report, split_on.
  rewrite (split_on_from_lacks _ _ _ Hpre), str_app_nil_l.
  rewrite (split_report entries Hp). cbn [tail].
  rewrite (parse_bodies entries Hp []); [reflexivity|exact Hnd].
Qed.

Lemma parse_perf_reads_report_witness :
  parse_perf false
    ("dgemm finished" +:+ String newline EmptyString
       +:+ "[ PERFORMANCE ] Computation.Avg 290.43 GFlops R" +:+ String newline EmptyString
       +:+ "[ PERFORMANCE ] Computation.Time 7.39 s" +:+ String newline EmptyString)
  = Ok [("Computation.Avg", mkData "290.43" "GFlops" true);
        ("Computation.Time", mkData "7.39" "s" false)].
Proof.
  apply (proj1 (parse_perf_reads_report ("dgemm finished" +:+ String newline EmptyString)
                  [("Computation.Avg", mkData "290.43" "GFlops" true);
                   ("Computation.Time", mkData "7.39" "s" false)]
                  eq_refl
                  ltac:(repeat constructor; discriminate)
                  ltac:(apply (bool_decide_unpack _); vm_compute; exact I))).
Defined.

Lemma lines_lack_newline (s : string) :
  forall acc, lacks newline acc = true ->
              Forall (fun l => lacks newline l = true) (split_on_from nl 0 acc s).
Proof.
  induction s as [|c s IH]; intros acc Hacc; [repeat constructor; exact Hacc|].
  unfold nl in *. cbn [split_on_from]. rewrite prefix_cons, prefix_nil, andb_true_r.
  case_bool_decide as Hc.
  - constructor; [exact Hacc|]. apply IH. reflexivity.
  - apply IH. rewrite lacks_app, Hacc. simpl.
    rewrite bool_decide_eq_false_2 by exact Hc. reflexivity.
Qed.

Lemma split_on_from_nonempty (sep s : string) :
  forall skip acc, split_on_from sep skip acc s <> [].
Proof.
  induction s as [|c s IH]; intros skip acc; [discriminate|].
  cbn [split_on_from]. destruct skip; [|apply IH].
  destruct (String.prefix sep (String c s)); [discriminate|apply IH].
Qed.

Lemma split_on_join_lines (l : list string) :
  Forall (fun x => lacks newline x = true) l ->
  forall a acc, lacks newline a = true ->
    split_on_from nl 0 acc (join nl (a :: l)) = (acc +:+ a) :: l.
Proof.
  unfold join. induction 1 as [|b l Hb _ IH]; intros a acc Ha.
  - cbn [String.concat]. rewrite <- (str_app_nil_r a) at 1.
    unfold nl. rewrite (split_on_from_lacks _ _ _ Ha). reflexivity.
  - change (String.concat nl (a :: b :: l)) with (a +:+ nl +:+ String.concat nl (b :: l)).
    unfold nl at 1 2. rewrite (split_on_from_lacks _ _ _ Ha).
    rewrite split_on_from_sep. f_equal. fold nl. rewrite (IH b "" Hb). reflexivity.
Qed.

Lemma endswith_app (a suffix : string) : endswith (a +:+ suffix) suffix = true.
Proof.
  unfold endswith. apply andb_true_iff. split.
  - apply Nat.leb_le. rewrite str_length_app. lia.
  - apply bool_decide_eq_true_2. rewrite str_last_app by lia.
    unfold str_last. rewrite Nat.sub_diag. apply str_from_0.
Qed.

Lemma add_rollup_line_cases (tag line : string) :
  add_rollup_line tag line = line
  \/ (add_rollup_line tag line = line +:+ " R" /\ endswith line " R" = false).
Proof.
  unfold add_rollup_line.
  destruct (split_on "[ PERFORMANCE ] " line) as [|w0 [|w1 [|w2 ws]]]; auto.
  destruct (endswith line " R"); [rewrite andb_false_r; auto|].
  destruct (_ && _); auto.
Qed.

Lemma add_rollup_line_rolled (tag line : string) :
  endswith line " R" = true -> add_rollup_line tag line = line.
Proof.
  intros H. destruct (add_rollup_line_cases tag line) as [Hl|[_ Hl]]; [exact Hl|].
  rewrite H in Hl. discriminate.
Qed.

Lemma add_rollup_line_twice (tag line : string) :
  add_rollup_line tag (add_rollup_line tag line) = add_rollup_line tag line.
Proof.
  destruct (add_rollup_line_cases tag line) as [Hl|[Hl _]]; rewrite Hl; [exact Hl|].
  apply add_rollup_line_rolled, endswith_app.
Qed.

Lemma add_rollup_line_lacks (tag line : string) :
  lacks newline line = true -> lacks newline (add_rollup_line tag line) = true.
Proof.
  intros H. destruct (add_rollup_line_cases tag line) as [->|[-> _]]; [exact H|].
  rewrite lacks_app, H. reflexivity.
Qed.

Lemma add_rollup_lines (raw tag : string) :
  split_on nl (add_rollup raw tag) = add_rollup_line tag <$> split_on nl raw.
Proof.
  unfold add_rollup. fold nl.
  pose proof (lines_lack_newline raw "" eq_refl) as Hl. fold (split_on nl raw) in Hl.
  destruct (split_on nl raw) as [|a l] eqn:Hs.
  - exfalso. exact (split_on_from_nonempty _ _ _ _ Hs).
  - apply Forall_cons in Hl as [Ha Hl]. rewrite fmap_cons. unfold split_on.
    rewrite split_on_join_lines, str_app_nil_l; [reflexivity| |].
    + apply Forall_fmap. eapply Forall_impl; [exact Hl|].
      intros x Hx. apply add_rollup_line_lacks. exact Hx.
    + apply add_rollup_line_lacks. exact Ha.
Qed.

(** X21.  [add_rollup] works line by line and only ever appends [ R]:
    the result has the lines of the input, each either unchanged or
    followed by [ R], and a line that already ends in [ R] is never
    changed.  Hence marking is idempotent: applying [add_rollup] with the
    same tag to its own result changes nothing. *)
Theorem add_rollup_idempotent (raw tag : string) :
  add_rollup (add_rollup raw tag) tag = add_rollup raw tag
  /\ Forall2 (fun line line' =>
                line' = line \/ (line' = line +:+ " R" /\ endswith line " R" = false))
       (split_on nl raw) (split_on nl (add_rollup raw tag)).
Proof.
  split.
  - unfold add_rollup at 1. fold nl. rewrite add_rollup_lines.
    unfold add_rollup. fold nl. f_equal.
    rewrite <- list_fmap_compose. apply list_fmap_ext.
    intros i x _. apply add_rollup_line_twice.
  - rewrite add_rollup_lines. apply Forall2_fmap_r, Forall_Forall2_diag, Forall_forall.
    intros line _. apply add_rollup_line_cases.
Qed.

Lemma concat_cons (a : string) (l : list string) :
  String.concat "" (a :: l) = a +:+ String.concat "" l.
Proof. destruct l; [simpl; rewrite str_app_nil_r; reflexivity|reflexivity]. Qed.

Lemma concat_app (l1 l2 : list string) :
  String.concat "" (l1 ++ l2) = String.concat "" l1 +:+ String.concat "" l2.
Proof.
  induction l1 as [|a l1 IH]; [reflexivity|].
  change ((a :: l1) ++ l2) with (a :: (l1 ++ l2)).
  rewrite !concat_cons, IH, str_app_assoc. reflexivity.
Qed.

Lemma output_lines_join (lines : list string) :
  output_lines lines = join nl (lines ++ [""]).
Proof.
  unfold output_lines, join. induction lines as [|a l IH]; [reflexivity|].
  rewrite fmap_cons, concat_cons, IH. fold nl.
  change ((a :: l) ++ [""]) with (a :: (l ++ [""])).
  destruct (l ++ [""]) as [|b r] eqn:E; [destruct l; discriminate E|].
  change (String.concat nl (a :: b :: r)) with (a +:+ nl +:+ String.concat nl (b :: r)).
  rewrite str_app_assoc. reflexivity.
Qed.

Lemma performance_report_lines (pre : list string) (entries : list (string * data)) :
  performance_report (output_lines pre) entries
  = output_lines (pre ++ (performance_text <$> entries)).
Proof.
  unfold performance_report, output_lines. rewrite fmap_app, concat_app. f_equal.
  rewrite <- !list_fmap_compose. f_equal. apply list_fmap_ext. intros i e _.
  unfold compose, performance_line, performance_text. rewrite !str_app_assoc. reflexivity.
Qed.

Lemma add_rollup_of_lines (lines : list string) (tag : string) :
  Forall (fun l => lacks newline l = true) lines ->
  add_rollup (output_lines lines) tag = output_lines (add_rollup_line tag <$> lines).
Proof.
  intros Hl. rewrite !output_lines_join. unfold add_rollup. fold nl. f_equal.
  destruct lines as [|a l].
  - reflexivity.
  - apply Forall_cons in Hl as [Ha Hl].
    change ((a :: l) ++ [""]) with (a :: (l ++ [""])). unfold split_on.
    rewrite split_on_join_lines, str_app_nil_l.
    + rewrite fmap_cons, fmap_app. reflexivity.
    + apply Forall_app. split; [exact Hl|repeat constructor].
    + exact Ha.
Qed.

Lemma add_rollup_line_other (tag line : string) :
  lacks "[" line = true -> add_rollup_line tag line = line.
Proof.
  intros Hl. unfold add_rollup_line, split_on.
  rewrite <- (str_app_nil_r line) at 1.
  rewrite (split_on_from_lacks _ _ _ Hl). reflexivity.
Qed.

Lemma prefix_word (t : string) :
  spaceless t = true ->
  forall tag' rest, spaceless tag' = true ->
    String.prefix (t +:+ " ") (tag' +:+ " " +:+ rest) = bool_decide (tag' = t).
Proof.
  induction t as [|x t IH]; intros Ht tag' rest Htag.
  - rewrite str_app_nil_l. destruct tag' as [|c tag'].
    + rewrite str_app_nil_l. change (" " +:+ rest) with (String " "%char rest).
      rewrite prefix_cons, prefix_nil. reflexivity.
    + rewrite str_app_cons, prefix_cons, prefix_nil, andb_true_r.
      simpl in Htag. apply andb_true_iff in Htag as [Hc _].
      rewrite bool_decide_eq_false_2 by (intros <-; discriminate Hc).
      rewrite bool_decide_eq_false_2 by discriminate. reflexivity.
  - simpl in Ht. apply andb_true_iff in Ht as [Hx Ht].
    rewrite str_app_cons. destruct tag' as [|c tag'].
    + rewrite str_app_nil_l. change (" " +:+ rest) with (String " "%char rest).
      rewrite prefix_cons.
      rewrite bool_decide_eq_false_2 by (intros ->; discriminate Hx).
      rewrite bool_decide_eq_false_2 by discriminate. reflexivity.
    + rewrite str_app_cons, prefix_cons.
      simpl in Htag. apply andb_true_iff in Htag as [_ Htag].
      rewrite (IH Ht tag' rest Htag).
      destruct (decide (x = c)) as [->|Hne].
      * rewrite bool_decide_eq_true_2 by reflexivity. cbn [andb].
        apply bool_decide_ext. split; [intros ->; reflexivity|intros [= ->]; reflexivity].
      * rewrite bool_decide_eq_false_2 by exact Hne.
        rewrite (bool_decide_eq_false_2 (String c tag' = String x t)) by congruence.
        reflexivity.
Qed.

Lemma spaceless_str_from (k : nat) (s : string) :
  spaceless s = true -> spaceless (str_from k s) = true.
Proof.
  revert s. induction k as [|k IH]; intros s Hs; [rewrite str_from_0; exact Hs|].
  destruct s as [|c s]; [reflexivity|]. simpl in Hs. apply andb_true_iff in Hs as [_ Hs].
  cbn [str_from]. apply IH. exact Hs.
Qed.

Lemma endswith_units (a u : string) :
  word u -> endswith (a +:+ " " +:+ u) " R" = bool_decide (u = "R").
Proof.
  intros [Hne Hs]. unfold endswith.
  assert (Hlen : (String.length " R" <=? String.length (a +:+ " " +:+ u))%nat = true).
  { apply Nat.leb_le. rewrite !str_length_app. destruct u; [contradiction|simpl; lia]. }
  rewrite Hlen. cbn [andb]. change (String.length " R") with 2%nat.
  rewrite str_last_app by (destruct u; [contradiction|rewrite str_length_app; simpl; lia]).
  destruct u as [|c1 [|c2 u]]; [contradiction| |].
  - apply bool_decide_ext. unfold str_last. cbn.
    split; [intros [= ->]; reflexivity|intros [= ->]; reflexivity].
  - rewrite (str_last_app 2 " " (String c1 (String c2 u))) by (simpl; lia).
    rewrite bool_decide_eq_false_2.
    + rewrite bool_decide_eq_false_2 by discriminate. reflexivity.
    + intros Heq. pose proof (spaceless_str_from
                                (String.length (String c1 (String c2 u)) - 2)
                                _ Hs) as Hsp.
      unfold str_last in Heq. rewrite Heq in Hsp. discriminate Hsp.
Qed.

Lemma add_rollup_line_entry (tag : string) (e : string * data) :
  printable e -> spaceless tag = true ->
  (e.1 = tag -> units e.2 <> "R") ->
  add_rollup_line tag (performance_text e) = performance_text (rolled_up_as tag e).
Proof.
  intros ((Ht & Hbt) & (Hv & Hbv) & (Hu & Hbu)) Htag Hunits.
  unfold add_rollup_line, split_on.
  set (body := e.1 +:+ " " +:+ value e.2 +:+ " " +:+ units e.2
               +:+ (if rollup e.2 then " R" else "")).
  assert (Hbody : lacks "[" body = true).
  { subst body. rewrite !lacks_app, Hbt, Hbv, Hbu. destruct (rollup e.2); reflexivity. }
  assert (Htext : performance_text e = "[ PERFORMANCE ] " +:+ body) by reflexivity.
  rewrite Htext at 1. rewrite split_on_from_sep.
  rewrite <- (str_app_nil_r body) at 1.
  rewrite (split_on_from_lacks _ _ _ Hbody), str_app_nil_l.
  cbn [split_on_from]. rewrite bool_decide_eq_true_2 by reflexivity. cbn [andb].
  unfold startswith. subst body. rewrite (prefix_word tag Htag _ _ (proj2 Ht)).
  unfold rolled_up_as. case_bool_decide as Heq; [|reflexivity]. cbn [andb].
  destruct e as [t [v u r]]. cbn [fst snd value units rollup] in *.
  destruct r.
  - assert (Hend : endswith (performance_text (t, mkData v u true)) " R" = true).
    { unfold performance_text. cbn [fst snd value units rollup].
      rewrite <- !str_app_assoc. apply endswith_app. }
    rewrite Hend. reflexivity.
  - assert (Hend : endswith (performance_text (t, mkData v u false)) " R" = false).
    { unfold performance_text. cbn [fst snd value units rollup].
      rewrite str_app_nil_r.
      replace ("[ PERFORMANCE ] " +:+ t +:+ " " +:+ v +:+ " " +:+ u)
        with (("[ PERFORMANCE ] " +:+ t +:+ " " +:+ v) +:+ " " +:+ u)
        by (rewrite !str_app_assoc; reflexivity).
      rewrite (endswith_units _ u Hu).
      apply bool_decide_eq_false_2. apply Hunits. exact Heq. }
    rewrite Hend. cbn [negb]. unfold performance_text. cbn [fst snd value units rollup].
    rewrite !str_app_assoc. reflexivity.
Qed.

Lemma rolled_up_as_tag (tag : string) (e : string * data) : (rolled_up_as tag e).1 = e.1.
Proof. unfold rolled_up_as. destruct (bool_decide (e.1 = tag)); reflexivity. Qed.

Lemma rolled_up_as_printable (tag : string) (e : string * data) :
  printable e -> printable (rolled_up_as tag e).
Proof.
  unfold rolled_up_as. destruct (bool_decide (e.1 = tag)); [|tauto].
  intros H. exact H.
Qed.

Lemma output_lines_lacks (x : ascii) (lines : list string) :
  x <> newline ->
  Forall (fun l => lacks x l = true) lines -> lacks x (output_lines lines) = true.
Proof.
  intros Hx. unfold output_lines. induction 1 as [|a l Ha _ IH]; [reflexivity|].
  rewrite fmap_cons, concat_cons, !lacks_app, Ha, IH. simpl.
  rewrite bool_decide_eq_false_2 by exact Hx. reflexivity.
Qed.

(** X29.  [add_rollup] does what it is for.  In output made of whole
    lines without [[] followed by one performance line per entry (the
    tags distinct; tag, value and units words without [[]), marking a tag
    that has no white space rewrites the output to the same report with
    the entry of that tag rolled up, and [parse_perf] of the result
    returns the entries with [rollup] true for that tag and unchanged for
    the others -- provided the units of that entry are not the word [R]
    (such a line already ends in [ R] and is left as it is). *)
Theorem add_rollup_marks_tag (pre : list string) (entries : list (string * data))
    (tag : string) :
  Forall (fun l => lacks "[" l = true /\ lacks newline l = true) pre ->
  Forall printable entries ->
  NoDup entries.*1 ->
  spaceless tag = true ->
  (forall e, e ∈ entries -> e.1 = tag -> units e.2 <> "R") ->
  add_rollup (performance_report (output_lines pre) entries) tag
  = performance_report (output_lines pre) (rolled_up_as tag <$> entries)
  /\ parse_perf false (add_rollup (performance_report (output_lines pre) entries) tag)
     = Ok (rolled_up_as tag <$> entries).
Proof.
  intros Hpre Hp Hnd Htag Hunits. apply Forall_and in Hpre as [Hpre1 Hpre2].
  assert (Hrewrite : add_rollup (performance_report (output_lines pre) entries) tag
                     = performance_report (output_lines pre) (rolled_up_as tag <$> entries)).
  { rewrite !performance_report_lines. rewrite add_rollup_of_lines.
    - f_equal. rewrite fmap_app. f_equal.
      + rewrite <- (list_fmap_id pre) at 2. apply Forall_fmap_ext_1.
        eapply Forall_impl; [exact Hpre1|]. intros l Hl. apply add_rollup_line_other. exact Hl.
      + rewrite <- !list_fmap_compose. apply Forall_fmap_ext_1.
        apply Forall_forall. intros e He. unfold compose. apply add_rollup_line_entry.
        * exact (proj1 (Forall_forall _ _) Hp e He).
        * exact Htag.
        * apply Hunits. exact He.
    - apply Forall_app. split; [exact Hpre2|]. apply Forall_fmap, Forall_forall.
      intros e He. unfold compose.
      destruct (proj1 (Forall_forall _ _) Hp e He) as ((Ht & _) & (Hv & _) & (Hu & _)).
      assert (Hsp : forall s, spaceless s = true -> lacks newline s = true).
      { clear. induction s as [|c s IH]; [reflexivity|]. simpl. intros H.
        apply andb_true_iff in H as [Hc Hs]. rewrite (IH Hs), andb_true_r.
        apply negb_true_iff, bool_decide_eq_false_2. intros <-. discriminate Hc. }
      unfold performance_text.
      rewrite !lacks_app, (Hsp _ (proj2 Ht)), (Hsp _ (proj2 Hv)), (Hsp _ (proj2 Hu)).
      destruct (rollup e.2); reflexivity. }
  split; [exact Hrewrite|]. rewrite Hrewrite.
  unfold parse_perf, performance_report, split_on.
  rewrite (split_on_from_lacks _ _ _ (output_lines_lacks "[" pre ltac:(discriminate) Hpre1)).
  rewrite str_app_nil_l.
  assert (Hp' : Forall printable (rolled_up_as tag <$> entries)).
  { apply Forall_fmap. eapply Forall_impl; [exact Hp|]. intros e He.
    apply rolled_up_as_printable. exact He. }
  rewrite (split_report _ Hp'). cbn [tail].
  rewrite (parse_bodies _ Hp' []); [reflexivity|].
  cbn [dict_keys fmap list_fmap app]. rewrite <- list_fmap_compose.
  erewrite list_fmap_ext; [exact Hnd|]. intros i e _. apply rolled_up_as_tag.
Qed.

Lemma add_rollup_marks_tag_witness :
  parse_perf false
    (add_rollup
       ("stream finished" +:+ nl
          +:+ "[ PERFORMANCE ] Task.Bandwidth 81.5 GB/s" +:+ nl
          +:+ "[ PERFORMANCE ] Task.Time 7.39 s" +:+ nl)
       "Task.Bandwidth")
  = Ok [("Task.Bandwidth", mkData "81.5" "GB/s" true);
        ("Task.Time", mkData "7.39" "s" false)].
Proof.
  apply (proj2 (add_rollup_marks_tag ["stream finished"]
                  [("Task.Bandwidth", mkData "81.5" "GB/s" false);
                   ("Task.Time", mkData "7.39" "s" false)]
                  "Task.Bandwidth"
                  ltac:(repeat constructor)
                  ltac:(repeat constructor; discriminate)
                  ltac:(apply (bool_decide_unpack _); vm_compute; exact I)
                  eq_refl
                  ltac:(intros e He _;
                        repeat (apply elem_of_cons in He as [->|He]);
                        [discriminate..|inversion He]))).
Defined.

Lemma find_lacks (x : ascii) (sub' pre rest : string) :
  lacks x pre = true ->
  find (String x sub') (pre +:+ String x sub' +:+ rest) = Some (String.length pre).
Proof.
  induction pre as [|c pre IH]; intros Hpre.
  - rewrite str_app_nil_l. apply find_prefix, prefix_app.
  - simpl in Hpre. apply andb_true_iff in Hpre as [Hc Hpre]. apply negb_true_iff in Hc.
    rewrite str_app_cons. cbn [find]. rewrite prefix_cons, Hc. cbn [andb].
    rewrite (IH Hpre). reflexivity.
Qed.

Lemma through_newline_line (a post : string) :
  lacks newline a = true -> through_newline (a +:+ nl +:+ post) = Some (a +:+ nl).
Proof.
  induction a as [|c a IH]; intros Ha.
  - reflexivity.
  - simpl in Ha. apply andb_true_iff in Ha as [Hc Ha]. apply negb_true_iff in Hc.
    rewrite !str_app_cons. cbn [through_newline].
    rewrite bool_decide_eq_false_2
      by (intros ->; rewrite bool_decide_eq_true_2 in Hc by reflexivity; discriminate Hc).
    rewrite (IH Ha). reflexivity.
Qed.

Lemma through_newline_none (a : string) :
  lacks newline a = true -> through_newline a = None.
Proof.
  induction a as [|c a IH]; intros Ha; [reflexivity|].
  simpl in Ha. apply andb_true_iff in Ha as [Hc Ha]. apply negb_true_iff in Hc.
  cbn [through_newline].
  rewrite bool_decide_eq_false_2
    by (intros ->; rewrite bool_decide_eq_true_2 in Hc by reflexivity; discriminate Hc).
  rewrite (IH Ha). reflexivity.
Qed.

Lemma rstrip_space_end (a : string) (c : ascii) :
  Ascii.is_space c = true -> rstrip (a +:+ String c EmptyString) = rstrip a.
Proof.
  intros Hc. induction a as [|x a IH].
  - rewrite str_app_nil_l. cbn [rstrip]. rewrite Hc. reflexivity.
  - rewrite str_app_cons. cbn [rstrip]. rewrite IH. reflexivity.
Qed.

Lemma rstrip_app_fixed (a b : string) :
  rstrip b = b -> b <> "" -> rstrip (a +:+ b) = a +:+ b.
Proof.
  intros Hb Hne. induction a as [|x a IH]; [exact Hb|].
  rewrite str_app_cons. cbn [rstrip]. rewrite IH.
  destruct (a +:+ b) eqn:E; [|reflexivity].
  destruct a; [rewrite str_app_nil_l in E; contradiction|discriminate E].
Qed.

(** X30.  [parse_desc] of the base class reads a description line back:
    from output in which the first [[] is that of a line
    [[ DESCRIPTION ] text] ended by a newline, it returns [text] (which
    has no newline and does not end in white space), whatever follows.
    A description on a last line that no newline ends is not found: the
    result is the empty string. *)
Theorem parse_desc_reads_line (pre text post : string) :
  lacks "[" pre = true ->
  lacks newline text = true ->
  rstrip text = text ->
  parse_desc (pre +:+ "[ DESCRIPTION ] " +:+ text +:+ nl +:+ post) = text
  /\ parse_desc (pre +:+ "[ DESCRIPTION ] " +:+ text) = "".
Proof.
  intros Hpre Htext Hstrip. unfold parse_desc. split.
  - change (pre +:+ "[ DESCRIPTION ] " +:+ text +:+ nl +:+ post)
      with (pre +:+ "[ DESCRIPTION ]" +:+ (" " +:+ text) +:+ nl +:+ post).
    rewrite (find_lacks "[" " DESCRIPTION ]" pre _ Hpre).
    rewrite <- (str_app_assoc pre "[ DESCRIPTION ]").
    replace (String.length pre + 15)%nat
      with (String.length (pre +:+ "[ DESCRIPTION ]") + 0)%nat
      by (rewrite str_length_app; simpl; lia).
    rewrite str_from_app, str_from_0.
    rewrite (through_newline_line (" " +:+ text) post) by exact Htext.
    unfold strip. rewrite <- !str_app_assoc.
    unfold nl. rewrite rstrip_space_end by reflexivity.
    destruct text as [|c text]; [reflexivity|].
    rewrite rstrip_app_fixed by (exact Hstrip || discriminate).
    rewrite !str_app_assoc. reflexivity.
  - change (pre +:+ "[ DESCRIPTION ] " +:+ text)
      with (pre +:+ "[ DESCRIPTION ]" +:+ (" " +:+ text)).
    rewrite (find_lacks "[" " DESCRIPTION ]" pre _ Hpre).
    rewrite <- (str_app_assoc pre "[ DESCRIPTION ]").
    replace (String.length pre + 15)%nat
      with (String.length (pre +:+ "[ DESCRIPTION ]") + 0)%nat
      by (rewrite str_length_app; simpl; lia).
    rewrite str_from_app, str_from_0.
    rewrite (through_newline_none (" " +:+ text)) by exact Htext. reflexivity.
Qed.

Lemma parse_desc_reads_line_witness :
  parse_desc ("starting" +:+ nl +:+ "[ DESCRIPTION ] 4096 x 4096 MKL DGEMM" +:+ nl
                +:+ "[ PERFORMANCE ] Computation.Avg 290.43 GFlops R" +:+ nl)
  = "4096 x 4096 MKL DGEMM".
Proof.
  apply (proj1 (parse_desc_reads_line ("starting" +:+ nl) "4096 x 4096 MKL DGEMM"
                  ("[ PERFORMANCE ] Computation.Avg 290.43 GFlops R" +:+ nl)
                  eq_refl eq_refl eq_refl)).
Defined.

End kernel_output.

(** ** More of [Offload.run] *)

Section offload_more.
Import Py Offload.

(** X22.  Forcing the device index into a parameter object.  When the
    object has the device parameter, the result has it set to
    [str(devIdx)] and every other name as before, and forcing again
    changes nothing; when it has not, the object is returned as it is for
    index 0 and [NameError] is raised for every other index. *)
Theorem force_device_index_sets (devIdx : Z) (devParName : string) (param : Params.Params) :
  match Params._params param !! devParName with
  | Some _ =>
      devParName ∈ Params._paramNames param ->
      exists p', force_device_index devIdx devParName param = Ok p'
        /\ Params.get_named p' devParName = Ok (Some (pretty devIdx))
        /\ (forall n, n <> devParName -> Params.get_named p' n = Params.get_named param n)
        /\ force_device_index devIdx devParName p' = Ok p'
  | None =>
      force_device_index devIdx devParName param
      = if bool_decide (devIdx = 0) then Ok param else Raise (NameError "")
  end.
Proof.
  unfold force_device_index, Params.get_named.
  destruct (Params._params param !! devParName) as [v|] eqn:Hv; [|reflexivity].
  intros Hdecl. case_bool_decide as Hsame.
  - exists param. rewrite Hv, Hsame.
    rewrite bool_decide_eq_true_2 by reflexivity. auto.
  - unfold Params.set_named. rewrite bool_decide_eq_true_2 by exact Hdecl.
    eexists. split; [reflexivity|]. cbn [Params._params Params._paramNames].
    rewrite lookup_insert_eq. split; [reflexivity|]. split.
    + intros n Hn. rewrite lookup_insert_ne by congruence. reflexivity.
    + rewrite bool_decide_eq_true_2 by reflexivity. reflexivity.
Qed.

Lemma force_device_index_sets_witness :
  exists p', force_device_index 1 "threads" Sample.three_params = Ok p'
             /\ Params.get_named p' "threads" = Ok (Some "1").
Proof.
  pose proof (force_device_index_sets 1 "threads" Sample.three_params) as H.
  change (Params._params Sample.three_params !! "threads") with (Some (Some "4")) in H.
  destruct H as (p' & H1 & H2 & _).
  - apply elem_of_cons. right. left.
  - exists p'. split; [exact H1|exact H2].
Defined.

Lemma connected (w : World) (device : string) :
  (device ∈ LOCAL_HOST_ID \/ remote_connect w device = Ok tt) ->
  exists c, MPSSConnect w device = ([Connect device], Ok c).
Proof.
  intros Hconn. unfold MPSSConnect. cbn. destruct Hconn as [Hl|Hr].
  - rewrite bool_decide_eq_true_2 by exact Hl. eauto.
  - case_bool_decide; [eauto|]. rewrite Hr. eauto.
Qed.

Lemma connected_local (w : World) :
  MPSSConnect w "localhost" = ([Connect "localhost"], Ok Local).
Proof.
  unfold MPSSConnect. cbn.
  rewrite bool_decide_eq_true_2 by exact localhost_is_local. reflexivity.
Qed.

Lemma mpi_validated (w : World) (kernel : Kernel.Kernel) :
  (Kernel.is_mpi_required kernel = false \/ is_mpi_available w = true) ->
  _validate_mpi_requirements w kernel = Ok tt.
Proof.
  intros Hmpi. unfold _validate_mpi_requirements.
  destruct Hmpi as [-> | ->]; [reflexivity|]. rewrite andb_false_r. reflexivity.
Qed.

(** X23.  An executable that cannot be used ends the run before anything
    is staged or launched.  Once the connection objects exist and the MPI
    requirement is met, if the kernel has no executable for the offload
    method (the lookup raises [NoExecutableError] or returns [None]) or
    the path returned does not exist, [run] does nothing after the
    lookup: it returns the empty list, except that a missing executable
    of [linpack], [hplinpack] or [hpcg] raises the missing-dependency
    error for Linpack. *)
Theorem unusable_executable_ends_run (w : World) (self : Offload) (kernel : Kernel.Kernel)
    (device : string) (paramList : list Params.Params)
    (devParamList : option (list Params.Params)) (kernelStdOut : bool) :
  (device ∈ LOCAL_HOST_ID \/ remote_connect w device = Ok tt) ->
  (Kernel.is_mpi_required kernel = false \/ is_mpi_available w = true) ->
  (resolved self kernel = Raise NoExecutableError
   \/ resolved self kernel = Ok None
   \/ exists execPath, resolved self kernel = Ok (Some execPath)
                       /\ path_exists w execPath = false) ->
  run w self kernel device paramList devParamList kernelStdOut
  = ([Connect device; Connect "localhost";
      ResolveExec (if _runHost self then Host else Device) (name self)],
     match resolved self kernel with
     | Raise _ =>
         if bool_decide (Kernel.name kernel ∈ ["linpack"; "hplinpack"; "hpcg"])
         then Raised (MissingDependenciesError DEP_LINPACK) None
         else Returned []
     | Ok _ => Returned []
     end).
Proof.
  intros Hconn Hmpi Hres. destruct (connected w device Hconn) as [c Hc].
  unfold run. rewrite Hc, (connected_local w), (mpi_validated w kernel Hmpi).
  fold (resolved self kernel).
  destruct Hres as [-> | [-> | (execPath & -> & Hex)]].
  - case_bool_decide; reflexivity.
  - reflexivity.
  - rewrite Hex. reflexivity.
Qed.

Lemma unusable_executable_ends_run_witness :
  run (Sample.machine 0) NativeOffload (Sample.host_kernel false) "localhost"
    [Sample.three_params] None false
  = ([Connect "localhost"; Connect "localhost"; ResolveExec Device "native"], Returned []).
Proof.
  apply (unusable_executable_ends_run (Sample.machine 0) NativeOffload
           (Sample.host_kernel false) "localhost" [Sample.three_params] None false).
  - left. exact localhost_is_local.
  - left. reflexivity.
  - left. reflexivity.
Defined.

(** X24.  In an offload that runs on both sides, a device process that
    ends with an exit code other than zero gets the host process killed
    without being awaited: after the two launches the round awaits the
    device process, kills the host process and cleans up, and it raises
    [CalledProcessError] with the device exit code and the device command
    line (or the error of the clean-up, if that fails). *)
Theorem device_failure_kills_host (w : World) (kernel : Kernel.Kernel) (self : Offload)
    (connect localConnect : connection) (execPath : string) (kernelStdOut : bool)
    (hostParam devParam : Params.Params) (devParamFile fs : files)
    (t1 t2 : list event) (devArgs : string) (devProc hostProc : process)
    (hostParamFile hostArgs : list string) :
  _runDev self = true ->
  _runHost self = true ->
  launch_device w kernel self connect execPath devParam devParamFile
  = (t1, (fs, Ok (devArgs, devProc))) ->
  launch_host w kernel self localConnect execPath hostParam
  = (t2, (hostParamFile, Ok (hostArgs, hostProc))) ->
  returncode devProc <> 0 ->
  round w kernel self connect localConnect execPath kernelStdOut hostParam devParam
    devParamFile
  = (t1 ++ t2 ++ [Await Device; Kill Host] ++ (clean_up w hostParamFile fs connect).1,
     (fs, Raise match (clean_up w hostParamFile fs connect).2 with
                | Ok _ => CalledProcessError (returncode devProc) devArgs
                | Raise e => e
                end)).
Proof.
  intros Hdev Hhost Hld Hlh Hrc. unfold round. rewrite Hdev, Hhost, Hld, Hlh.
  cbn [fmap result_fmap]. unfold await, release.
  cbn [emit bind]. rewrite bool_decide_eq_true_2 by exact Hrc.
  cbn [raise emit bind app]. unfold finally.
  destruct (clean_up w hostParamFile fs connect) as [t4 [[]|e]]; reflexivity.
Qed.

Lemma device_failure_kills_host_witness :
  round (Sample.machine 3) (Sample.host_kernel false) SCIFOffload Local Local
    "/opt/bin/sample" false Sample.three_params Sample.three_params (FileList [])
  = ([Launch Device (Shell "cd /tmp/ && /tmp/sample 64 4") [];
      Launch Host (Argv ["numactl"; "/opt/bin/sample"; "64"; "4"; "--fixed"]) [];
      Await Device; Kill Host],
     (FileList [], Raise (CalledProcessError 3 "cd /tmp/ && /tmp/sample 64 4"))).
Proof.
  apply (device_failure_kills_host (Sample.machine 3) (Sample.host_kernel false) SCIFOffload
           Local Local "/opt/bin/sample" false Sample.three_params Sample.three_params
           (FileList []) (FileList [])
           [Launch Device (Shell "cd /tmp/ && /tmp/sample 64 4") []]
           [Launch Host (Argv ["numactl"; "/opt/bin/sample"; "64"; "4"; "--fixed"]) []]
           "cd /tmp/ && /tmp/sample 64 4" (mkProcess "" "" 3) (mkProcess "" "" 3)
           [] ["numactl"; "/opt/bin/sample"; "64"; "4"; "--fixed"]).
  - reflexivity.
  - reflexivity.
  - vm_compute. reflexivity.
  - vm_compute. reflexivity.
  - discriminate.
Defined.












End offload_more.

(** ** The flag grammar read back *)

Section flags.
Import Py Params.

(** The lexer reads plain keys and values, written as [key value] and
    joined with blanks, back as the keys and the values that are not
    empty. *)
Lemma lex_items (l : list (string * string)) :
  Forall (fun kv => (plain kv.1 = true /\ kv.1 <> "") /\ plain kv.2 = true) l ->
  shlex_split (join " " ((fun kv => kv.1 +:+ " " +:+ kv.2) <$> l))
  = Ok (concat ((fun kv : string * string =>
                   if bool_decide (kv.2 = "") then [kv.1] else [kv.1; kv.2]) <$> l)).
Proof.
  unfold shlex_split, join.
  induction l as [|[k v] l IH]; intros Hl; [reflexivity|].
  apply Forall_cons in Hl as [[[Hk Hne] Hv] Hl]. simpl in Hk, Hne, Hv.
  specialize (IH Hl). rewrite !fmap_cons. cbn [fst snd concat].
  destruct l as [|kv' l'].
  - cbn [fmap list_fmap String.concat concat]. rewrite app_nil_r.
    rewrite lex_word_blank by exact Hk.
    rewrite bool_decide_eq_false_2 by exact Hne.
    rewrite lex_word_end by exact Hv.
    destruct (bool_decide (v = "")); reflexivity.
  - set (tail := (fun kv : string * string => kv.1 +:+ " " +:+ kv.2) <$> kv' :: l') in *.
    assert (Htail : String.concat " " ((k +:+ " " +:+ v) :: tail)
                    = k +:+ " " +:+ (v +:+ " " +:+ String.concat " " tail)).
    { unfold tail. rewrite fmap_cons.
      change (String.concat " " ((k +:+ " " +:+ v) :: ?x :: ?y))
        with ((k +:+ " " +:+ v) +:+ " " +:+ String.concat " " (x :: y)).
      rewrite !str_app_assoc. reflexivity. }
    rewrite Htail.
    rewrite lex_word_blank by exact Hk.
    rewrite bool_decide_eq_false_2 by exact Hne.
    rewrite lex_word_blank by exact Hv.
    rewrite IH. destruct (bool_decide (v = "")); reflexivity.
Qed.

Lemma alpha_plain (c : ascii) : is_alpha c = true -> plain_char c = true.
Proof. destruct c as [[] [] [] [] [] [] [] []]; intros H; try reflexivity; discriminate H. Qed.

Lemma flag_of_cons (c : ascii) (n' : string) :
  flag_of (String c n') = String "-"%char (String c EmptyString).
Proof. unfold flag_of. cbn [str_upto]. destruct n'; reflexivity. Qed.

Lemma flag_of_short (names : list string) (n : string) :
  flagged names n -> is_short_option (flag_of n) = true.
Proof.
  intros (c & n' & -> & Hc & _). rewrite flag_of_cons. cbn. rewrite Hc. reflexivity.
Qed.

Lemma flag_of_plain (names : list string) (n : string) :
  flagged names n -> plain (flag_of n) = true /\ flag_of n <> "".
Proof.
  intros (c & n' & -> & Hc & _). rewrite flag_of_cons. split; [|discriminate].
  cbn. rewrite (alpha_plain c Hc). reflexivity.
Qed.

Lemma flag_items_flagged (names : list string) (l : list (string * string)) :
  Forall (fun nv => flagged names nv.1) l ->
  flag_items l = Ok ((fun nv => flag_of nv.1 +:+ " " +:+ nv.2) <$> l).
Proof.
  induction 1 as [|[n v] l (c & n' & Hn & _) _ IH]; [reflexivity|].
  simpl in Hn. subst n. cbn [flag_items]. unfold flag_item. cbn [fst snd].
  rewrite IH, fmap_cons. cbn [fst snd fmap result_fmap]. rewrite flag_of_cons. reflexivity.
Qed.

(** Where the option parser is at a short option. *)
Lemma short_option_token (vd : ParamTypeValidator) (names : list string) (n : string)
    (rest : list string) (i : nat) (d : gmap string pyval) :
  flagged names n ->
  parse_options vd names (flag_of n :: rest) i d
  = match rest with
    | v :: rest' =>
        if negb (is_short_option v) then
          match validate_param vd n v with
          | Ok val => parse_options vd names rest' (i + 2) (<[n := Some val]> d)
          | Raise e => Raise e
          end
        else
          match validate_param vd n "" with
          | Ok val => parse_options vd names rest (i + 1) (<[n := Some val]> d)
          | Raise e => Raise e
          end
    | [] =>
        match validate_param vd n "" with
        | Ok val => Ok (<[n := Some val]> d)
        | Raise e => Raise e
        end
    end.
Proof.
  intros (c & n' & -> & Hc & Hh & Hf). rewrite flag_of_cons. cbn [parse_options].
  rewrite (short_flag_not_long c Hc). cbn [is_short_option re_at_end].
  rewrite Hc. cbn [andb]. rewrite bool_decide_eq_false_2 by exact Hh.
  rewrite Hf. reflexivity.
Qed.

Lemma flag_tokens_of_cons (n v : string) (l : list (string * string)) :
  flag_tokens_of ((n, v) :: l)
  = (if bool_decide (v = "") then [flag_of n] else [flag_of n; v]) ++ flag_tokens_of l.
Proof. reflexivity. Qed.

Lemma parse_flag_tokens (vd : ParamTypeValidator) (names : list string)
    (l : list (string * string)) :
  Forall (flag_accepted vd names) l ->
  forall (i : nat) (d : gmap string pyval),
    parse_options vd names (flag_tokens_of l) i d
    = Ok (foldl (fun d nv => <[nv.1 := Some nv.2]> d) d l).
Proof.
  induction l as [|[n v] l IH]; intros Hl i d; [reflexivity|].
  apply Forall_cons in Hl as [(Hn & Hshort & Hval) Hl].
  simpl in Hn, Hshort, Hval.
  rewrite flag_tokens_of_cons. case_bool_decide as Hv.
  - subst v. cbn [app]. rewrite (short_option_token _ _ _ _ _ _ Hn).
    destruct l as [|[n2 v2] l2].
    + cbn [flag_tokens_of fmap list_fmap concat]. rewrite Hval. reflexivity.
    + specialize (IH Hl (i + 1)%nat (<[n := Some ""]> d)).
      apply Forall_cons in Hl as [(Hn2 & _) _]. simpl in Hn2.
      rewrite flag_tokens_of_cons in IH |- *.
      assert (Hnext : exists rest, (if bool_decide (v2 = "") then [flag_of n2]
                                    else [flag_of n2; v2]) ++ flag_tokens_of l2
                                   = flag_of n2 :: rest)
        by (destruct (bool_decide (v2 = "")); eexists; reflexivity).
      destruct Hnext as [rest Heq]. rewrite Heq in IH |- *.
      rewrite (flag_of_short _ _ Hn2). cbn [negb]. rewrite Hval. exact IH.
  - cbn [app]. rewrite (short_option_token _ _ _ _ _ _ Hn), Hshort. cbn [negb].
    rewrite Hval. apply IH. exact Hl.
Qed.

(** X26.  The flag grammar read back.  Let every declared name begin
    with a letter other than [h] with which no other declared name
    begins, and let every value that [flag_str] writes hold no blank,
    quote or backslash, not be a short option itself, and pass the type
    validator.  Then [flag_str] returns, constructing a second object
    from its result under the same schema succeeds, every declared name
    that is not quiet has the value it has in the first object, and every
    quiet name has its default.  A value may begin with [-] (such as
    [-1]), which the long form cannot carry. *)
Theorem flag_str_round_trip (raw : raw_params) (names : list string)
    (defaults : gmap string pyval) (quiet : list string) (vname : string)
    (vd : ParamTypeValidator) (p1 : Params) :
  ParamTypeValidatorFactory vname = Ok vd ->
  init raw names defaults quiet vname = Ok p1 ->
  Forall (flagged names) names ->
  (forall n v, n ∈ names -> n ∉ quiet -> get_named p1 n = Ok (Some v) ->
     plain v = true /\ is_short_option v = false /\ validate_param vd n v = Ok v) ->
  exists s p2,
    flag_str p1 = Ok s
    /\ init (RawStr s) names defaults quiet vname = Ok p2
    /\ forall n, n ∈ names ->
         get_named p2 n
         = if bool_decide (n ∈ quiet) then Ok (default None (defaults !! n))
           else get_named p1 n.
Proof.
  intros Hvd Hinit Hflags Hvals.
  destruct (init_declared _ _ _ _ _ _ Hinit) as (Hn1 & _ & Hq1 & Hkeys).
  assert (Hl : forall n v, (n, v) ∈ shown p1
                           <-> n ∈ names /\ (n ∉ quiet) /\ item p1 n = Some v).
  { intros n v. rewrite shown_elem, Hn1, Hq1. reflexivity. }
  assert (Hitem : forall n v, n ∈ names -> item p1 n = Some v ->
                              get_named p1 n = Ok (Some v)).
  { intros n v Hn Hv. unfold get_named, item in *.
    destruct (Hkeys n Hn) as (x & Hx & _). rewrite Hx in Hv |- *.
    simpl in Hv. rewrite Hv. reflexivity. }
  set (l := shown p1) in *.
  assert (Hfl : Forall (fun nv => flagged names nv.1) l).
  { apply Forall_forall. intros [n v] Hin. apply Hl in Hin as (Hn & _).
    exact (proj1 (Forall_forall _ _) Hflags n Hn). }
  assert (Hplain : Forall (fun kv => (plain kv.1 = true /\ kv.1 <> "") /\ plain kv.2 = true)
                     ((fun nv : string * string => (flag_of nv.1, nv.2)) <$> l)).
  { apply Forall_fmap, Forall_forall. intros [n v] Hin.
    pose proof (proj1 (Forall_forall _ _) Hfl _ Hin) as Hf.
    apply Hl in Hin as (Hn & Hq & Hv). simpl in *.
    split; [exact (flag_of_plain _ _ Hf)|].
    apply (Hvals n v Hn Hq). apply Hitem; assumption. }
  assert (Hacc : Forall (flag_accepted vd names) l).
  { apply Forall_forall. intros [n v] Hin.
    pose proof (proj1 (Forall_forall _ _) Hfl _ Hin) as Hf.
    apply Hl in Hin as (Hn & Hq & Hv).
    destruct (Hvals n v Hn Hq (Hitem n v Hn Hv)) as (_ & Hshort & Hval).
    split; [exact Hf|]. split; assumption. }
  set (d0 := list_to_map ((fun pn => (pn, None)) <$> names) : gmap string pyval).
  exists (join " " ((fun nv => flag_of nv.1 +:+ " " +:+ nv.2) <$> l)).
  exists (mkParams names
            (fill_defaults names defaults
               (foldl (fun d nv => <[nv.1 := Some nv.2]> d) d0 l))
            defaults quiet).
  split; [|split].
  - unfold flag_str. fold l. rewrite (flag_items_flagged names l Hfl). reflexivity.
  - assert (Hlex : shlex_split (join " " ((fun nv => flag_of nv.1 +:+ " " +:+ nv.2) <$> l))
                   = Ok (flag_tokens_of l)).
    { pose proof (lex_items _ Hplain) as Hx.
      rewrite <- !list_fmap_compose in Hx. exact Hx. }
    rewrite (init_lexed _ _ _ _ _ _ Hlex).
    destruct l as [|[n v] l'] eqn:Hshown.
    + rewrite (init_no_tokens _ _ _ _ _ Hvd). reflexivity.
    + rewrite (init_options _ _ _ _ _ _ Hvd).
      * rewrite (parse_flag_tokens _ _ _ Hacc). reflexivity.
      * apply Forall_cons in Hfl as [Hf _]. simpl in Hf.
        rewrite flag_tokens_of_cons.
        assert (Hhead : exists rest, (if bool_decide (v = "") then [flag_of n]
                                      else [flag_of n; v]) ++ flag_tokens_of l'
                                     = flag_of n :: rest)
          by (destruct (bool_decide (v = "")); eexists; reflexivity).
        destruct Hhead as [rest ->]. cbn [existsb].
        rewrite (flag_of_short _ _ Hf), orb_true_r. reflexivity.
  - intros n Hn. unfold get_named. cbn [_params].
    rewrite fill_defaults_lookup, bool_decide_eq_true_2 by exact Hn. unfold filled.
    destruct (Hkeys n Hn) as (x & Hx & Hdef).
    case_bool_decide as Hq.
    + rewrite foldl_assign_other.
      * unfold d0. rewrite blank_params_lookup, bool_decide_eq_true_2 by exact Hn.
        reflexivity.
      * intros Hin. apply list_elem_of_fmap in Hin as ([n' v] & Heq & Hin).
        simpl in Heq. subst n'. apply Hl in Hin. tauto.
    + assert (Hix : item p1 n = x) by (unfold item; rewrite Hx; reflexivity).
      rewrite Hx. destruct x as [v|].
      * rewrite (foldl_assign_same l d0 n v); [reflexivity| |].
        -- intros v' Hin. apply Hl in Hin as (_ & _ & Hv'). congruence.
        -- apply Hl. auto.
      * rewrite foldl_assign_other.
        -- unfold d0. rewrite blank_params_lookup, bool_decide_eq_true_2 by exact Hn.
           rewrite (Hdef eq_refl). reflexivity.
        -- intros Hin. apply list_elem_of_fmap in Hin as ([n' v] & Heq & Hin).
           simpl in Heq. subst n'. apply Hl in Hin as (_ & _ & Hv). congruence.
Qed.

Lemma flag_str_round_trip_witness :
  exists s p2,
    flag_str Sample.gemm_given = Ok s
    /\ init (RawStr s) Sample.gemm_names Sample.gemm_defaults [] NO_VALIDATOR = Ok p2
    /\ forall n, n ∈ Sample.gemm_names ->
         get_named p2 n
         = if bool_decide (n ∈ ([] : list string))
           then Ok (default None (Sample.gemm_defaults !! n))
           else get_named Sample.gemm_given n.
Proof.
  apply (flag_str_round_trip (RawList ["--i_num_rep"; "3"]) Sample.gemm_names
           Sample.gemm_defaults [] NO_VALIDATOR NoParamTypeValidator Sample.gemm_given).
  - reflexivity.
  - vm_compute. reflexivity.
  - repeat constructor; eexists _, _; repeat split; try reflexivity; discriminate.
  - intros n v Hn _ Hget.
    repeat (apply elem_of_cons in Hn as [->|Hn]);
      [vm_compute in Hget; injection Hget as <-; repeat split..|inversion Hn].
Defined.

(** The text written and read back in that instance. *)
Lemma flag_str_of_negative_default :
  flag_str Sample.gemm_given = Ok "-i 3 -M -1"
  /\ exists p2, init (RawStr "-i 3 -M -1") Sample.gemm_names Sample.gemm_defaults []
                  NO_VALIDATOR = Ok p2
                /\ get_named p2 "M_size" = Ok (Some "-1").
Proof. split; [vm_compute; reflexivity|]. eexists. split; vm_compute; reflexivity. Qed.

End flags.

(** ** Tags and the lookup by offload name *)

Section tags.
Import Py Stats.

Lemma sub_badChar_safe (tag : string) : safe (StatsCollectionTag.sub_badChar tag) = true.
Proof.
  induction tag as [|c tag IH]; [reflexivity|].
  cbn [StatsCollectionTag.sub_badChar safe]. rewrite IH, andb_true_r.
  destruct (StatsCollectionTag.badChar c) eqn:Hc; [reflexivity|]. rewrite Hc. reflexivity.
Qed.

Lemma safe_app (a b : string) : safe (a +:+ b) = safe a && safe b.
Proof.
  induction a as [|c a IH]; [reflexivity|].
  rewrite str_app_cons. simpl. rewrite IH, andb_assoc. reflexivity.
Qed.

Lemma safe_fixed (tag : string) :
  safe tag = true <-> StatsCollectionTag.sub_badChar tag = tag.
Proof.
  induction tag as [|c tag IH]; [split; reflexivity|].
  cbn [StatsCollectionTag.sub_badChar safe]. split.
  - intros H. apply andb_true_iff in H as [Hc Ht]. apply negb_true_iff in Hc.
    rewrite Hc, (proj1 IH Ht). reflexivity.
  - intros H. injection H as Hc Ht. rewrite (proj2 IH Ht), andb_true_r.
    destruct (StatsCollectionTag.badChar c) eqn:Hb; [|reflexivity].
    subst c. discriminate Hb.
Qed.

Lemma safe_path_component (s : string) :
  safe s = true -> lacks "/" s = true /\ spaceless s = true.
Proof.
  induction s as [|c s IH]; [split; reflexivity|].
  cbn [safe lacks spaceless]. intros H. apply andb_true_iff in H as [Hc Hs].
  destruct (IH Hs) as [-> ->]. rewrite !andb_true_r.
  destruct c as [[] [] [] [] [] [] [] []]; try discriminate Hc; split; reflexivity.
Qed.

(** X27.  The tag of a collection is fit for a file name.  Whether the
    tag is given to [StatsCollection] or generated, every character other
    than a letter, a digit, [_], [.] and [-] is replaced by [-]: the tag
    stored, with the [mcdram_] or [ddr_] it may get in front, holds only
    such characters (so no [/] and no white space); the replacement keeps
    the length, and the warning is written exactly when a tag was given
    that held another character. *)
Theorem init_tag_is_safe (selfboot mcdram : bool) (generated : string)
    (tag : option string) :
  let stored := StatsCollectionTag.init_tag selfboot mcdram generated tag in
  safe stored = true
  /\ lacks "/" stored = true
  /\ spaceless stored = true
  /\ (forall s, String.length (StatsCollectionTag.sub_badChar s) = String.length s)
  /\ StatsCollectionTag.warns tag = negb (safe (default "" tag)).
Proof.
  intros stored.
  assert (Hsafe : safe stored = true).
  { subst stored. unfold StatsCollectionTag.init_tag.
    destruct tag as [[|c given]|], selfboot, mcdram; cbn [andb negb];
      rewrite ?safe_app; rewrite sub_badChar_safe; reflexivity. }
  destruct (safe_path_component stored Hsafe) as [H1 H2].
  split; [exact Hsafe|]. split; [exact H1|]. split; [exact H2|]. split.
  - clear. intros s. induction s as [|c s IH]; [reflexivity|]. simpl. rewrite IH.
    reflexivity.
  - destruct tag as [[|c given]|]; [reflexivity| |reflexivity].
    change (default "" (Some (String c given))) with (String c given).
    unfold StatsCollectionTag.warns. f_equal.
    destruct (safe (String c given)) eqn:Hs.
    + apply bool_decide_eq_true_2, safe_fixed. exact Hs.
    + apply bool_decide_eq_false_2. intros H. apply safe_fixed in H. congruence.
Qed.

Lemma remove_dups_same (x : string) (l : list string) :
  Forall (fun y => y = x) l -> remove_dups l = match l with [] => [] | _ => [x] end.
Proof.
  induction 1 as [|y l -> Hl IH]; [reflexivity|].
  cbn [remove_dups]. rewrite IH. destruct l as [|z l].
  - destruct (decide_rel _ _ _) as [H|H]; [inversion H|reflexivity].
  - destruct (decide_rel _ _ _) as [H|H]; [reflexivity|]. exfalso. apply H.
    apply Forall_cons in Hl as [-> _]. left.
Qed.

Lemma merge_sort_singleton (x : string) : merge_sort String.le [x] = [x].
Proof.
  apply Permutation_singleton_r. apply merge_sort_Permutation.
Qed.

(** X28.  Looking a list up by its offload name alone.  In a collection
    whose keys for a kernel all carry the collection's own tag (as they
    do when it was filled by [append] only), [get_stat_list] with an
    offload name without [__] returns the list stored under
    [offload__tag], and the empty list when there is none; with the full
    key it returns the same list, but raises [KeyError] when there is
    none. *)
Theorem get_stat_list_by_offload (self : StatsCollection) (kernelName offloadName : string)
    (offloads : list (string * list Stats)) :
  dict_get kernelName (_store self) = Some offloads ->
  (forall key, key ∈ dict_keys offloads ->
     exists off, key = off +:+ "__" +:+ tag self /\ contains "__" (off +:+ "_") = false) ->
  contains "__" offloadName = false ->
  let key := offloadName +:+ "__" +:+ tag self in
  get_stat_list self kernelName offloadName = Ok (default [] (dict_get key offloads))
  /\ get_stat_list self kernelName key
     = match dict_get key offloads with
       | Some l => Ok l
       | None => Raise (KeyError key)
       end.
Proof.
  intros Hk Hkeys Hshort key. unfold get_stat_list. rewrite Hk. split.
  - rewrite Hshort.
    assert (Hext : Forall (fun y => y = tag self)
                     (omap (fun oo => (split_offload oo).2) (dict_keys offloads))).
    { apply Forall_forall. intros y Hy. apply list_elem_of_omap in Hy as (oo & Hoo & Hy).
      destruct (Hkeys oo Hoo) as (off & -> & Hoff).
      rewrite (proj2 (split_offload_rejoin off (tag self)) Hoff) in Hy.
      injection Hy as <-. reflexivity. }
    rewrite (remove_dups_same _ _ Hext).
    destruct (omap _ (dict_keys offloads)) as [|y ys] eqn:Ho.
    + cbn. destruct (dict_get key offloads) as [l|] eqn:Hd; [|reflexivity].
      exfalso. assert (Hin : key ∈ dict_keys offloads).
      { destruct (decide (key ∈ dict_keys offloads)) as [H|H]; [exact H|].
        apply dict_get_None in H. congruence. }
      destruct (Hkeys key Hin) as (off & Heq & Hoff).
      assert (Hsome : (split_offload key).2 = Some (tag self)).
      { rewrite Heq, (proj2 (split_offload_rejoin off (tag self)) Hoff). reflexivity. }
      assert (Hy : tag self ∈ omap (fun oo => (split_offload oo).2) (dict_keys offloads)).
      { apply list_elem_of_omap. exists key. split; assumption. }
      rewrite Ho in Hy. inversion Hy.
    + rewrite merge_sort_singleton. cbn [omap list_omap concat]. fold key.
      destruct (dict_get key offloads); cbn; [rewrite app_nil_r|]; reflexivity.
  - unfold key at 1. rewrite contains_joined. reflexivity.
Qed.

Lemma get_stat_list_by_offload_witness :
  get_stat_list (Sample.collection "optimal" "run" 1%float) "dgemm" "local"
  = Ok [Sample.stat "Computation.Avg" 1%float]
  /\ get_stat_list (Sample.collection "optimal" "run" 1%float) "dgemm" "native"
     = Ok []
  /\ get_stat_list (Sample.collection "optimal" "run" 1%float) "dgemm" "native__run"
     = Raise (KeyError "native__run").
Proof.
  assert (Hkeys : forall key,
             key ∈ dict_keys [("local__run", [Sample.stat "Computation.Avg" 1%float])] ->
             exists off, key = off +:+ "__" +:+ tag (Sample.collection "optimal" "run" 1%float)
                         /\ contains "__" (off +:+ "_") = false).
  { intros key Hin. apply list_elem_of_singleton in Hin. subst key.
    exists "local". split; reflexivity. }
  split; [|split].
  - exact (proj1 (get_stat_list_by_offload (Sample.collection "optimal" "run" 1%float)
                    "dgemm" "local" _ eq_refl Hkeys eq_refl)).
  - exact (proj1 (get_stat_list_by_offload (Sample.collection "optimal" "run" 1%float)
                    "dgemm" "native" _ eq_refl Hkeys eq_refl)).
  - exact (proj2 (get_stat_list_by_offload (Sample.collection "optimal" "run" 1%float)
                    "dgemm" "native" _ eq_refl Hkeys eq_refl)).
Defined.

End tags.
